(** * FiltersCompiler: the rule converter and the filter compiler

    A shallow embedding of [src/main/converter.js] (the rule converter and,
    in the same file, the compiler that builds [filter.txt] from a
    directory) and the properties of its specification.

    JavaScript strings are modelled by [string] over the 256 one-byte
    characters; the line terminators of the dot and the white space of
    [trim] are the ones that exist in that alphabet. *)

From Stdlib Require Import Strings.String Strings.Ascii Lists.List Bool.Bool.
From Stdlib Require Import Arith.Arith ZArith.ZArith Lia.
From Stdlib Require Import Numbers.DecimalString.
Import ListNotations.

Local Open Scope list_scope.
Local Open Scope string_scope.

Set Implicit Arguments.
Set Warnings "-register-all".

(** ** Strings of the host language *)

Module Str.

Definition dquote : string := String "034"%char "".

(** [s.startsWith(p)] *)
Fixpoint startsWith (s p : string) : bool :=
  match p, s with
  | EmptyString, _ => true
  | String _ _, EmptyString => false
  | String a p', String b s' => Ascii.eqb a b && startsWith s' p'
  end.

(** the string left after its first [n] characters *)
Fixpoint drop (n : nat) (s : string) : string :=
  match n, s with
  | 0, _ => s
  | S _, EmptyString => EmptyString
  | S n', String _ s' => drop n' s'
  end.

(** the first [n] characters *)
Fixpoint take (n : nat) (s : string) : string :=
  match n, s with
  | 0, _ => EmptyString
  | S _, EmptyString => EmptyString
  | S n', String c s' => String c (take n' s')
  end.

(** [s.includes(sub)] *)
Fixpoint includes (s sub : string) : bool :=
  startsWith s sub ||
  match s with
  | EmptyString => false
  | String _ s' => includes s' sub
  end.

(** [s.endsWith(p)] *)
Definition endsWith (s p : string) : bool :=
  (String.length p <=? String.length s)%nat &&
  String.eqb (drop (String.length s - String.length p) s) p.

(** The text before and the text after the first occurrence of a
    separator. *)
Fixpoint cut (s sep : string) : option (string * string) :=
  if startsWith s sep then Some (EmptyString, drop (String.length sep) s)
  else match s with
       | EmptyString => None
       | String c s' =>
           match cut s' sep with
           | Some (a, b) => Some (String c a, b)
           | None => None
           end
       end.

Fixpoint split_pieces (fuel : nat) (s sep : string) : list string :=
  match fuel with
  | 0 => [s]
  | S fuel' =>
      match cut s sep with
      | None => [s]
      | Some (a, rest) => a :: split_pieces fuel' rest sep
      end
  end.

Fixpoint chars (s : string) : list string :=
  match s with
  | EmptyString => []
  | String c s' => String c EmptyString :: chars s'
  end.

(** [s.split(sep)] and [s.split(sep, limit)]: the pieces between the
    occurrences of [sep]; an empty separator splits into characters; a
    limit keeps the first [limit] pieces and drops the others. *)
Definition split (s sep : string) (limit : option nat) : list string :=
  let pieces :=
    match sep with
    | EmptyString => chars s
    | String _ _ => split_pieces (String.length s) s sep
    end in
  match limit with
  | Some n => firstn n pieces
  | None => pieces
  end.

(** White space and line terminators, as [trim] removes them. *)
Definition is_space (c : ascii) : bool :=
  match nat_of_ascii c with
  | 9 | 10 | 11 | 12 | 13 | 32 | 160 => true
  | _ => false
  end.

Fixpoint trimStart (s : string) : string :=
  match s with
  | EmptyString => EmptyString
  | String c s' => if is_space c then trimStart s' else s
  end.

Fixpoint trimEnd (s : string) : string :=
  match s with
  | EmptyString => EmptyString
  | String c s' =>
      match trimEnd s' with
      | EmptyString => if is_space c then EmptyString else String c EmptyString
      | t => String c t
      end
  end.

(** [s.trim()] *)
Definition trim (s : string) : string := trimEnd (trimStart s).

(** [s.substring(a, b)]: both ends clamped to the string, and swapped
    when they come in the wrong order. *)
Definition substring (s : string) (a b : Z) : string :=
  let len := Z.of_nat (String.length s) in
  let a' := Z.min (Z.max a 0) len in
  let b' := Z.min (Z.max b 0) len in
  let lo := Z.min a' b' in
  let hi := Z.max a' b' in
  take (Z.to_nat (hi - lo)) (drop (Z.to_nat lo) s).

(** [s.charAt(i)]: the empty string out of range. *)
Definition charAt (s : string) (i : Z) : string :=
  if (i <? 0)%Z then EmptyString
  else take 1 (drop (Z.to_nat i) s).

Fixpoint index_from (i : nat) (s sub : string) : option nat :=
  if startsWith s sub then Some i
  else match s with
       | EmptyString => None
       | String _ s' => index_from (S i) s' sub
       end.

(** [s.indexOf(sub)]: -1 when there is none. *)
Definition indexOf (s sub : string) : Z :=
  match index_from 0 s sub with
  | Some i => Z.of_nat i
  | None => (-1)%Z
  end.

(** [array.join(sep)] *)
Definition join (sep : string) (l : list string) : string :=
  String.concat sep l.

(** the decimal notation of a number, as a template literal prints it *)
Definition of_nat (n : nat) : string :=
  NilZero.string_of_uint (Nat.to_uint n).

End Str.

(** ** Regular expressions of the host language

    The patterns of the source are built from single-character atoms,
    concatenation, a greedy star over a single-character atom and capture
    groups.  The matcher is the backtracking matcher of the language: the
    leftmost start position wins, a star tries the longest repetition
    first, and a failure of the continuation backtracks into it. *)

Module Regex.

Inductive regex : Type :=
| RChar (p : ascii -> bool)
| RSeq (r1 r2 : regex)
| RStar (p : ascii -> bool)
| RGroup (i : nat) (r : regex)
| REmpty.

(** the captures made so far, the latest first *)
Definition captures := list (nat * string).

Fixpoint lookup (i : nat) (cs : captures) : option string :=
  match cs with
  | [] => None
  | (j, s) :: cs' => if Nat.eqb i j then Some s else lookup i cs'
  end.

(** the characters of [s] read before [rest] was reached *)
Definition consumed (s rest : string) : string :=
  Str.take (String.length s - String.length rest) s.

Fixpoint star {A : Type} (p : ascii -> bool) (s : string)
         (k : string -> option A) : option A :=
  match s with
  | String c s' =>
      if p c then
        match star p s' k with
        | Some x => Some x
        | None => k s
        end
      else k s
  | EmptyString => k s
  end.

Fixpoint rmatch {A : Type} (r : regex) (s : string) (cs : captures)
         (k : string -> captures -> option A) : option A :=
  match r with
  | REmpty => k s cs
  | RChar p =>
      match s with
      | String c s' => if p c then k s' cs else None
      | EmptyString => None
      end
  | RSeq r1 r2 => rmatch r1 s cs (fun s1 c1 => rmatch r2 s1 c1 k)
  | RStar p => star p s (fun s' => k s' cs)
  | RGroup i r => rmatch r s cs (fun s' c' => k s' ((i, consumed s s') :: c'))
  end.

(** the highest group number of a pattern *)
Fixpoint ngroups (r : regex) : nat :=
  match r with
  | RChar _ | RStar _ | REmpty => 0
  | RSeq r1 r2 => Nat.max (ngroups r1) (ngroups r2)
  | RGroup i r' => Nat.max i (ngroups r')
  end.

(** A match: where it starts, the text around it, and the array the
    language returns for it (the matched text, then one entry per group,
    [None] for a group that took no part). *)
Record match_result : Type := {
  m_index : nat;
  m_before : string;
  m_groups : list (option string);
  m_after : string
}.

Definition m_text (m : match_result) : string :=
  match m_groups m with
  | Some t :: _ => t
  | _ => EmptyString
  end.

Definition match_at (r : regex) (s : string) : option (captures * string) :=
  rmatch r s [] (fun rest cs => Some (cs, rest)).

Definition groups_array (r : regex) (text : string) (cs : captures)
  : list (option string) :=
  Some text :: map (fun i => lookup i cs) (seq 1 (ngroups r)).

(** the leftmost match at or after the start of [s]; [i] and [before]
    are the position of [s] in the whole subject and the text before it *)
Fixpoint search_from (r : regex) (i : nat) (before : string) (s : string)
  : option match_result :=
  match match_at r s with
  | Some (cs, rest) =>
      Some {| m_index := i;
              m_before := before;
              m_groups := groups_array r (consumed s rest) cs;
              m_after := rest |}
  | None =>
      match s with
      | EmptyString => None
      | String c s' => search_from r (S i) (before ++ String c EmptyString) s'
      end
  end.

Definition search (r : regex) (s : string) : option match_result :=
  search_from r 0 EmptyString s.

(** [regex.test(s)] for a pattern without the global flag *)
Definition test (r : regex) (s : string) : bool :=
  match search r s with
  | Some _ => true
  | None => false
  end.

(** A replacement text: literal pieces and references [$n] to groups. *)
Inductive piece : Type :=
| Lit (s : string)
| Ref (n : nat).

Definition expand_piece (groups : list (option string)) (p : piece) : string :=
  match p with
  | Lit s => s
  | Ref n =>
      match nth n groups None with
      | Some g => g
      | None => EmptyString
      end
  end.

Definition expand (groups : list (option string)) (t : list piece) : string :=
  String.concat EmptyString (map (expand_piece groups) t).

(** [s.replace(regex, replacement)] for a pattern without the global
    flag: the first match only. *)
Definition replace (s : string) (r : regex) (t : list piece) : string :=
  match search r s with
  | Some m => m_before m ++ expand (m_groups m) t ++ m_after m
  | None => s
  end.

(** *** Atoms *)

Definition upper (c : ascii) : ascii :=
  let n := nat_of_ascii c in
  if (97 <=? n)%nat && (n <=? 122)%nat then ascii_of_nat (n - 32) else c.

(** a literal character *)
Definition chr (c : ascii) : ascii -> bool := Ascii.eqb c.

(** a literal character under the flag [i]; the characters of the
    patterns are ASCII, and only the two cases of an ASCII letter match
    it *)
Definition chr_i (c : ascii) : ascii -> bool :=
  fun a => Ascii.eqb (upper a) (upper c).

(** the dot: any character but a line terminator *)
Definition dot : ascii -> bool :=
  fun a => negb (Ascii.eqb a "010"%char || Ascii.eqb a "013"%char).

(** the class [[\$,]] *)
Definition dollar_or_comma : ascii -> bool :=
  fun a => Ascii.eqb a "$"%char || Ascii.eqb a ","%char.

(** the class [[\r\n]] *)
Definition cr_or_lf : ascii -> bool :=
  fun a => Ascii.eqb a "013"%char || Ascii.eqb a "010"%char.

Fixpoint lit (s : string) : regex :=
  match s with
  | EmptyString => REmpty
  | String c s' => RSeq (RChar (chr c)) (lit s')
  end.

Fixpoint lit_i (s : string) : regex :=
  match s with
  | EmptyString => REmpty
  | String c s' => RSeq (RChar (chr_i c)) (lit_i s')
  end.

(** [s.split(regex)] for a pattern without groups.  The language tries
    the pattern at each position in turn; a match that ends where the
    current piece starts is passed over, any other match closes the
    piece and the next piece starts at its end.  [skip] counts the
    characters of a match still to be passed. *)
Fixpoint split_from (r : regex) (skip : nat) (piece : string) (s : string)
  : list string :=
  match s with
  | EmptyString => [piece]
  | String c s' =>
      match skip with
      | S k => split_from r k piece s'
      | 0 =>
          match match_at r s with
          | Some (_, rest) =>
              match String.length s - String.length rest with
              | 0 =>
                  match piece with
                  | EmptyString => split_from r 0 (String c EmptyString) s'
                  | _ => piece :: split_from r 0 (String c EmptyString) s'
                  end
              | S k => piece :: split_from r k EmptyString s'
              end
          | None => split_from r 0 (piece ++ String c EmptyString) s'
          end
      end
  end.

Definition split (s : string) (r : regex) : list string :=
  match s with
  | EmptyString =>
      match match_at r s with
      | Some _ => []
      | None => [s]
      end
  | _ => split_from r 0 EmptyString s
  end.

(** *** A pattern object with the global flag

    Such an object carries [lastIndex]: [exec] starts there and leaves
    the end of its match there (or 0 when it fails), and [match] starts
    at 0 and leaves 0. *)

Definition exec_g (r : regex) (lastIndex : nat) (s : string)
  : option match_result * nat :=
  if (String.length s <? lastIndex)%nat then (None, 0)
  else
    match search_from r lastIndex (Str.take lastIndex s) (Str.drop lastIndex s) with
    | Some m => (Some m, m_index m + String.length (m_text m))
    | None => (None, 0)
    end.

(** [s.match(regex)] with the global flag, as far as its result is null
    or not: the first entry of the array of matches. *)
Definition match_g (r : regex) (s : string) : option string * nat :=
  match search r s with
  | Some m => (Some (m_text m), 0)
  | None => (None, 0)
  end.

End Regex.

(** ** Effects: exceptions, the logger *)

Inductive exn : Type :=
| TypeError
| SyntaxError
| Error (message : string).

Inductive completion (A : Type) : Type :=
| Normal (a : A)
| Throw (e : exn).

Arguments Normal {A} a.
Arguments Throw {A} e.

(** Modelled from the spec: [utils/log.js] is not among the sources; the
    specification has it as a logging sink.  [logger.log] and
    [logger.warn] append a message to the log, the second as a warning. *)
Inductive level : Type := Info | Warning.

Definition log_event : Type := (level * string)%type.

Definition warnings (l : list log_event) : list string :=
  map snd (filter (fun e => match fst e with Warning => true | Info => false end) l).

(** ** The rule converter *)

Module Converter.

Import Regex.

(** the module [rule/rule-masks.js], as far as the converter reads it *)
Record RuleMasks : Type := {
  MASK_ELEMENT_HIDING : string;
  MASK_ELEMENT_HIDING_EXCEPTION : string;
  MASK_CSS : string;
  MASK_CSS_EXCEPTION : string;
  MASK_CSS_EXTENDED_CSS_RULE : string;
  MASK_CSS_EXCEPTION_EXTENDED_CSS_RULE : string;
  MASK_CSS_INJECT_EXTENDED_CSS_RULE : string;
  MASK_CSS_EXCEPTION_INJECT_EXTENDED_CSS_RULE : string
}.

(** The pattern literal of the source, which has the flag [g]: group 1,
    a starred dot; the text [:style] and an opening parenthesis; group
    2, a starred dot; a closing parenthesis. *)
Definition CSS_RULE_REPLACE_PATTERN : regex :=
  RSeq (RGroup 1 (RStar dot))
    (RSeq (lit ":style(") (RSeq (RGroup 2 (RStar dot)) (lit ")"))).

(** [/([\$,])first-party/i] and [`$1~third-party`] *)
Definition FIRST_PARTY_REGEX : regex :=
  RSeq (RGroup 1 (RChar dollar_or_comma)) (lit_i "first-party").
Definition FIRST_PARTY_REPLACEMENT : list piece := [Ref 1; Lit "~third-party"].

(** [/([\$,])xhr/i] and [`$1xmlhttprequest`] *)
Definition XHR_REGEX : regex :=
  RSeq (RGroup 1 (RChar dollar_or_comma)) (lit_i "xhr").
Definition XHR_REPLACEMENT : list piece := [Ref 1; Lit "xmlhttprequest"].

(** [/([\$,])css/i] and [`$1stylesheet`] *)
Definition CSS_REGEX : regex :=
  RSeq (RGroup 1 (RChar dollar_or_comma)) (lit_i "css").
Definition CSS_REPLACEMENT : list piece := [Ref 1; Lit "stylesheet"].

(** [/([\$,])frame/i] and [`$1subdocument`] *)
Definition FRAME_REGEX : regex :=
  RSeq (RGroup 1 (RChar dollar_or_comma)) (lit_i "frame").
Definition FRAME_REPLACEMENT : list piece := [Ref 1; Lit "subdocument"].

(** What a call of [convert] can read and change: [lastIndex] of the
    pattern object [CSS_RULE_REPLACE_PATTERN], which lives as long as
    the module; the log; and the array [excluded], [None] when the
    caller passes none. *)
Record state : Type := {
  lastIndex : nat;
  log : list log_event;
  excluded : option (list string)
}.

Definition M (A : Type) : Type := state -> completion A * state.

Definition ret {A : Type} (a : A) : M A := fun st => (Normal a, st).

Definition bind {A B : Type} (c : M A) (f : A -> M B) : M B :=
  fun st =>
    match c st with
    | (Normal a, st') => f a st'
    | (Throw e, st') => (Throw e, st')
    end.

Definition throw {A : Type} (e : exn) : M A := fun st => (Throw e, st).

Notation "x <- c ;; k" := (bind c (fun x => k))
  (at level 61, c at next level, right associativity).
Notation "c ;;; k" := (bind c (fun _ => k))
  (at level 61, right associativity).

Definition logger_log (message : string) : M unit :=
  fun st => (Normal tt, {| lastIndex := lastIndex st;
                           log := log st ++ [(Info, message)];
                           excluded := excluded st |}).

Definition logger_warn (message : string) : M unit :=
  fun st => (Normal tt, {| lastIndex := lastIndex st;
                           log := log st ++ [(Warning, message)];
                           excluded := excluded st |}).

(** [if (excluded) { excluded.push(a); excluded.push(b); }] *)
Definition excluded_push2 (a b : string) : M unit :=
  fun st => (Normal tt, {| lastIndex := lastIndex st;
                           log := log st;
                           excluded := match excluded st with
                                       | Some l => Some (l ++ [a; b])%list
                                       | None => None
                                       end |}).

(** [rulePart.match(CSS_RULE_REPLACE_PATTERN)] *)
Definition pattern_match (s : string) : M (option string) :=
  fun st =>
    let (res, li) := match_g CSS_RULE_REPLACE_PATTERN s in
    (Normal res, {| lastIndex := li; log := log st; excluded := excluded st |}).

(** [CSS_RULE_REPLACE_PATTERN.exec(rulePart)] *)
Definition pattern_exec (s : string) : M (option match_result) :=
  fun st =>
    let (res, li) := exec_g CSS_RULE_REPLACE_PATTERN (lastIndex st) s in
    (Normal res, {| lastIndex := li; log := log st; excluded := excluded st |}).

(** a value inside a template literal; an absent one prints its name *)
Definition show (o : option string) : string :=
  match o with
  | Some s => s
  | None => "undefined"
  end.

Definition executeConversion (rule : string) (parts : list string)
           (ruleMark : string) : M string :=
  let result := rule in
  match nth_error parts 0 with
  | None | Some EmptyString => ret result
  | Some domain =>
      match nth_error parts 1 with
      | None => throw TypeError
      | Some rulePart =>
          matched <- pattern_match rulePart ;;
          match matched with
          | None => ret result
          | Some _ =>
              found <- pattern_exec rulePart ;;
              match found with
              | None => throw TypeError
              | Some m =>
                  let groups := m_groups m in
                  if negb (Nat.eqb (List.length groups) 3) then
                    logger_warn ("Cannot convert " ++ rule) ;;;
                    ret result
                  else
                    let result := domain ++ ruleMark in
                    let result :=
                      result ++ show (nth 1 groups None) ++ " { "
                             ++ show (nth 2 groups None) ++ " }" in
                    let message :=
                      "Rule " ++ Str.dquote ++ rule ++ Str.dquote
                              ++ " converted to: " ++ result in
                    logger_log message ;;;
                    excluded_push2 ("! " ++ message) rule ;;;
                    ret result
              end
          end
      end
  end.

(** the first part of the loop body of [convert]: the CSS injection
    conversion *)
Definition convert_style (masks : RuleMasks) (rule : string) : M string :=
  if Str.includes rule ":style" then
    if Str.includes rule (MASK_CSS_EXTENDED_CSS_RULE masks) then
      executeConversion rule
        (Str.split rule (MASK_CSS_EXTENDED_CSS_RULE masks) (Some 2))
        (MASK_CSS_INJECT_EXTENDED_CSS_RULE masks)
    else if Str.includes rule (MASK_CSS_EXCEPTION_EXTENDED_CSS_RULE masks) then
      executeConversion rule
        (Str.split rule (MASK_CSS_EXCEPTION_EXTENDED_CSS_RULE masks) (Some 2))
        (MASK_CSS_EXCEPTION_INJECT_EXTENDED_CSS_RULE masks)
    else if Str.includes rule (MASK_ELEMENT_HIDING masks) then
      executeConversion rule
        (Str.split rule (MASK_ELEMENT_HIDING masks) (Some 2))
        (MASK_CSS masks)
    else if Str.includes rule (MASK_ELEMENT_HIDING_EXCEPTION masks) then
      executeConversion rule
        (Str.split rule (MASK_ELEMENT_HIDING_EXCEPTION masks) (Some 2))
        (MASK_CSS_EXCEPTION masks)
    else ret rule
  else ret rule.

(** the second part of the loop body: the options; [result] is the
    array built so far, which the message prints *)
Definition convert_options (result : list string) (rule : string) : M string :=
  if test FIRST_PARTY_REGEX rule || test XHR_REGEX rule ||
     test CSS_REGEX rule || test FRAME_REGEX rule then
    let replacedRule :=
      replace
        (replace
           (replace
              (replace rule FIRST_PARTY_REGEX FIRST_PARTY_REPLACEMENT)
              XHR_REGEX XHR_REPLACEMENT)
           CSS_REGEX CSS_REPLACEMENT)
        FRAME_REGEX FRAME_REPLACEMENT in
    let message :=
      "Rule " ++ Str.dquote ++ rule ++ Str.dquote
              ++ " converted to: " ++ Str.join "," result in
    logger_log message ;;;
    ret replacedRule
  else ret rule.

Fixpoint convert_loop (masks : RuleMasks) (rulesList : list string)
         (result : list string) : M (list string) :=
  match rulesList with
  | [] => ret result
  | rule :: rest =>
      rule1 <- convert_style masks rule ;;
      rule2 <- convert_options result rule1 ;;
      convert_loop masks rest (result ++ [rule2])
  end.

Definition convert (masks : RuleMasks) (rulesList : list string)
  : M (list string) :=
  convert_loop masks rulesList [].

End Converter.

(** ** JSON values *)

Inductive json : Type :=
| JNull
| JBool (b : bool)
| JNumber (n : Z)
| JString (s : string)
| JArray (l : list json)
| JObject (members : list (string * json)).

Module Json.

Fixpoint assoc (key : string) (members : list (string * json)) : option json :=
  match members with
  | [] => None
  | (k, v) :: rest => if String.eqb k key then Some v else assoc key rest
  end.

(** [value.key]: reading a property of [null] throws, a value that has
    no such property gives [undefined] *)
Definition property (value : json) (key : string) : completion (option json) :=
  match value with
  | JNull => Throw TypeError
  | JObject members => Normal (assoc key members)
  | _ => Normal None
  end.

Definition truthy (value : json) : bool :=
  match value with
  | JNull => false
  | JBool b => b
  | JNumber n => negb (Z.eqb n 0)
  | JString s => negb (String.eqb s EmptyString)
  | JArray _ | JObject _ => true
  end.

Definition of_Z (n : Z) : string := NilZero.string_of_int (Z.to_int n).

(** a value inside a template literal *)
Fixpoint to_string (value : json) : string :=
  match value with
  | JNull => "null"
  | JBool true => "true"
  | JBool false => "false"
  | JNumber n => of_Z n
  | JString s => s
  | JArray l =>
      String.concat ","
        (map (fun v => match v with JNull => EmptyString | _ => to_string v end) l)
  | JObject _ => "[object Object]"
  end.

Definition show (value : option json) : string :=
  match value with
  | Some v => to_string v
  | None => "undefined"
  end.

End Json.

(** ** The compiler *)

Module Compiler.

Import Regex.

(** What the compiler takes from outside this file: the other modules
    of the repository, the libraries, and the parts of the language
    that are not modelled here. *)
Record Env : Type := {
  (** [rule/rule-masks.js] *)
  RuleMasks : Converter.RuleMasks;
  (** [path.join] *)
  path_join : string -> string -> string;
  (** [require('download-file-sync')] *)
  downloadFileSync : string -> completion (option string);
  (** [new RegExp(source)]: the test of a line against the pattern, or
      nothing when the source is no pattern and the constructor throws *)
  RegExp : string -> option (string -> bool);
  (** [JSON.parse]; nothing when it throws *)
  JSON_parse : string -> option json;
  (** [JSON.stringify(revision, null, "\t")] of a revision *)
  JSON_stringify : string -> Z -> string;
  (** [new Date(t).toDateString()] *)
  toDateString : Z -> string;
  (** [version.increment] of [utils/version.js] *)
  version_increment : json -> completion string;
  (** [utils.removeDuplicates] of [utils/utils.js] *)
  removeDuplicates : list string -> completion (list string);
  (** [validator.validate] and [validator.blacklistDomains] of
      [validator.js]; the second reads the file given to
      [validator.init] *)
  validate : list string -> completion (list string);
  blacklistDomains : option string -> list string -> completion (list string);
  (** [sorter.sort] of [sorting.js] *)
  sort : list string -> completion (list string)
}.

Definition TEMPLATE_FILE := "template.txt".
Definition FILTER_FILE := "filter.txt".
Definition REVISION_FILE := "revision.json".
Definition METADATA_FILE := "metadata.json".
Definition EXCLUDE_FILE := "exclude.txt".

(** The world of a run: the file system ([files] is what
    [fs.readFileSync] gives, [entries] what [fs.readdirSync] gives,
    [directory] what [fs.lstatSync(..).isDirectory()] gives, each
    [None] where the call throws); the clock; the variable
    [currentDir]; [lastIndex] of the converter's pattern object; the
    log and the file given to [logger.initialize]; the file given to
    [validator.init].  Writing a file changes what is read at its path
    and nothing else. *)
Record state : Type := {
  files : string -> option string;
  entries : string -> option (list string);
  directory : string -> option bool;
  clock : Z;
  currentDir : option string;
  lastIndex : nat;
  log : list log_event;
  logFile : option string;
  domainBlacklistFile : option string
}.

Definition set_files (f : string -> option string) (st : state) : state :=
  {| files := f; entries := entries st; directory := directory st;
     clock := clock st; currentDir := currentDir st;
     lastIndex := lastIndex st; log := log st; logFile := logFile st;
     domainBlacklistFile := domainBlacklistFile st |}.

Definition set_currentDir (d : option string) (st : state) : state :=
  {| files := files st; entries := entries st; directory := directory st;
     clock := clock st; currentDir := d;
     lastIndex := lastIndex st; log := log st; logFile := logFile st;
     domainBlacklistFile := domainBlacklistFile st |}.

Definition set_converter (li : nat) (l : list log_event) (st : state) : state :=
  {| files := files st; entries := entries st; directory := directory st;
     clock := clock st; currentDir := currentDir st;
     lastIndex := li; log := l; logFile := logFile st;
     domainBlacklistFile := domainBlacklistFile st |}.

Definition set_log (l : list log_event) (st : state) : state :=
  set_converter (lastIndex st) l st.

Definition set_logFile (f : option string) (st : state) : state :=
  {| files := files st; entries := entries st; directory := directory st;
     clock := clock st; currentDir := currentDir st;
     lastIndex := lastIndex st; log := log st; logFile := f;
     domainBlacklistFile := domainBlacklistFile st |}.

Definition set_domainBlacklistFile (f : option string) (st : state) : state :=
  {| files := files st; entries := entries st; directory := directory st;
     clock := clock st; currentDir := currentDir st;
     lastIndex := lastIndex st; log := log st; logFile := logFile st;
     domainBlacklistFile := f |}.

Definition M (A : Type) : Type := state -> completion A * state.

Definition ret {A : Type} (a : A) : M A := fun st => (Normal a, st).

Definition bind {A B : Type} (c : M A) (f : A -> M B) : M B :=
  fun st =>
    match c st with
    | (Normal a, st') => f a st'
    | (Throw e, st') => (Throw e, st')
    end.

Definition throw {A : Type} (e : exn) : M A := fun st => (Throw e, st).

Definition lift {A : Type} (c : completion A) : M A := fun st => (c, st).

Definition gets {A : Type} (f : state -> A) : M A := fun st => (Normal (f st), st).

Definition modify (f : state -> state) : M unit := fun st => (Normal tt, f st).

Notation "x <- c ;; k" := (bind c (fun x => k))
  (at level 61, c at next level, right associativity).
Notation "c ;;; k" := (bind c (fun _ => k))
  (at level 61, right associativity).

Definition logger_log (message : string) : M unit :=
  modify (fun st => set_log (log st ++ [(Info, message)]) st).

Definition logger_warn (message : string) : M unit :=
  modify (fun st => set_log (log st ++ [(Warning, message)]) st).

Definition update (f : string -> option string) (path data : string)
  : string -> option string :=
  fun p => if String.eqb p path then Some data else f p.

(** [readFile]: [null] when the file cannot be read *)
Definition readFile (path : string) : M (option string) :=
  gets (fun st => files st path).

Definition writeFile (path data : string) : M unit :=
  modify (fun st => set_files (update (files st) path data) st).

(** a string as a condition: [null] and the empty string are false *)
Definition nonempty (o : option string) : option string :=
  match o with
  | Some EmptyString | None => None
  | Some s => Some s
  end.

(** [path.join(currentDir, name)] *)
Definition in_currentDir (E : Env) (name : string) : M string :=
  dir <- gets currentDir ;;
  match dir with
  | Some d => ret (path_join E d name)
  | None => throw TypeError
  end.

Definition downloadFile (E : Env) (url : string) : M (option string) :=
  logger_log ("Downloading: " ++ url) ;;;
  lift (downloadFileSync E url).

(** the pattern [[\r\n]+] *)
Definition LINE_BREAKS : regex := RSeq (RChar cr_or_lf) (RStar cr_or_lf).

Definition splitLines (s : string) : list string := split s LINE_BREAKS.

Definition stripComments (lines : list string) : M (list string) :=
  logger_log "Stripping comments.." ;;;
  ret (filter (fun line => negb (Str.startsWith line "!")) lines).

Fixpoint isExcluded (E : Env) (line : string) (exclusions : list string)
  : completion bool :=
  match exclusions with
  | [] => Normal false
  | exclusion :: rest =>
      let exclusion := Str.trim exclusion in
      if negb (Str.startsWith exclusion "!") then
        if Str.startsWith exclusion "/" && Str.endsWith exclusion "/" then
          match RegExp E (Str.substring exclusion 1
                            (Z.of_nat (String.length exclusion) - 2)) with
          | None => Throw SyntaxError
          | Some matches =>
              if matches line then Normal true else isExcluded E line rest
          end
        else
          if Str.includes line exclusion then Normal true
          else isExcluded E line rest
      else isExcluded E line rest
  end.

(** [lines.filter((line) => !isExcluded(line, exclusions))] *)
Fixpoint filter_excluded (E : Env) (exclusions : list string)
         (lines : list string) : completion (list string) :=
  match lines with
  | [] => Normal []
  | line :: rest =>
      match isExcluded E line exclusions with
      | Throw e => Throw e
      | Normal b =>
          match filter_excluded E exclusions rest with
          | Throw e => Throw e
          | Normal kept => Normal (if b then kept else line :: kept)
          end
      end
  end.

Definition exclude (E : Env) (lines : list string) (exclusionsFileName : string)
  : M (list string) :=
  logger_log "Applying exclusions.." ;;;
  exclusionsFile <- in_currentDir E exclusionsFileName ;;
  exclusions <- readFile exclusionsFile ;;
  match nonempty exclusions with
  | None => ret lines
  | Some text =>
      let exclusions := splitLines text in
      result <- lift (filter_excluded E exclusions lines) ;;
      logger_log ("Excluded lines: "
                    ++ Str.of_nat (List.length lines - List.length result)) ;;;
      ret result
  end.

Definition stripEndQuotes (s : string) : string :=
  let t := Z.of_nat (String.length s) in
  let '(s, t) :=
    if String.eqb (Str.charAt s 0) Str.dquote
    then (Str.substring s 1 t, (t - 1)%Z)
    else (s, t) in
  let t := (t - 1)%Z in
  if String.eqb (Str.charAt s t) Str.dquote then Str.substring s 0 t else s.

Record include_options : Type := {
  opt_url : string;
  opt_stripComments : bool;
  opt_exclude : option string
}.

Definition parseIncludeLine (line : string) : completion include_options :=
  let parts := Str.split line " " None in
  match nth_error parts 1 with
  | None => Throw TypeError
  | Some part1 =>
      let url := stripEndQuotes (Str.trim part1) in
      let '(stripComments, exclude) :=
        fold_left
          (fun '(stripComments, exclude) part =>
             let attribute := Str.trim part in
             if Str.startsWith attribute "/stripComments" then (true, exclude)
             else if Str.startsWith attribute "/exclude=" then
               (stripComments,
                Some (stripEndQuotes
                        (Str.substring attribute
                           (Str.indexOf attribute "=" + 1)
                           (Z.of_nat (String.length attribute)))))
             else (stripComments, exclude))
          (skipn 1 parts) (false, None) in
      Normal {| opt_url := url;
                opt_stripComments := stripComments;
                opt_exclude := exclude |}
  end.

(** [converter.convert(result)], called without the array [excluded] *)
Definition converter_convert (E : Env) (rules : list string) : M (list string) :=
  fun st =>
    let (res, cst) :=
      Converter.convert (RuleMasks E) rules
        {| Converter.lastIndex := lastIndex st;
           Converter.log := log st;
           Converter.excluded := None |} in
    (res, set_converter (Converter.lastIndex cst) (Converter.log cst) st).

Definition include (E : Env) (line : string) : M (list string) :=
  options <- lift (parseIncludeLine line) ;;
  match opt_url options with
  | EmptyString =>
      logger_warn "Invalid include url" ;;;
      ret []
  | url =>
      logger_log ("Applying inclusion from: " ++ url) ;;;
      included <- (if Str.includes url ":" then downloadFile E url
                   else (path <- in_currentDir E url ;; readFile path)) ;;
      result <- match nonempty included with
                | None => ret []
                | Some text =>
                    let result := splitLines text in
                    result <- match nonempty (opt_exclude options) with
                              | Some name => exclude E result name
                              | None => ret result
                              end ;;
                    if opt_stripComments options then stripComments result
                    else ret result
                end ;;
      result <- converter_convert E result ;;
      logger_log ("Inclusion lines: " ++ Str.of_nat (List.length result)) ;;;
      ret result
  end.

(** the loop of [compile] over the lines of the template *)
Fixpoint compile_lines (E : Env) (lines : list string) (result : list string)
  : M (list string) :=
  match lines with
  | [] => ret result
  | line :: rest =>
      if Str.startsWith line "@include " then
        inc <- include E (Str.trim line) ;;
        compile_lines E rest (result ++ map Str.trim inc)
      else
        compile_lines E rest (result ++ [Str.trim line])
  end.

Definition compile (E : Env) (template : string) : M (list string) :=
  let lines := splitLines template in
  result <- compile_lines E lines [] ;;
  result <- exclude E result EXCLUDE_FILE ;;
  result <- lift (removeDuplicates E result) ;;
  result <- lift (validate E result) ;;
  blacklist <- gets domainBlacklistFile ;;
  result <- lift (blacklistDomains E blacklist result) ;;
  result <- lift (sort E result) ;;
  ret result.

Record revision : Type := {
  version : string;
  timeUpdated : Z
}.

Definition makeRevision (E : Env) (path : string) : M revision :=
  now <- gets clock ;;
  let result := {| version := "1.0.0.0"; timeUpdated := now |} in
  current <- readFile path ;;
  match nonempty current with
  | None => ret result
  | Some text =>
      match JSON_parse E text with
      | None => throw SyntaxError
      | Some p =>
          if Json.truthy p then
            v <- lift (Json.property p "version") ;;
            match v with
            | Some v' =>
                if Json.truthy v' then
                  next <- lift (version_increment E v') ;;
                  ret {| version := next; timeUpdated := now |}
                else ret result
            | None => ret result
            end
          else ret result
      end
  end.

Definition makeHeader (E : Env) (metadataFile : string) (revision : revision)
  : M (list string) :=
  logger_log "Adding header.." ;;;
  metadataString <- readFile metadataFile ;;
  match nonempty metadataString with
  | None => throw (Error "Error reading metadata")
  | Some text =>
      match JSON_parse E text with
      | None => throw SyntaxError
      | Some metadata =>
          name <- lift (Json.property metadata "name") ;;
          description <- lift (Json.property metadata "description") ;;
          expires <- lift (Json.property metadata "expires") ;;
          ret [ "! Title: " ++ Json.show name;
                "! Description: " ++ Json.show description;
                "! Version: " ++ version revision;
                "! TimeUpdated: " ++ toDateString E (timeUpdated revision);
                "! Expires: " ++ Json.show expires ++ " (update frequency)" ]
      end
  end.

Definition CRLF : string := String "013"%char (String "010"%char EmptyString).

Definition buildFilter (E : Env) (filterDir : string) : M unit :=
  modify (set_currentDir (Some filterDir)) ;;;
  templatePath <- in_currentDir E TEMPLATE_FILE ;;
  template <- readFile templatePath ;;
  match nonempty template with
  | None => throw (Error "Invalid template")
  | Some template =>
      revisionFile <- in_currentDir E REVISION_FILE ;;
      revision <- makeRevision E revisionFile ;;
      logger_log "Compiling.." ;;;
      compiled <- compile E template ;;
      logger_log ("Compiled length:" ++ Str.of_nat (List.length compiled)) ;;;
      metadataFile <- in_currentDir E METADATA_FILE ;;
      header <- makeHeader E metadataFile revision ;;
      let filter := (header ++ compiled)%list in
      logger_log ("Writing filter file, lines:"
                    ++ Str.of_nat (List.length filter)) ;;;
      filterPath <- in_currentDir E FILTER_FILE ;;
      writeFile filterPath (Str.join CRLF filter) ;;;
      logger_log "Writing revision file.." ;;;
      writeFile revisionFile
        (JSON_stringify E (version revision) (timeUpdated revision))
  end.

(** the loop of [build] over the entries of the directory *)
Fixpoint build_items (E : Env) (filtersDir : string) (items : list string)
  : M unit :=
  match items with
  | [] => ret tt
  | directory_name :: rest =>
      let filterDir := path_join E filtersDir directory_name in
      isDir <- (fun st => match directory st filterDir with
                          | Some b => (Normal b, st)
                          | None => (Throw (Error "lstat"), st)
                          end) ;;
      (if isDir : bool then
         logger_log ("Building filter: " ++ directory_name) ;;;
         buildFilter E filterDir ;;;
         logger_log ("Building filter: " ++ directory_name ++ " ok")
       else ret tt) ;;;
      build_items E filtersDir rest
  end.

Definition build (E : Env) (filtersDir logFile domainBlacklistFile : string)
  : M unit :=
  modify (set_logFile (Some logFile)) ;;;
  modify (set_domainBlacklistFile (Some domainBlacklistFile)) ;;;
  items <- (fun st => match entries st filtersDir with
                      | Some l => (Normal l, st)
                      | None => (Throw (Error "readdir"), st)
                      end) ;;
  build_items E filtersDir items.

End Compiler.

(** ** The masks of the rule dialects *)

(** Modelled from the spec: [rule/rule-masks.js] is not among the sources.
    The masks of element hiding and of CSS injection are those of the
    examples of the specification and of the comment above [convert]
    ([##] becomes [#$#], [#@#] becomes [#@$#]); the four masks of
    extended CSS are the markers of that rule syntax. *)
Definition rule_masks : Converter.RuleMasks :=
  {| Converter.MASK_ELEMENT_HIDING := "##";
     Converter.MASK_ELEMENT_HIDING_EXCEPTION := "#@#";
     Converter.MASK_CSS := "#$#";
     Converter.MASK_CSS_EXCEPTION := "#@$#";
     Converter.MASK_CSS_EXTENDED_CSS_RULE := "#?#";
     Converter.MASK_CSS_EXCEPTION_EXTENDED_CSS_RULE := "#@?#";
     Converter.MASK_CSS_INJECT_EXTENDED_CSS_RULE := "#$?#";
     Converter.MASK_CSS_EXCEPTION_INJECT_EXTENDED_CSS_RULE := "#@$?#" |}.

(** ** Notions used by the statements *)

Module Spec.

Import Regex Converter.

(** the state of the converter when the module is loaded *)
Definition initial (excluded : option (list string)) : Converter.state :=
  {| lastIndex := 0; log := []; excluded := excluded |}.

(** the value a computation of the converter returns *)
Definition value {A : Type} (r : completion A * Converter.state) : completion A :=
  fst r.

(** the words of a pattern: the texts it matches from end to end *)
Fixpoint all_chars (p : ascii -> bool) (w : string) : bool :=
  match w with
  | EmptyString => true
  | String c w' => p c && all_chars p w'
  end.

Fixpoint lang (r : regex) (w : string) : Prop :=
  match r with
  | RChar p => exists c, w = String c EmptyString /\ p c = true
  | RSeq r1 r2 => exists w1 w2, w = w1 ++ w2 /\ lang r1 w1 /\ lang r2 w2
  | RStar p => all_chars p w = true
  | RGroup _ r' => lang r' w
  | REmpty => w = EmptyString
  end.

(** the mask the chain of tests of [convert] settles on, with the mask
    it is replaced by *)
Definition matched_mask (masks : RuleMasks) (rule : string)
  : option (string * string) :=
  if Str.includes rule (MASK_CSS_EXTENDED_CSS_RULE masks) then
    Some (MASK_CSS_EXTENDED_CSS_RULE masks, MASK_CSS_INJECT_EXTENDED_CSS_RULE masks)
  else if Str.includes rule (MASK_CSS_EXCEPTION_EXTENDED_CSS_RULE masks) then
    Some (MASK_CSS_EXCEPTION_EXTENDED_CSS_RULE masks,
          MASK_CSS_EXCEPTION_INJECT_EXTENDED_CSS_RULE masks)
  else if Str.includes rule (MASK_ELEMENT_HIDING masks) then
    Some (MASK_ELEMENT_HIDING masks, MASK_CSS masks)
  else if Str.includes rule (MASK_ELEMENT_HIDING_EXCEPTION masks) then
    Some (MASK_ELEMENT_HIDING_EXCEPTION masks, MASK_CSS_EXCEPTION masks)
  else None.

(** what the first part of the loop body makes of a rule *)
Definition injected (masks : RuleMasks) (rule : string) : string :=
  match value (convert_style masks rule (initial None)) with
  | Normal r => r
  | Throw _ => rule
  end.

(** what the second part of the loop body makes of a rule *)
Definition rewritten_options (rule : string) : string :=
  match value (convert_options [] rule (initial None)) with
  | Normal r => r
  | Throw _ => rule
  end.

(** what [convert] makes of one rule on its own *)
Definition converted (masks : RuleMasks) (rule : string) : string :=
  match value (convert masks [rule] (initial None)) with
  | Normal [r] => r
  | _ => rule
  end.

(** a text that the flag [i] lets a token match *)
Fixpoint starts_i (s token : string) : bool :=
  match token, s with
  | EmptyString, _ => true
  | String _ _, EmptyString => false
  | String t token', String c s' => chr_i t c && starts_i s' token'
  end.

(** the places of a rule where a token follows [$] or [,] *)
Fixpoint occurrences (token : string) (s : string) : nat :=
  match s with
  | EmptyString => 0
  | String c s' =>
      (if dollar_or_comma c && starts_i s' token then 1 else 0)
      + occurrences token s'
  end.

(** the pattern of an option token, and the four tokens with what
    replaces them *)
Definition option_regex (token : string) : regex :=
  RSeq (RGroup 1 (RChar dollar_or_comma)) (lit_i token).

Definition option_tokens : list (string * string) :=
  [ ("first-party", "~third-party");
    ("xhr", "xmlhttprequest");
    ("css", "stylesheet");
    ("frame", "subdocument") ].

(** a text without [$] and [,] *)
Definition plain (w : string) : bool :=
  all_chars (fun c => negb (dollar_or_comma c)) w.

(** a token none of whose characters matches [$] or [,] under the flag
    [i] *)
Definition clean (token : string) : bool :=
  all_chars (fun t => negb (chr_i t "$" || chr_i t ",")) token.

(** two tokens that one text can match at the same place, as far as the
    shorter goes *)
Fixpoint compatible (a b : string) : bool :=
  match a, b with
  | String x a', String y b' => Ascii.eqb (upper x) (upper y) && compatible a' b'
  | _, _ => true
  end.

(** the four patterns of the source with their replacements, each beside
    its token and the token that replaces it *)
Definition option_rewrites : list (regex * list piece * string * string) :=
  [ (FIRST_PARTY_REGEX, FIRST_PARTY_REPLACEMENT, "first-party", "~third-party");
    (XHR_REGEX, XHR_REPLACEMENT, "xhr", "xmlhttprequest");
    (CSS_REGEX, CSS_REPLACEMENT, "css", "stylesheet");
    (FRAME_REGEX, FRAME_REPLACEMENT, "frame", "subdocument") ].

(** the first occurrence of a token rewritten, the rest of the text kept *)
Fixpoint rewrite_first (token canonical : string) (s : string) : string :=
  match s with
  | EmptyString => EmptyString
  | String c s' =>
      if dollar_or_comma c && starts_i s' token
      then String c (canonical ++ Str.drop (String.length token) s')
      else String c (rewrite_first token canonical s')
  end.

(** a directory whose build cannot succeed: no template, or no metadata,
    or metadata that [JSON.parse] rejects or reads as [null] *)
Definition fatal (E : Compiler.Env) (dir : string) (st : Compiler.state) : Prop :=
  Compiler.nonempty
    (Compiler.files st (Compiler.path_join E dir Compiler.TEMPLATE_FILE)) = None \/
  Compiler.nonempty
    (Compiler.files st (Compiler.path_join E dir Compiler.METADATA_FILE)) = None \/
  exists text : string,
    Compiler.nonempty
      (Compiler.files st (Compiler.path_join E dir Compiler.METADATA_FILE))
    = Some text /\
    (Compiler.JSON_parse E text = None \/ Compiler.JSON_parse E text = Some JNull).

(** An environment for the examples: paths joined with a slash, no
    network, patterns without special characters (read as plain text),
    a parser that knows the one metadata text of the examples, and
    collaborators that return their input. *)
Definition example_env : Compiler.Env :=
  {| Compiler.RuleMasks := rule_masks;
     Compiler.path_join := fun dir name => dir ++ "/" ++ name;
     Compiler.downloadFileSync := fun _ => Normal None;
     Compiler.RegExp := fun source => Some (fun line => Str.includes line source);
     Compiler.JSON_parse :=
       fun text =>
         if String.eqb text "{}" then Some (JObject []) else None;
     Compiler.JSON_stringify := fun version _ => version;
     Compiler.toDateString := fun _ => "Thu Jan 01 1970";
     Compiler.version_increment := fun _ => Normal "1.0.0.1";
     Compiler.removeDuplicates := fun lines => Normal lines;
     Compiler.validate := fun lines => Normal lines;
     Compiler.blacklistDomains := fun _ lines => Normal lines;
     Compiler.sort := fun lines => Normal lines |}.

(** a file system given by the list of its files *)
Fixpoint files_of (l : list (string * string)) (path : string) : option string :=
  match l with
  | [] => None
  | (p, data) :: rest => if String.eqb p path then Some data else files_of rest path
  end.

Definition example_state (files : list (string * string))
           (dirs : list (string * list string)) (currentDir : option string)
  : Compiler.state :=
  {| Compiler.files := files_of files;
     Compiler.entries :=
       fun path =>
         match find (fun d => String.eqb (fst d) path) dirs with
         | Some d => Some (snd d)
         | None => None
         end;
     Compiler.directory :=
       fun path =>
         match files_of files path with
         | Some _ => Some false
         | None => Some true
         end;
     Compiler.clock := 0;
     Compiler.currentDir := currentDir;
     Compiler.lastIndex := 0;
     Compiler.log := [];
     Compiler.logFile := None;
     Compiler.domainBlacklistFile := None |}.

(** *** What a computation of the compiler leaves alone *)

(** a computation that writes no file and does not move to another
    directory *)
Definition keeps {A : Type} (c : Compiler.M A) : Prop :=
  forall (st : Compiler.state) (r : completion A) (st' : Compiler.state),
    c st = (r, st') ->
    Compiler.files st' = Compiler.files st /\
    Compiler.currentDir st' = Compiler.currentDir st.

(** a computation that writes no file *)
Definition keeps_files {A : Type} (c : Compiler.M A) : Prop :=
  forall (st : Compiler.state) (r : completion A) (st' : Compiler.state),
    c st = (r, st') -> Compiler.files st' = Compiler.files st.

(** a computation that has written no file when it throws *)
Definition quiet_throw {A : Type} (c : Compiler.M A) : Prop :=
  forall (st : Compiler.state) (e : exn) (st' : Compiler.state),
    c st = (Throw e, st') -> Compiler.files st' = Compiler.files st.

(** a computation that throws from every state with the given files
    and the given directory *)
Definition doomed {A : Type} (F : string -> option string) (D : option string)
           (c : Compiler.M A) : Prop :=
  forall st : Compiler.state,
    Compiler.files st = F -> Compiler.currentDir st = D ->
    exists e st', c st = (Throw e, st').

(** *** Lines *)

(** the number of characters at the start of a text that a class holds *)
Fixpoint leading (p : ascii -> bool) (s : string) : nat :=
  match s with
  | String c s' => if p c then S (leading p s') else 0
  | EmptyString => 0
  end.

(** a text without a carriage return and without a line feed *)
Definition line_text (s : string) : bool :=
  all_chars (fun c => negb (cr_or_lf c)) s.

(** a text of carriage returns and line feeds *)
Definition break_text (s : string) : bool := all_chars cr_or_lf s.

(** a text that [trim] leaves as it is *)
Definition trimmed (s : string) : Prop := Str.trim s = s.

(** the two ways in which [isExcluded] does not let a line through: it
    returns true, or it throws on an entry that is no pattern *)
Definition dropped (r : completion bool) : Prop :=
  r = Normal true \/ r = Throw SyntaxError.


(** what [convert] hands to the array [excluded] for one rule *)
Definition reported (masks : RuleMasks) (rule : string) : list string :=
  match excluded (snd (convert masks [rule] (initial (Some [])))) with
  | Some l => l
  | None => []
  end.

End Spec.

(** * Properties *)

(** ** Strings *)

Module StrFacts.

Import Str.

Lemma app_nil_r (s : string) : s ++ "" = s.
Proof. induction s as [|c s IH]; simpl; [reflexivity | now rewrite IH]. Qed.

Lemma app_assoc (a b c : string) : (a ++ b) ++ c = a ++ b ++ c.
Proof. induction a as [|x a IH]; simpl; [reflexivity | now rewrite IH]. Qed.

Lemma length_app (a b : string) :
  String.length (a ++ b) = String.length a + String.length b.
Proof. induction a as [|x a IH]; simpl; [reflexivity | now rewrite IH]. Qed.

Lemma app_cons (c : ascii) (a b : string) : String c a ++ b = String c (a ++ b).
Proof. reflexivity. Qed.

Lemma app_inv_head (a b c : string) : a ++ b = a ++ c -> b = c.
Proof.
  induction a as [|x a IH]; simpl; intros H; [assumption|].
  injection H as H. now apply IH.
Qed.

Lemma drop_app (a b : string) : drop (String.length a) (a ++ b) = b.
Proof. induction a as [|x a IH]; simpl; [now destruct b | assumption]. Qed.

Lemma drop_app_length (n : nat) (a b : string) :
  String.length a = n -> drop n (a ++ b) = b.
Proof. intros <-. apply drop_app. Qed.

Lemma take_app (a b : string) : take (String.length a) (a ++ b) = a.
Proof.
  induction a as [|x a IH]; simpl; [now destruct b | now rewrite IH].
Qed.

Lemma take_app_le (n : nat) (a b : string) :
  n <= String.length a -> take n (a ++ b) = take n a.
Proof.
  revert a; induction n as [|n IH]; intros a H.
  - reflexivity.
  - destruct a as [|c a]; cbn in H; [lia|]. cbn. f_equal. apply IH. lia.
Qed.

Lemma endsWith_app (a p : string) : endsWith (a ++ p) p = true.
Proof.
  unfold endsWith. rewrite length_app.
  replace (String.length a + String.length p - String.length p)
    with (String.length a) by lia.
  rewrite drop_app, String.eqb_refl.
  apply andb_true_iff. split; [|reflexivity]. apply Nat.leb_le. lia.
Qed.

(** the text between two positions of a string, taken in order *)
Lemma substring_range (s : string) (a b : nat) :
  a <= b -> b <= String.length s ->
  substring s (Z.of_nat a) (Z.of_nat b) = take (b - a) (drop a s).
Proof.
  intros Hab Hb. unfold substring.
  rewrite (Z.max_l (Z.of_nat a) 0), (Z.max_l (Z.of_nat b) 0) by lia.
  rewrite (Z.min_l (Z.of_nat a)), (Z.min_l (Z.of_nat b)) by lia.
  rewrite (Z.min_l (Z.of_nat a) (Z.of_nat b)), (Z.max_r (Z.of_nat a) (Z.of_nat b))
    by lia.
  rewrite <- Nat2Z.inj_sub, !Nat2Z.id by lia. reflexivity.
Qed.

Lemma take_drop (n : nat) (s : string) : take n s ++ drop n s = s.
Proof.
  revert s; induction n as [|n IH]; intros [|c s]; simpl; try reflexivity.
  now rewrite IH.
Qed.

Lemma drop_0 (s : string) : drop 0 s = s.
Proof. now destruct s. Qed.

Lemma take_0 (s : string) : take 0 s = "".
Proof. now destruct s. Qed.

Lemma startsWith_nil (s : string) : startsWith s "" = true.
Proof. now destruct s. Qed.

Lemma startsWith_app (p s : string) : startsWith (p ++ s) p = true.
Proof.
  induction p as [|c p IH]; simpl; [apply startsWith_nil|].
  now rewrite Ascii.eqb_refl, IH.
Qed.

Lemma startsWith_split (s p : string) :
  startsWith s p = true -> s = p ++ drop (String.length p) s.
Proof.
  revert s; induction p as [|c p IH]; intros s H.
  - simpl. now rewrite ?drop_0.
  - destruct s as [|d s]; simpl in H; [discriminate|].
    apply andb_true_iff in H as [Hc Hp].
    apply Ascii.eqb_eq in Hc; subst d. simpl. f_equal. now apply IH.
Qed.

Lemma includes_startsWith (s sub : string) :
  startsWith s sub = true -> includes s sub = true.
Proof. intros H. destruct s; cbn [includes]; now rewrite H. Qed.

Lemma includes_app (a sep b : string) : includes (a ++ sep ++ b) sep = true.
Proof.
  induction a as [|c a IH].
  - change ("" ++ sep ++ b) with (sep ++ b).
    apply includes_startsWith, startsWith_app.
  - rewrite app_cons. cbn [includes]. rewrite IH. apply orb_true_r.
Qed.

Lemma cut_some (s sep a b : string) :
  cut s sep = Some (a, b) -> s = a ++ sep ++ b.
Proof.
  revert a b; induction s as [|c s IH]; intros a b H.
  - cbn [cut] in H. destruct (startsWith "" sep) eqn:E; [|discriminate].
    injection H as <- <-. now apply startsWith_split.
  - cbn [cut] in H. destruct (startsWith (String c s) sep) eqn:E.
    + injection H as <- <-. now apply startsWith_split.
    + destruct (cut s sep) as [[a' b']|] eqn:E'; [|discriminate].
      injection H as <- <-. simpl. f_equal. now apply IH.
Qed.

Lemma cut_includes (s sep : string) :
  includes s sep = true -> exists a b, cut s sep = Some (a, b).
Proof.
  induction s as [|c s IH]; intros H.
  - cbn [includes] in H. rewrite orb_false_r in H. cbn [cut]. rewrite H. eauto.
  - cbn [includes] in H. cbn [cut].
    destruct (startsWith (String c s) sep) eqn:E; [eauto|].
    simpl in H. destruct (IH H) as (a & b & Hab). rewrite Hab. eauto.
Qed.

Lemma cut_none (s sep : string) :
  includes s sep = false -> cut s sep = None.
Proof.
  induction s as [|c s IH]; intros H.
  - cbn [includes] in H. rewrite orb_false_r in H. cbn [cut]. now rewrite H.
  - cbn [includes] in H. apply orb_false_iff in H as [H1 H2].
    cbn [cut]. rewrite H1. now rewrite (IH H2).
Qed.

(** the first piece of a cut does not start with the separator unless it
    is empty: the cut is at the first occurrence *)
Lemma cut_startsWith (s sep : string) :
  startsWith s sep = true -> cut s sep = Some ("", drop (String.length sep) s).
Proof. intros H. destruct s; cbn [cut]; now rewrite H. Qed.

(** A rule that includes a separator splits in two pieces at least; with
    the limit 2, in two pieces exactly, and the second is a part of the
    rule. *)
Lemma split_two (s sep : string) :
  includes s sep = true -> 2 <= String.length s ->
  exists domain rulePart,
    split s sep (Some 2) = [domain; rulePart] /\
    exists u v, s = u ++ rulePart ++ v.
Proof.
  intros H Hlen. unfold split. destruct sep as [|x sep].
  - destruct s as [|c [|d s]]; simpl in Hlen; try lia.
    exists (String c ""), (String d ""). split; [reflexivity|].
    now exists (String c ""), s.
  - destruct (cut_includes _ _ H) as (a & b & Hab).
    destruct s as [|c s]; [simpl in Hlen; lia|].
    cbn [String.length split_pieces]. rewrite Hab.
    cbn [String.length] in Hlen.
    destruct (String.length s) as [|n]; [lia|].
    apply cut_some in Hab. rewrite Hab.
    cbn [split_pieces]. destruct (cut b (String x sep)) as [[a' b']|] eqn:Hb.
    + apply cut_some in Hb. subst b.
      exists a, a'. split; [reflexivity|].
      exists (a ++ String x sep), (String x sep ++ b'). now rewrite !app_assoc.
    + exists a, b. split; [reflexivity|].
      exists (a ++ String x sep), "". now rewrite app_nil_r, app_assoc.
Qed.

Lemma split_first (s sep : string) :
  sep <> "" -> startsWith s sep = true ->
  nth_error (split s sep (Some 2)) 0 = Some "".
Proof.
  intros Hsep H. unfold split. destruct sep as [|x sep]; [congruence|].
  destruct s as [|c s]; [simpl in H; discriminate|].
  cbn [String.length split_pieces]. rewrite (cut_startsWith _ _ H). reflexivity.
Qed.

Lemma includes_length (s sub : string) :
  includes s sub = true -> String.length sub <= String.length s.
Proof.
  intros H. destruct (cut_includes _ _ H) as (a & b & Hab).
  apply cut_some in Hab. subst s. rewrite !length_app. lia.
Qed.

End StrFacts.

(** ** The matcher and the words of a pattern *)

Module RegexFacts.

Import Str Regex Spec StrFacts.

Lemma consumed_app (w rest : string) : consumed (w ++ rest) rest = w.
Proof.
  unfold consumed. rewrite length_app.
  replace (String.length w + String.length rest - String.length rest)
    with (String.length w) by lia.
  apply take_app.
Qed.

Lemma star_sound {A : Type} (p : ascii -> bool) (s : string)
      (k : string -> option A) (v : A) :
  star p s k = Some v ->
  exists w rest, s = w ++ rest /\ all_chars p w = true /\ k rest = Some v.
Proof.
  induction s as [|c s IH]; cbn [star]; intros H.
  - exists "", "". auto.
  - destruct (p c) eqn:Hc.
    + destruct (star p s k) as [x|] eqn:Hs.
      * injection H as ->. destruct (IH eq_refl) as (w & rest & -> & Hw & Hk).
        exists (String c w), rest. cbn [all_chars]. rewrite Hc, Hw. auto.
      * exists "", (String c s). auto.
    + exists "", (String c s). auto.
Qed.

Lemma star_complete {A : Type} (p : ascii -> bool) (w rest : string)
      (k : string -> option A) :
  all_chars p w = true -> k rest <> None -> star p (w ++ rest) k <> None.
Proof.
  induction w as [|c w IH]; intros Hw Hk.
  - change ("" ++ rest) with rest. destruct rest as [|d rest]; cbn [star]; auto.
    destruct (p d); auto. destruct (star p rest k); [discriminate | auto].
  - cbn [all_chars] in Hw. apply andb_true_iff in Hw as [Hc Hw].
    rewrite app_cons. cbn [star]. rewrite Hc.
    specialize (IH Hw Hk). destruct (star p (w ++ rest) k); [discriminate | auto].
Qed.

Lemma rmatch_sound (r : regex) :
  forall (A : Type) (s : string) (cs : captures)
         (k : string -> captures -> option A) (v : A),
    rmatch r s cs k = Some v ->
    exists w rest cs', s = w ++ rest /\ lang r w /\ k rest cs' = Some v.
Proof.
  induction r as [p | r1 IH1 r2 IH2 | p | i r IH | ]; intros A s cs k v H;
    cbn [rmatch] in H.
  - destruct s as [|c s]; [discriminate|].
    destruct (p c) eqn:Hc; [|discriminate].
    exists (String c ""), s, cs. cbn [lang]. repeat split; eauto.
  - apply IH1 in H as (w1 & rest1 & cs1 & -> & L1 & H).
    apply IH2 in H as (w2 & rest & cs2 & -> & L2 & H).
    exists (w1 ++ w2), rest, cs2. rewrite app_assoc. cbn [lang].
    repeat split; eauto.
  - apply star_sound in H as (w & rest & -> & Hw & H).
    exists w, rest, cs. repeat split; auto.
  - apply IH in H as (w & rest & cs' & -> & L & H).
    exists w, rest, ((i, consumed (w ++ rest) rest) :: cs'). repeat split; auto.
  - exists "", s, cs. repeat split; auto.
Qed.

Lemma rmatch_complete (r : regex) :
  forall (A : Type) (w rest : string) (cs : captures)
         (k : string -> captures -> option A),
    lang r w -> (forall cs', k rest cs' <> None) ->
    rmatch r (w ++ rest) cs k <> None.
Proof.
  induction r as [p | r1 IH1 r2 IH2 | p | i r IH | ]; intros A w rest cs k L Hk;
    cbn [rmatch]; cbn [lang] in L.
  - destruct L as (c & -> & Hc). cbn. rewrite Hc. apply Hk.
  - destruct L as (w1 & w2 & -> & L1 & L2). rewrite app_assoc.
    apply IH1; [assumption|]. intros cs1. now apply IH2.
  - apply star_complete; [assumption | apply Hk].
  - apply IH; [assumption|]. intros cs'. apply Hk.
  - subst w. apply Hk.
Qed.

Lemma match_at_sound (r : regex) (s rest : string) (cs : captures) :
  match_at r s = Some (cs, rest) -> exists w, s = w ++ rest /\ lang r w.
Proof.
  unfold match_at. intros H.
  apply rmatch_sound in H as (w & rest' & cs' & -> & L & H).
  injection H as -> ->. eauto.
Qed.

Lemma match_at_complete (r : regex) (w rest : string) :
  lang r w -> match_at r (w ++ rest) <> None.
Proof.
  intros L. unfold match_at. apply rmatch_complete; [assumption | discriminate].
Qed.

Lemma found_ok (r : regex) (s rest : string) (cs : captures)
      (i : nat) (before : string) :
  match_at r s = Some (cs, rest) ->
  let m := {| m_index := i; m_before := before;
              m_groups := groups_array r (consumed s rest) cs;
              m_after := rest |} in
  before ++ s = m_before m ++ m_text m ++ m_after m /\
  lang r (m_text m) /\
  List.length (m_groups m) = S (ngroups r).
Proof.
  intros E. apply match_at_sound in E as (w & -> & L).
  unfold m_text; cbn. rewrite consumed_app. repeat split; auto.
  now rewrite length_map, length_seq.
Qed.

(** A match found by the search splits the subject in the text before,
    a word of the pattern and the text after; its array has one entry
    for the word and one for each group. *)
Lemma search_from_some (r : regex) (s : string) :
  forall (i : nat) (before : string) (m : match_result),
    search_from r i before s = Some m ->
    before ++ s = m_before m ++ m_text m ++ m_after m /\
    lang r (m_text m) /\
    List.length (m_groups m) = S (ngroups r).
Proof.
  induction s as [|c s IH]; intros i before m H; cbn [search_from] in H.
  - destruct (match_at r "") as [[cs rest]|] eqn:E; [|discriminate].
    injection H as <-. now apply found_ok.
  - destruct (match_at r (String c s)) as [[cs rest]|] eqn:E.
    + injection H as <-. now apply found_ok.
    + apply IH in H as (H1 & H2 & H3). rewrite app_assoc in H1. auto.
Qed.

Lemma search_from_complete (r : regex) (a w b : string) :
  lang r w ->
  forall (i : nat) (before : string),
    search_from r i before (a ++ w ++ b) <> None.
Proof.
  intros L. induction a as [|c a IH]; intros i before.
  - change ("" ++ w ++ b) with (w ++ b).
    pose proof (match_at_complete r w b L) as Hm.
    destruct (w ++ b) eqn:E; cbn [search_from];
      destruct (match_at r _) as [[cs rest]|]; congruence.
  - rewrite app_cons. cbn [search_from].
    destruct (match_at r _) as [[cs rest]|]; [discriminate | apply IH].
Qed.

(** A pattern is found in a text exactly when the text holds one of
    its words. *)
Lemma test_iff (r : regex) (s : string) :
  test r s = true <-> exists a w b, s = a ++ w ++ b /\ lang r w.
Proof.
  unfold test, search. split.
  - destruct (search_from r 0 "" s) as [m|] eqn:E; [|discriminate]. intros _.
    apply search_from_some in E as (E & L & _).
    exists (m_before m), (m_text m), (m_after m). auto.
  - intros (a & w & b & -> & L).
    pose proof (search_from_complete r a w b L 0 "") as H.
    destruct (search_from r 0 "" (a ++ w ++ b)); congruence.
Qed.

(** What is found in a part of a text is found in the text. *)
Lemma test_part (r : regex) (u s v : string) :
  test r s = true -> test r (u ++ s ++ v) = true.
Proof.
  intros H. apply test_iff in H as (a & w & b & -> & L).
  apply test_iff. exists (u ++ a), w, (b ++ v).
  split; [|assumption]. now rewrite !app_assoc.
Qed.

Lemma test_search (r : regex) (s : string) :
  test r s = false <-> search r s = None.
Proof.
  unfold test. destruct (search r s); split; congruence.
Qed.

End RegexFacts.

(** ** The converter, one rule at a time *)

Module ConverterFacts.

Import Str Regex Converter Spec StrFacts RegexFacts.

Lemma pattern_groups (s : string) (m : match_result) :
  search CSS_RULE_REPLACE_PATTERN s = Some m -> List.length (m_groups m) = 3.
Proof. intros H. now apply search_from_some in H as (_ & _ & H). Qed.

(** [executeConversion] on the two pieces of a rule, run: with an empty
    domain it does nothing at all; without a match of the pattern it
    returns the rule and leaves [lastIndex] at 0; with a match it builds
    the rule of the other dialect, logs it and reports it in [excluded]. *)
Lemma executeConversion_run (rule domain rulePart ruleMark : string) (st : state) :
  executeConversion rule [domain; rulePart] ruleMark st =
  match domain with
  | EmptyString => (Normal rule, st)
  | _ =>
      match search CSS_RULE_REPLACE_PATTERN rulePart with
      | None =>
          (Normal rule,
           {| lastIndex := 0; log := log st; excluded := excluded st |})
      | Some m =>
          let result :=
            domain ++ ruleMark ++ show (nth 1 (m_groups m) None) ++ " { "
                   ++ show (nth 2 (m_groups m) None) ++ " }" in
          let message :=
            "Rule " ++ dquote ++ rule ++ dquote ++ " converted to: " ++ result in
          (Normal result,
           {| lastIndex := m_index m + String.length (m_text m);
              log := (log st ++ [(Info, message)])%list;
              excluded := match excluded st with
                          | Some l => Some (l ++ [("! " ++ message)%string; rule])%list
                          | None => None
                          end |})
      end
  end.
Proof.
  destruct domain as [|c domain]; [reflexivity|].
  unfold executeConversion. cbn [nth_error].
  unfold bind at 1. unfold pattern_match, match_g.
  destruct (search CSS_RULE_REPLACE_PATTERN rulePart) as [m|] eqn:E; [|reflexivity].
  unfold bind at 1. unfold pattern_exec, exec_g. cbn [lastIndex].
  change (String.length rulePart <? 0)%nat with false. cbv iota.
  rewrite take_0, drop_0. fold (search CSS_RULE_REPLACE_PATTERN rulePart).
  rewrite E. rewrite (pattern_groups _ E). cbn [Nat.eqb negb].
  rewrite <- !app_assoc. reflexivity.
Qed.

Lemma matched_mask_includes (masks : RuleMasks) (rule mask mark : string) :
  matched_mask masks rule = Some (mask, mark) -> includes rule mask = true.
Proof.
  unfold matched_mask. intros H.
  repeat match type of H with
         | (if includes ?r ?m then _ else _) = _ =>
             let E := fresh "E" in destruct (includes r m) eqn:E
         end; try discriminate; injection H as <- <-; assumption.
Qed.

Lemma convert_style_matched (masks : RuleMasks) (rule : string) :
  convert_style masks rule =
  if includes rule ":style" then
    match matched_mask masks rule with
    | Some (mask, mark) => executeConversion rule (Str.split rule mask (Some 2)) mark
    | None => ret rule
    end
  else ret rule.
Proof.
  unfold convert_style, matched_mask.
  destruct (includes rule ":style"); [|reflexivity].
  repeat match goal with
         | |- context [if includes ?r ?m then _ else _] => destruct (includes r m)
         end; reflexivity.
Qed.

Lemma style_rule_length (rule : string) :
  includes rule ":style" = true -> 2 <= String.length rule.
Proof. intros H. apply includes_length in H. simpl in H. lia. Qed.

(** The first part of the loop body never throws, and what it returns
    depends on the rule alone, not on the state it finds. *)
Lemma convert_style_total (masks : RuleMasks) (rule : string) :
  exists r, forall st, exists st', convert_style masks rule st = (Normal r, st').
Proof.
  rewrite convert_style_matched.
  destruct (includes rule ":style") eqn:Hs; [|exists rule; intros st; now exists st].
  destruct (matched_mask masks rule) as [[mask mark]|] eqn:Hm;
    [|exists rule; intros st; now exists st].
  destruct (split_two rule mask (matched_mask_includes _ _ Hm) (style_rule_length _ Hs))
    as (domain & rulePart & -> & _).
  destruct domain as [|c domain].
  - exists rule. intros st. rewrite executeConversion_run. now exists st.
  - destruct (search CSS_RULE_REPLACE_PATTERN rulePart) as [m|] eqn:E.
    + eexists. intros st. rewrite executeConversion_run, E. eexists. reflexivity.
    + exists rule. intros st. rewrite executeConversion_run, E. eexists. reflexivity.
Qed.

Lemma convert_style_value (masks : RuleMasks) (rule : string) (st : state) :
  exists st', convert_style masks rule st = (Normal (injected masks rule), st').
Proof.
  destruct (convert_style_total masks rule) as (r & Hr).
  unfold injected, value. destruct (Hr (initial None)) as (st0 & ->).
  apply Hr.
Qed.

Lemma convert_options_value (result : list string) (rule : string) (st : state) :
  exists st',
    convert_options result rule st = (Normal (rewritten_options rule), st').
Proof.
  unfold rewritten_options, value, convert_options.
  destruct (test FIRST_PARTY_REGEX rule || test XHR_REGEX rule
            || test CSS_REGEX rule || test FRAME_REGEX rule);
    cbn; eexists; reflexivity.
Qed.

Lemma converted_eq (masks : RuleMasks) (rule : string) :
  converted masks rule = rewritten_options (injected masks rule).
Proof.
  unfold converted, value, convert. cbn [convert_loop]. unfold bind.
  destruct (convert_style_value masks rule (initial None)) as (st1 & ->).
  destruct (convert_options_value [] (injected masks rule) st1) as (st2 & ->).
  reflexivity.
Qed.

Lemma convert_loop_map (masks : RuleMasks) (rulesList : list string) :
  forall (result : list string) (st : state),
  exists st',
    convert_loop masks rulesList result st
    = (Normal (result ++ map (converted masks) rulesList)%list, st').
Proof.
  induction rulesList as [|rule rest IH]; intros result st; cbn [convert_loop map].
  - exists st. now rewrite List.app_nil_r.
  - unfold bind.
    destruct (convert_style_value masks rule st) as (st1 & ->).
    destruct (convert_options_value result (injected masks rule) st1) as (st2 & ->).
    destruct (IH (result ++ [rewritten_options (injected masks rule)])%list st2)
      as (st3 & ->).
    exists st3. rewrite converted_eq, <- List.app_assoc. reflexivity.
Qed.

(** A rule without [:style], or without any of the masks, or in which the
    pattern of the conversion finds nothing, goes through the first part
    of the loop body as it is. *)
Lemma injected_unchanged (masks : RuleMasks) (rule : string) :
  includes rule ":style" = false \/
  matched_mask masks rule = None \/
  test CSS_RULE_REPLACE_PATTERN rule = false ->
  injected masks rule = rule.
Proof.
  intros H. unfold injected, value. rewrite convert_style_matched.
  destruct (includes rule ":style") eqn:Hs; [|reflexivity].
  destruct (matched_mask masks rule) as [[mask mark]|] eqn:Hm; [|reflexivity].
  destruct H as [H | [H | H]]; try discriminate.
  destruct (split_two rule mask (matched_mask_includes _ _ Hm) (style_rule_length _ Hs))
    as (domain & rulePart & -> & u & v & Hpart).
  rewrite executeConversion_run. destruct domain as [|c domain]; [reflexivity|].
  destruct (search CSS_RULE_REPLACE_PATTERN rulePart) as [m|] eqn:E; [|reflexivity].
  exfalso. assert (Ht : test CSS_RULE_REPLACE_PATTERN rulePart = true)
    by (unfold test; now rewrite E).
  apply (test_part _ u _ v) in Ht. rewrite <- Hpart in Ht. congruence.
Qed.

Lemma rewritten_options_unchanged (rule : string) :
  test FIRST_PARTY_REGEX rule = false -> test XHR_REGEX rule = false ->
  test CSS_REGEX rule = false -> test FRAME_REGEX rule = false ->
  rewritten_options rule = rule.
Proof.
  intros H1 H2 H3 H4. unfold rewritten_options, value, convert_options.
  now rewrite H1, H2, H3, H4.
Qed.

End ConverterFacts.

(** ** The patterns of the options *)

Module OptionFacts.

Import Str Regex Converter Spec StrFacts RegexFacts.

Lemma delimiter_cases (c : ascii) :
  dollar_or_comma c = true -> c = "$"%char \/ c = ","%char.
Proof.
  unfold dollar_or_comma. intros H. apply orb_true_iff in H as [H | H];
    apply Ascii.eqb_eq in H; auto.
Qed.

Lemma clean_char (t c : ascii) :
  negb (chr_i t "$" || chr_i t ",") = true -> chr_i t c = true ->
  dollar_or_comma c = false.
Proof.
  intros Ht Hc. destruct (dollar_or_comma c) eqn:E; [|reflexivity].
  apply delimiter_cases in E as [-> | ->]; rewrite Hc in Ht;
    [discriminate | now rewrite orb_true_r in Ht].
Qed.

Lemma ngroups_lit_i (token : string) : ngroups (lit_i token) = 0.
Proof. induction token as [|t token IH]; cbn; [reflexivity | now rewrite IH]. Qed.

Lemma rmatch_lit_i {A : Type} (token : string) :
  forall (s : string) (cs : captures) (k : string -> captures -> option A),
    rmatch (lit_i token) s cs k
    = if starts_i s token then k (drop (String.length token) s) cs else None.
Proof.
  induction token as [|t token IH]; intros s cs k.
  - now destruct s.
  - cbn [lit_i rmatch]. destruct s as [|c s]; [reflexivity|].
    cbn [starts_i String.length drop]. destruct (chr_i t c); [apply IH | reflexivity].
Qed.

Lemma match_at_option (token : string) (c : ascii) (s : string) :
  match_at (option_regex token) (String c s)
  = if dollar_or_comma c && starts_i s token
    then Some ([(1, String c "")], drop (String.length token) s)
    else None.
Proof.
  unfold match_at, option_regex. cbn [rmatch].
  destruct (dollar_or_comma c); [|reflexivity].
  rewrite rmatch_lit_i. cbn [andb]. destruct (starts_i s token); [|reflexivity].
  unfold consumed. cbn [String.length].
  replace (S (String.length s) - String.length s) with 1 by lia.
  cbn [take]. now rewrite ?take_0.
Qed.

Lemma match_at_option_nil (token : string) : match_at (option_regex token) "" = None.
Proof. reflexivity. Qed.

Lemma search_option (token canonical : string) (s : string) :
  forall (i : nat) (before : string),
    match search_from (option_regex token) i before s with
    | Some m => m_before m ++ expand (m_groups m) [Ref 1; Lit canonical] ++ m_after m
    | None => before ++ s
    end
    = before ++ rewrite_first token canonical s.
Proof.
  induction s as [|c s IH]; intros i before.
  - reflexivity.
  - cbn [search_from rewrite_first]. rewrite match_at_option.
    destruct (dollar_or_comma c && starts_i s token).
    + cbn [m_before m_groups m_after]. unfold groups_array, option_regex.
      cbn [ngroups]. rewrite ngroups_lit_i. cbn. reflexivity.
    + cbv iota.
      replace (before ++ String c s) with ((before ++ String c "") ++ s)
        by now rewrite app_assoc.
      rewrite IH, app_assoc. reflexivity.
Qed.

(** Replacing by the pattern of a token rewrites its first occurrence. *)
Lemma replace_option (token canonical : string) (s : string) :
  replace s (option_regex token) [Ref 1; Lit canonical]
  = rewrite_first token canonical s.
Proof.
  unfold replace, search. apply (search_option token canonical s 0 "").
Qed.

Lemma search_option_none (token : string) (s : string) :
  forall (i : nat) (before : string),
    search_from (option_regex token) i before s = None <-> occurrences token s = 0.
Proof.
  induction s as [|c s IH]; intros i before.
  - split; reflexivity.
  - cbn [search_from occurrences]. rewrite match_at_option.
    destruct (dollar_or_comma c && starts_i s token).
    + split; intros H; [discriminate | cbn in H; lia].
    + cbn [Nat.add]. apply IH.
Qed.

(** The pattern of a token finds something exactly where the token
    occurs. *)
Lemma test_option (token : string) (s : string) :
  test (option_regex token) s = false <-> occurrences token s = 0.
Proof.
  rewrite test_search. apply search_option_none.
Qed.

Lemma rewrite_first_none (token canonical : string) (s : string) :
  occurrences token s = 0 -> rewrite_first token canonical s = s.
Proof.
  induction s as [|c s IH]; [reflexivity|]. cbn [occurrences rewrite_first].
  destruct (dollar_or_comma c && starts_i s token); [cbn; lia|].
  cbn [Nat.add]. intros H. now rewrite IH.
Qed.

Lemma starts_i_nil (s : string) : starts_i s "" = true.
Proof. now destruct s. Qed.

(** A text that matches a clean token holds no delimiter where it
    matches, so nothing is rewritten there. *)
Lemma starts_i_rewrite (token : string) (other canonical : string) :
  clean token = true ->
  forall s, starts_i (rewrite_first other canonical s) token = starts_i s token.
Proof.
  induction token as [|t token IH]; intros Hc s.
  - now rewrite !starts_i_nil.
  - cbn [clean all_chars] in Hc. apply andb_true_iff in Hc as [Ht Hc].
    destruct s as [|c s]; [reflexivity|]. cbn [rewrite_first].
    destruct (chr_i t c) eqn:E.
    + rewrite (clean_char _ _ Ht E). cbn [andb starts_i]. rewrite E.
      cbn [andb]. now apply IH.
    + destruct (dollar_or_comma c && starts_i s other); cbn [starts_i];
        now rewrite E.
Qed.

Lemma occurrences_skip (token other : string) :
  clean token = true ->
  forall s, starts_i s token = true ->
            occurrences other s = occurrences other (drop (String.length token) s).
Proof.
  induction token as [|t token IH]; intros Hc s Hs.
  - cbn. now rewrite ?drop_0.
  - cbn [clean all_chars] in Hc. apply andb_true_iff in Hc as [Ht Hc].
    destruct s as [|c s]; [discriminate|]. cbn [starts_i] in Hs.
    apply andb_true_iff in Hs as [E Hs].
    cbn [occurrences String.length drop]. rewrite (clean_char _ _ Ht E).
    cbn [andb Nat.add]. now apply IH.
Qed.

Lemma rewrite_first_skip (token other canonical : string) :
  clean token = true ->
  forall s, starts_i s token = true ->
            rewrite_first other canonical s
            = take (String.length token) s
                   ++ rewrite_first other canonical (drop (String.length token) s).
Proof.
  induction token as [|t token IH]; intros Hc s Hs.
  - cbn. now rewrite ?take_0, ?drop_0.
  - cbn [clean all_chars] in Hc. apply andb_true_iff in Hc as [Ht Hc].
    destruct s as [|c s]; [discriminate|]. cbn [starts_i] in Hs.
    apply andb_true_iff in Hs as [E Hs].
    cbn [rewrite_first String.length drop take]. rewrite (clean_char _ _ Ht E).
    cbn [andb]. rewrite app_cons. f_equal. now apply IH.
Qed.

Lemma starts_i_length (token : string) :
  forall s, starts_i s token = true ->
            String.length (take (String.length token) s) = String.length token.
Proof.
  induction token as [|t token IH]; intros s Hs.
  - cbn. now rewrite ?take_0.
  - destruct s as [|c s]; [discriminate|]. cbn [starts_i] in Hs.
    apply andb_true_iff in Hs as [_ Hs]. cbn. now rewrite IH.
Qed.

Lemma starts_i_conflict (a b : string) :
  forall s, starts_i s a = true -> starts_i s b = true -> compatible a b = true.
Proof.
  revert b; induction a as [|x a IH]; intros b s Ha Hb; [reflexivity|].
  destruct b as [|y b]; [reflexivity|].
  destruct s as [|c s]; [discriminate|]. cbn [starts_i] in Ha, Hb.
  apply andb_true_iff in Ha as [Ex Ha]. apply andb_true_iff in Hb as [Ey Hb].
  cbn [compatible]. rewrite (IH _ _ Ha Hb), andb_true_r.
  unfold chr_i in Ex, Ey. apply Ascii.eqb_eq in Ex, Ey.
  apply Ascii.eqb_eq. congruence.
Qed.

Lemma starts_i_app_compatible (w token : string) :
  forall x, starts_i (w ++ x) token = true -> compatible w token = true.
Proof.
  revert token; induction w as [|c w IH]; intros token x H; [reflexivity|].
  destruct token as [|t token]; [reflexivity|].
  rewrite app_cons in H. cbn [starts_i] in H.
  apply andb_true_iff in H as [E H]. cbn [compatible].
  rewrite (IH _ _ H), andb_true_r. exact E.
Qed.

Lemma starts_i_app (tok token post : string) :
  starts_i tok token = true -> starts_i (tok ++ post) token = true.
Proof.
  revert tok; induction token as [|t token IH]; intros tok H.
  - apply starts_i_nil.
  - destruct tok as [|c tok]; [discriminate|]. cbn [starts_i] in H.
    apply andb_true_iff in H as [E H]. rewrite app_cons. cbn [starts_i].
    rewrite E. cbn [andb]. now apply IH.
Qed.

Lemma occurrences_plain (token w x : string) :
  plain w = true -> occurrences token (w ++ x) = occurrences token x.
Proof.
  induction w as [|c w IH]; intros H; [reflexivity|].
  cbn [plain all_chars] in H. apply andb_true_iff in H as [Hc H].
  rewrite app_cons. cbn [occurrences].
  apply negb_true_iff in Hc. rewrite Hc. cbn [andb Nat.add]. now apply IH.
Qed.

Lemma rewrite_first_plain (token canonical w x : string) :
  plain w = true ->
  rewrite_first token canonical (w ++ x) = w ++ rewrite_first token canonical x.
Proof.
  induction w as [|c w IH]; intros H; [reflexivity|].
  cbn [plain all_chars] in H. apply andb_true_iff in H as [Hc H].
  rewrite !app_cons. cbn [rewrite_first].
  apply negb_true_iff in Hc. rewrite Hc. cbn [andb]. now rewrite IH.
Qed.

(** A token that is rewritten is not there any more: one occurrence
    less. *)
Lemma occurrences_rewritten (token canonical : string) :
  clean token = true -> plain canonical = true ->
  compatible canonical token = false ->
  forall s, occurrences token (rewrite_first token canonical s)
            = pred (occurrences token s).
Proof.
  intros Hc Hp Hx. induction s as [|c s IH]; [reflexivity|].
  cbn [rewrite_first occurrences].
  destruct (dollar_or_comma c && starts_i s token) eqn:E.
  - apply andb_true_iff in E as [Ed Es]. cbn [occurrences].
    destruct (starts_i (canonical ++ drop (String.length token) s) token) eqn:E'.
    + apply starts_i_app_compatible in E'. congruence.
    + rewrite andb_false_r. cbn [Nat.add pred].
      rewrite (occurrences_plain _ _ _ Hp).
      symmetry. now apply occurrences_skip.
  - cbn [occurrences]. rewrite (starts_i_rewrite _ _ _ Hc), E. cbn [Nat.add].
    exact IH.
Qed.

(** Rewriting a token leaves the occurrences of another token alone. *)
Lemma occurrences_other (token canonical other : string) :
  clean token = true -> clean other = true -> plain canonical = true ->
  compatible canonical other = false -> compatible token other = false ->
  forall s, occurrences other (rewrite_first token canonical s)
            = occurrences other s.
Proof.
  intros Hc Ho Hp Hx Hy. induction s as [|c s IH]; [reflexivity|].
  cbn [rewrite_first occurrences].
  destruct (dollar_or_comma c && starts_i s token) eqn:E.
  - apply andb_true_iff in E as [Ed Es]. cbn [occurrences].
    destruct (starts_i (canonical ++ drop (String.length token) s) other) eqn:E'.
    { apply starts_i_app_compatible in E'. congruence. }
    destruct (starts_i s other) eqn:E''.
    { pose proof (starts_i_conflict _ _ _ Es E''). congruence. }
    rewrite !andb_false_r. cbn [Nat.add].
    rewrite (occurrences_plain _ _ _ Hp).
    symmetry. now apply occurrences_skip.
  - cbn [occurrences]. rewrite (starts_i_rewrite _ _ _ Ho). now rewrite IH.
Qed.

Lemma starts_i_before_delimiter (token : string) (d : ascii) (x : string) :
  clean token = true -> dollar_or_comma d = true ->
  forall p, starts_i (p ++ String d x) token = starts_i p token.
Proof.
  intros Hc Hd. induction token as [|t token IH]; intros p.
  - now rewrite !starts_i_nil.
  - cbn [clean all_chars] in Hc. apply andb_true_iff in Hc as [Ht Hc].
    destruct p as [|c p].
    + cbn. destruct (chr_i t d) eqn:E; [|reflexivity].
      rewrite (clean_char _ _ Ht E) in Hd. discriminate.
    + rewrite app_cons. cbn [starts_i]. now rewrite IH.
Qed.

(** The first occurrence of a token, in any case of its letters, is
    replaced by the canonical token; the delimiter before it and the text
    around it stay. *)
Lemma rewrite_first_at (token canonical : string) (d : ascii)
      (pre tok post : string) :
  clean token = true -> dollar_or_comma d = true ->
  occurrences token pre = 0 ->
  starts_i tok token = true -> String.length tok = String.length token ->
  rewrite_first token canonical (pre ++ String d (tok ++ post))
  = pre ++ String d (canonical ++ post).
Proof.
  intros Hc Hd Hpre Ht Hl. induction pre as [|c pre IH].
  - cbn [append rewrite_first]. rewrite Hd, (starts_i_app _ _ _ Ht).
    cbn [andb]. now rewrite <- Hl, drop_app.
  - cbn [occurrences] in Hpre. rewrite !app_cons. cbn [rewrite_first].
    rewrite (starts_i_before_delimiter _ _ _ Hc Hd).
    destruct (dollar_or_comma c && starts_i pre token); [cbn in Hpre; lia|].
    cbn [Nat.add] in Hpre. now rewrite IH.
Qed.

(** Where a token has been rewritten, and another token did not occur,
    the rewriting of the other token changes nothing. *)
Lemma rewrite_first_other_none (token canonical other canonical' : string)
      (d : ascii) (pre tok post : string) :
  clean token = true -> clean other = true -> plain canonical = true ->
  compatible canonical other = false -> compatible token other = false ->
  dollar_or_comma d = true ->
  occurrences token pre = 0 ->
  starts_i tok token = true -> String.length tok = String.length token ->
  occurrences other (pre ++ String d (tok ++ post)) = 0 ->
  rewrite_first other canonical' (pre ++ String d (canonical ++ post))
  = pre ++ String d (canonical ++ post).
Proof.
  intros Hc Ho Hp Hx Hy Hd Hpre Ht Hl H0. apply rewrite_first_none.
  rewrite <- (rewrite_first_at token canonical d pre tok post) by assumption.
  rewrite occurrences_other; assumption.
Qed.

(** Two rewritings of different tokens can be done in either order. *)
Lemma rewrite_first_comm (a ca b cb : string) :
  clean a = true -> clean b = true -> plain ca = true -> plain cb = true ->
  compatible ca b = false -> compatible cb a = false ->
  compatible a b = false ->
  forall s, rewrite_first a ca (rewrite_first b cb s)
            = rewrite_first b cb (rewrite_first a ca s).
Proof.
  intros Ha Hb Hca Hcb Hxb Hxa Hab. induction s as [|c s IH]; [reflexivity|].
  cbn [rewrite_first].
  destruct (dollar_or_comma c) eqn:Ed; cbn [andb];
    [|cbn [rewrite_first]; rewrite Ed; cbn [andb]; now rewrite IH].
  destruct (starts_i s a) eqn:Ea; destruct (starts_i s b) eqn:Eb.
  - pose proof (starts_i_conflict _ _ _ Ea Eb). congruence.
  - cbn [rewrite_first]. rewrite Ed, (starts_i_rewrite _ b cb Ha), Ea. cbn [andb].
    destruct (starts_i (ca ++ drop (String.length a) s) b) eqn:E.
    { apply starts_i_app_compatible in E. congruence. }
    f_equal. rewrite (rewrite_first_plain _ _ _ _ Hca). f_equal.
    rewrite (rewrite_first_skip _ b cb Ha _ Ea).
    rewrite drop_app_length; [reflexivity | now apply starts_i_length].
  - cbn [rewrite_first]. rewrite Ed, (starts_i_rewrite _ a ca Hb), Eb. cbn [andb].
    destruct (starts_i (cb ++ drop (String.length b) s) a) eqn:E.
    { apply starts_i_app_compatible in E. congruence. }
    f_equal. rewrite (rewrite_first_plain _ _ _ _ Hcb). f_equal.
    rewrite (rewrite_first_skip _ a ca Hb _ Eb).
    rewrite drop_app_length; [reflexivity | now apply starts_i_length].
  - cbn [rewrite_first].
    rewrite Ed, (starts_i_rewrite _ a ca Hb), (starts_i_rewrite _ b cb Ha), Ea, Eb.
    cbn [andb]. now rewrite IH.
Qed.

(** The four replacements of [convert], whether the guard before them
    finds a token or not. *)
Lemma rewritten_options_chain (rule : string) :
  rewritten_options rule
  = rewrite_first "frame" "subdocument"
      (rewrite_first "css" "stylesheet"
         (rewrite_first "xhr" "xmlhttprequest"
            (rewrite_first "first-party" "~third-party" rule))).
Proof.
  unfold rewritten_options, value, convert_options.
  change FIRST_PARTY_REGEX with (option_regex "first-party").
  change XHR_REGEX with (option_regex "xhr").
  change CSS_REGEX with (option_regex "css").
  change FRAME_REGEX with (option_regex "frame").
  unfold FIRST_PARTY_REPLACEMENT, XHR_REPLACEMENT, CSS_REPLACEMENT,
    FRAME_REPLACEMENT.
  destruct (test (option_regex "first-party") rule) eqn:E1;
    [cbn; now rewrite !replace_option|].
  destruct (test (option_regex "xhr") rule) eqn:E2;
    [cbn; now rewrite !replace_option|].
  destruct (test (option_regex "css") rule) eqn:E3;
    [cbn; now rewrite !replace_option|].
  destruct (test (option_regex "frame") rule) eqn:E4;
    [cbn; now rewrite !replace_option|].
  cbn. apply test_option in E1, E2, E3, E4.
  rewrite (rewrite_first_none _ "~third-party" _ E1).
  rewrite (rewrite_first_none _ "xmlhttprequest" _ E2).
  rewrite (rewrite_first_none _ "stylesheet" _ E3).
  now rewrite (rewrite_first_none _ "subdocument" _ E4).
Qed.

End OptionFacts.

(** ** The compiler *)

Module CompilerFacts.

Import Compiler.
Import Spec (keeps, keeps_files, quiet_throw, doomed).

(** *** What a computation leaves alone *)

Lemma keeps_ret {A : Type} (a : A) : keeps (ret a).
Proof. intros st r st' H. injection H as <- <-. auto. Qed.

Lemma keeps_throw {A : Type} (e : exn) : keeps (@throw A e).
Proof. intros st r st' H. injection H as <- <-. auto. Qed.

Lemma keeps_lift {A : Type} (c : completion A) : keeps (lift c).
Proof. intros st r st' H. injection H as <- <-. auto. Qed.

Lemma keeps_gets {A : Type} (f : state -> A) : keeps (gets f).
Proof. intros st r st' H. injection H as <- <-. auto. Qed.

Lemma keeps_bind {A B : Type} (c : M A) (f : A -> M B) :
  keeps c -> (forall a, keeps (f a)) -> keeps (bind c f).
Proof.
  intros Hc Hf st r st' H. unfold bind in H.
  destruct (c st) as [[a|e] st1] eqn:E; apply Hc in E as [E1 E2].
  - apply Hf in H as [H1 H2]. split; congruence.
  - injection H as <- <-. auto.
Qed.

Lemma keeps_logger_log (message : string) : keeps (logger_log message).
Proof. intros st r st' H. injection H as <- <-. auto. Qed.

Lemma keeps_logger_warn (message : string) : keeps (logger_warn message).
Proof. intros st r st' H. injection H as <- <-. auto. Qed.

Lemma keeps_readFile (path : string) : keeps (readFile path).
Proof. apply keeps_gets. Qed.

Lemma keeps_in_currentDir (E : Env) (name : string) : keeps (in_currentDir E name).
Proof.
  apply keeps_bind; [apply keeps_gets|]. intros [d|];
    [apply keeps_ret | apply keeps_throw].
Qed.

Lemma keeps_converter_convert (E : Env) (rules : list string) :
  keeps (converter_convert E rules).
Proof.
  intros st r st' H. unfold converter_convert in H.
  destruct (Converter.convert _ _ _) as [res cst]. injection H as <- <-. auto.
Qed.

Create HintDb keeps.

#[local] Hint Resolve keeps_ret keeps_throw keeps_lift keeps_gets
  keeps_logger_log keeps_logger_warn keeps_readFile keeps_in_currentDir
  keeps_converter_convert : keeps.

Ltac keeps_step :=
  match goal with
  | |- keeps (bind _ _) => apply keeps_bind; [|intros ?]
  | |- keeps (match ?x with _ => _ end) => destruct x
  | |- keeps (if ?x then _ else _) => destruct x
  | |- keeps _ => solve [auto with keeps]
  end.

Lemma keeps_exclude (E : Env) (lines : list string) (name : string) :
  keeps (exclude E lines name).
Proof. unfold exclude. repeat keeps_step. Qed.

Lemma keeps_stripComments (lines : list string) : keeps (stripComments lines).
Proof. unfold stripComments. repeat keeps_step. Qed.

Lemma keeps_downloadFile (E : Env) (url : string) : keeps (downloadFile E url).
Proof. unfold downloadFile. repeat keeps_step. Qed.

#[local] Hint Resolve keeps_exclude keeps_stripComments keeps_downloadFile : keeps.

Lemma keeps_include (E : Env) (line : string) : keeps (include E line).
Proof. unfold include. repeat keeps_step. Qed.

#[local] Hint Resolve keeps_include : keeps.

Lemma keeps_compile_lines (E : Env) (lines : list string) :
  forall result, keeps (compile_lines E lines result).
Proof.
  induction lines as [|line rest IH]; intros result; cbn [compile_lines].
  - apply keeps_ret.
  - destruct (Str.startsWith line "@include "); [|apply IH].
    apply keeps_bind; [apply keeps_include | intros inc; apply IH].
Qed.

#[local] Hint Resolve keeps_compile_lines : keeps.

Lemma keeps_compile (E : Env) (template : string) : keeps (compile E template).
Proof. unfold compile. repeat keeps_step. Qed.

Lemma keeps_makeRevision (E : Env) (path : string) : keeps (makeRevision E path).
Proof. unfold makeRevision. repeat keeps_step. Qed.

Lemma keeps_makeHeader (E : Env) (path : string) (r : revision) :
  keeps (makeHeader E path r).
Proof. unfold makeHeader. repeat keeps_step. Qed.

(** *** The loop of [compile] *)

Lemma compile_lines_app (E : Env) (before after : list string) :
  forall (result : list string) (st : state),
    compile_lines E (before ++ after) result st
    = bind (compile_lines E before result)
           (fun r => compile_lines E after r) st.
Proof.
  induction before as [|line rest IH]; intros result st.
  - reflexivity.
  - cbn [List.app compile_lines].
    destruct (Str.startsWith line "@include "); [|apply IH].
    unfold bind in *. destruct (include E (Str.trim line) st) as [[inc|e] st1];
      [apply IH | reflexivity].
Qed.

(** *** The exclusions *)

Lemma exclude_run (E : Env) (lines : list string) (name : string) (st : state) :
  exclude E lines name st
  = let st1 := set_log (log st ++ [(Info, "Applying exclusions..")]) st in
    match currentDir st with
    | None => (Throw TypeError, st1)
    | Some dir =>
        match nonempty (files st (path_join E dir name)) with
        | None => (Normal lines, st1)
        | Some text =>
            match filter_excluded E (splitLines text) lines with
            | Throw e => (Throw e, st1)
            | Normal result =>
                (Normal result,
                 set_log (log st1
                            ++ [(Info,
                                 ("Excluded lines: "
                                    ++ Str.of_nat (List.length lines
                                                   - List.length result))%string)])
                         st1)
            end
        end
    end.
Proof.
  unfold exclude, bind, in_currentDir, logger_log, modify, gets, readFile, bind.
  cbn. destruct (currentDir st) as [dir|]; [|reflexivity].
  cbn. destruct (nonempty (files st (path_join E dir name))); [|reflexivity].
  unfold lift. destruct (filter_excluded E _ lines); reflexivity.
Qed.

Lemma filter_excluded_kept (E : Env) (exclusions : list string) :
  forall lines kept : list string,
    filter_excluded E exclusions lines = Normal kept ->
    filter_excluded E exclusions kept = Normal kept.
Proof.
  induction lines as [|line rest IH]; intros kept H; cbn [filter_excluded] in H.
  - now injection H as <-.
  - destruct (isExcluded E line exclusions) as [b|e] eqn:Eb; [|discriminate].
    destruct (filter_excluded E exclusions rest) as [kept'|e] eqn:Ek; [|discriminate].
    injection H as <-. specialize (IH kept' eq_refl).
    destruct b; [assumption|]. cbn [filter_excluded]. now rewrite Eb, IH.
Qed.

(** An entry between slashes, with a body that is not empty: the pattern
    that [isExcluded] builds is the body without its last character. *)
Lemma isExcluded_slashed (E : Env) (line body : string) (rest : list string) :
  body <> "" ->
  Str.trim ("/" ++ body ++ "/") = "/" ++ body ++ "/" ->
  isExcluded E line (("/" ++ body ++ "/") :: rest)
  = match RegExp E (Str.take (String.length body - 1) body) with
    | None => Throw SyntaxError
    | Some matches => if matches line then Normal true else isExcluded E line rest
    end.
Proof.
  intros Hbody Htrim. cbn [isExcluded]. cbv zeta. rewrite Htrim.
  change ("/" ++ body ++ "/") with (String "/" (body ++ "/")).
  change (Str.startsWith (String "/" (body ++ "/")) "!") with false.
  cbn [negb].
  replace (Str.startsWith (String "/" (body ++ "/")) "/") with true
    by (cbn; now rewrite StrFacts.startsWith_nil).
  replace (Str.endsWith (String "/" (body ++ "/")) "/") with true
    by (symmetry; apply (StrFacts.endsWith_app (String "/" body) "/")).
  cbn [andb].
  assert (Hlen : 1 <= String.length body) by (destruct body; cbn; [congruence | lia]).
  replace (Z.of_nat (String.length (String "/" (body ++ "/"))) - 2)%Z
    with (Z.of_nat (String.length body))
    by (cbn [String.length]; rewrite StrFacts.length_app;
        cbn [String.length]; lia).
  change 1%Z with (Z.of_nat 1).
  rewrite (@StrFacts.substring_range (String "/" (body ++ "/")) 1 (String.length body))
    by (cbn [String.length]; rewrite ?StrFacts.length_app;
        cbn [String.length]; lia).
  cbn [Str.drop]. rewrite ?StrFacts.drop_0.
  rewrite StrFacts.take_app_le by lia. reflexivity.
Qed.

(** *** The build of a directory *)

Lemma keeps_keeps_files {A : Type} (c : M A) : keeps c -> keeps_files c.
Proof. intros H st r st' E. now apply H in E. Qed.

Lemma keeps_files_quiet {A : Type} (c : M A) : keeps_files c -> quiet_throw c.
Proof. intros H st e st' E. now apply H in E. Qed.

Lemma quiet_bind {A B : Type} (c : M A) (f : A -> M B) :
  keeps_files c -> (forall a, quiet_throw (f a)) -> quiet_throw (bind c f).
Proof.
  intros Hc Hf st e st' H. unfold bind in H.
  destruct (c st) as [[a|e1] st1] eqn:E; apply Hc in E.
  - apply Hf in H. congruence.
  - injection H as <- <-. exact E.
Qed.

Lemma quiet_writes (p1 d1 m p2 d2 : string) :
  quiet_throw (writeFile p1 d1 ;;; logger_log m ;;; writeFile p2 d2).
Proof. intros st e st' H. discriminate. Qed.

Lemma quiet_buildFilter (E : Env) (filterDir : string) :
  quiet_throw (buildFilter E filterDir).
Proof.
  unfold buildFilter.
  apply quiet_bind; [intros st r st' H; now injection H as <- <-|]. intros _.
  repeat first
    [ apply quiet_writes
    | apply quiet_bind;
      [ apply keeps_keeps_files;
        first [ apply keeps_compile | apply keeps_makeRevision
              | apply keeps_makeHeader | auto with keeps ]
      | intros ? ]
    | match goal with
      | |- quiet_throw (match ?x with _ => _ end) => destruct x
      end
    | apply keeps_files_quiet, keeps_keeps_files, keeps_throw ].
Qed.

Lemma doomed_bind {A B : Type} (F : string -> option string) (D : option string)
      (c : M A) (f : A -> M B) :
  keeps c -> (forall a, doomed F D (f a)) -> doomed F D (bind c f).
Proof.
  intros Hc Hf st HF HD. unfold bind.
  destruct (c st) as [[a|e] st1] eqn:E; [|eauto].
  apply Hc in E as [E1 E2]. apply Hf; congruence.
Qed.

Lemma doomed_first {A B : Type} (F : string -> option string) (D : option string)
      (c : M A) (f : A -> M B) :
  doomed F D c -> doomed F D (bind c f).
Proof.
  intros Hc st HF HD. unfold bind.
  destruct (Hc st HF HD) as (e & st' & ->). eauto.
Qed.

Lemma doomed_in_currentDir {B : Type} (E : Env) (F : string -> option string)
      (d name : string) (f : string -> M B) :
  doomed F (Some d) (f (path_join E d name)) ->
  doomed F (Some d) (bind (in_currentDir E name) f).
Proof.
  intros Hf st HF HD. unfold bind, in_currentDir, gets, bind. rewrite HD. cbn.
  now apply Hf.
Qed.

Lemma doomed_readFile {B : Type} (F : string -> option string) (D : option string)
      (path : string) (f : option string -> M B) :
  doomed F D (f (F path)) -> doomed F D (bind (readFile path) f).
Proof.
  intros Hf st HF HD. unfold bind, readFile, gets. rewrite HF. now apply Hf.
Qed.

Lemma doomed_throw {A : Type} (F : string -> option string) (D : option string)
      (e : exn) : doomed F D (@throw A e).
Proof. intros st _ _. unfold throw. eauto. Qed.

Lemma doomed_makeHeader (E : Env) (F : string -> option string) (D : option string)
      (path : string) (r : revision) :
  nonempty (F path) = None \/
  (exists text, nonempty (F path) = Some text /\
                (JSON_parse E text = None \/ JSON_parse E text = Some JNull)) ->
  doomed F D (makeHeader E path r).
Proof.
  intros H. unfold makeHeader.
  apply doomed_bind; [apply keeps_logger_log|]. intros _.
  apply doomed_readFile.
  destruct H as [-> | (text & -> & [-> | ->])]; apply doomed_throw.
Qed.

(** A directory without template or with metadata that cannot be read
    is not built: [buildFilter] throws. *)
Lemma buildFilter_fatal (E : Env) (filterDir : string) (st : state) :
  Spec.fatal E filterDir st ->
  exists e st', buildFilter E filterDir st = (Throw e, st').
Proof.
  intros H. unfold buildFilter. unfold bind at 1. cbn [modify].
  assert (Hd : doomed (files st) (Some filterDir)
                 (templatePath <- in_currentDir E TEMPLATE_FILE ;;
                  template <- readFile templatePath ;;
                  match nonempty template with
                  | None => throw (Error "Invalid template")
                  | Some template =>
                      revisionFile <- in_currentDir E REVISION_FILE ;;
                      revision <- makeRevision E revisionFile ;;
                      logger_log "Compiling.." ;;;
                      compiled <- compile E template ;;
                      logger_log ("Compiled length:"
                                    ++ Str.of_nat (List.length compiled)) ;;;
                      metadataFile <- in_currentDir E METADATA_FILE ;;
                      header <- makeHeader E metadataFile revision ;;
                      let filter := (header ++ compiled)%list in
                      logger_log ("Writing filter file, lines:"
                                    ++ Str.of_nat (List.length filter)) ;;;
                      filterPath <- in_currentDir E FILTER_FILE ;;
                      writeFile filterPath (Str.join CRLF filter) ;;;
                      logger_log "Writing revision file.." ;;;
                      writeFile revisionFile
                        (JSON_stringify E (version revision)
                           (timeUpdated revision))
                  end)).
  { apply doomed_in_currentDir, doomed_readFile.
    destruct (nonempty (files st (path_join E filterDir TEMPLATE_FILE)))
      as [template|] eqn:Ht; [|apply doomed_throw].
    destruct H as [H | H]; [congruence|].
    apply doomed_in_currentDir.
    apply doomed_bind; [apply keeps_makeRevision|]. intros revision.
    apply doomed_bind; [apply keeps_logger_log|]. intros _.
    apply doomed_bind; [apply keeps_compile|]. intros compiled.
    apply doomed_bind; [apply keeps_logger_log|]. intros _.
    apply doomed_in_currentDir.
    apply doomed_first, doomed_makeHeader. exact H. }
  apply Hd; reflexivity.
Qed.

(** *** The batch *)

Lemma bind_assoc {A B C : Type} (c : M A) (f : A -> M B) (g : B -> M C)
      (st : state) :
  bind (bind c f) g st = bind c (fun a => bind (f a) g) st.
Proof. unfold bind. now destruct (c st) as [[a|e] st1]. Qed.

Lemma bind_ext {A B : Type} (c : M A) (f g : A -> M B) (st : state) :
  (forall a st', f a st' = g a st') -> bind c f st = bind c g st.
Proof. intros H. unfold bind. destruct (c st) as [[a|e] st1]; auto. Qed.

Lemma build_items_app (E : Env) (filtersDir : string) (done rest : list string) :
  forall st : state,
    build_items E filtersDir (done ++ rest) st
    = bind (build_items E filtersDir done)
           (fun _ => build_items E filtersDir rest) st.
Proof.
  induction done as [|name done IH]; intros st.
  - reflexivity.
  - cbn [List.app build_items]. rewrite bind_assoc.
    apply bind_ext. intros b st1. rewrite bind_assoc.
    apply bind_ext. intros _ st2. apply IH.
Qed.

Lemma build_items_fatal (E : Env) (filtersDir name : string) (rest : list string)
      (st : state) :
  directory st (path_join E filtersDir name) = Some true ->
  Spec.fatal E (path_join E filtersDir name) st ->
  exists e st',
    build_items E filtersDir (name :: rest) st = (Throw e, st') /\
    files st' = files st.
Proof.
  intros Hdir Hfatal. cbn [build_items]. unfold bind at 1 2. rewrite Hdir.
  unfold bind at 1 2. unfold logger_log at 1. cbn [modify].
  set (st1 := set_log _ st).
  assert (Hf1 : Spec.fatal E (path_join E filtersDir name) st1) by exact Hfatal.
  destruct (buildFilter_fatal Hf1) as (e & st2 & H2).
  rewrite H2. exists e, st2. split; [reflexivity|].
  now apply quiet_buildFilter in H2.
Qed.

End CompilerFacts.

(** * The claims of the specification *)

Unset Implicit Arguments.

Import Regex Converter Spec.

(** what [convert] returns for one rule, from any state *)
Lemma convert_one (masks : RuleMasks) (rule : string) (st : Converter.state) :
  value (convert masks [rule] st)
  = Normal [rewritten_options (injected masks rule)].
Proof.
  unfold value, convert.
  destruct (ConverterFacts.convert_loop_map masks [rule] [] st) as (st' & ->).
  cbn. now rewrite ConverterFacts.converted_eq.
Qed.

Ltac token_cases H :=
  cbn in H;
  repeat match type of H with
         | _ \/ _ => destruct H as [H | H]
         | False => destruct H
         end;
  inversion H; subst; clear H.

(** C1. For every list of rules, [convert] returns normally a list of the
    same length, whose rule at each position is what [convert] makes of
    the input rule at that position alone: the order is kept and no rule
    is dropped.  A rule in which none of the patterns of the conversion
    finds anything (no [:style], or no mask, or no match of the pattern of
    the CSS injection; and no match of the four patterns of the options)
    is in the output as it is. *)
Theorem convert_preserves_rules :
  forall (masks : RuleMasks) (rulesList : list string) (st : Converter.state),
  exists (out : list string) (st' : Converter.state),
    convert masks rulesList st = (Normal out, st') /\
    List.length out = List.length rulesList /\
    out = map (converted masks) rulesList /\
    forall (i : nat) (rule : string),
      nth_error rulesList i = Some rule ->
      (Str.includes rule ":style" = false \/
       matched_mask masks rule = None \/
       test CSS_RULE_REPLACE_PATTERN rule = false) ->
      test FIRST_PARTY_REGEX rule = false ->
      test XHR_REGEX rule = false ->
      test CSS_REGEX rule = false ->
      test FRAME_REGEX rule = false ->
      nth_error out i = Some rule.
Proof.
  intros masks rulesList st.
  destruct (ConverterFacts.convert_loop_map masks rulesList [] st) as (st' & H).
  exists (map (converted masks) rulesList), st'.
  split; [exact H|]. split; [apply length_map|]. split; [reflexivity|].
  intros i rule Hi Hstyle H1 H2 H3 H4.
  rewrite nth_error_map, Hi. cbn. f_equal.
  rewrite ConverterFacts.converted_eq, (ConverterFacts.injected_unchanged _ _ Hstyle).
  now apply ConverterFacts.rewritten_options_unchanged.
Qed.

Lemma convert_preserves_rules_witness :
  exists (out : list string) (st' : Converter.state),
    convert rule_masks ["||example.org^$~third-party"; "example.com##.banner"]
            (initial None) = (Normal out, st') /\
    List.length out = 2 /\
    nth_error out 1 = Some "example.com##.banner".
Proof.
  destruct (convert_preserves_rules rule_masks
              ["||example.org^$~third-party"; "example.com##.banner"]
              (initial None)) as (out & st' & H1 & H2 & _ & H4).
  exists out, st'. split; [exact H1|]. split; [exact H2|].
  apply (H4 1 "example.com##.banner"); try reflexivity.
  left. reflexivity.
Defined.

(** C2, as the code has it.  [convert] maps the rule
    [example.com##h1:style(color: blue !important)] to
    [example.com#$#h1 { color: blue !important }] and the exception rule
    [example.com#@#h1:style(color: red)] to
    [example.com#@$#h1 { color: red }], from any state.  In general a rule
    with [:style] that splits on its mask into a domain, not empty, and a
    part in which the pattern finds a selector and a style body becomes
    domain, output mask, selector, [ { ], style body, [ }]. *)
Theorem style_rule_converted :
  (forall st : Converter.state,
     value (convert rule_masks
              ["example.com##h1:style(color: blue !important)"] st)
     = Normal ["example.com#$#h1 { color: blue !important }"]) /\
  (forall st : Converter.state,
     value (convert rule_masks ["example.com#@#h1:style(color: red)"] st)
     = Normal ["example.com#@$#h1 { color: red }"]) /\
  (forall (masks : RuleMasks) (rule mask mark domain rulePart : string)
          (m : match_result) (selector body : string) (st : Converter.state),
     Str.includes rule ":style" = true ->
     matched_mask masks rule = Some (mask, mark) ->
     Str.split rule mask (Some 2) = [domain; rulePart] ->
     domain <> "" ->
     search CSS_RULE_REPLACE_PATTERN rulePart = Some m ->
     nth 1 (m_groups m) None = Some selector ->
     nth 2 (m_groups m) None = Some body ->
     exists st' : Converter.state,
       convert_style masks rule st
       = (Normal (domain ++ mark ++ selector ++ " { " ++ body ++ " }"), st')).
Proof.
  split; [|split].
  - intros st. unfold value, convert.
    destruct (ConverterFacts.convert_loop_map rule_masks
                ["example.com##h1:style(color: blue !important)"] [] st)
      as (st' & ->).
    vm_compute. reflexivity.
  - intros st. unfold value, convert.
    destruct (ConverterFacts.convert_loop_map rule_masks
                ["example.com#@#h1:style(color: red)"] [] st) as (st' & ->).
    vm_compute. reflexivity.
  - intros masks rule mask mark domain rulePart m selector body st
           Hs Hm Hsplit Hd E H1 H2.
    rewrite ConverterFacts.convert_style_matched, Hs, Hm, Hsplit.
    rewrite ConverterFacts.executeConversion_run, E.
    destruct domain as [|c domain]; [congruence|].
    cbv zeta. rewrite H1, H2. eexists. reflexivity.
Qed.

Lemma style_rule_converted_witness :
  exists st' : Converter.state,
    convert_style rule_masks "example.com##h1:style(color: blue !important)"
                  (initial None)
    = (Normal "example.com#$#h1 { color: blue !important }", st').
Proof.
  destruct style_rule_converted as (_ & _ & H).
  apply (H rule_masks "example.com##h1:style(color: blue !important)"
           "##" "#$#" "example.com" "h1:style(color: blue !important)"
           {| m_index := 0; m_before := "";
              m_groups := [Some "h1:style(color: blue !important)";
                           Some "h1"; Some "color: blue !important"];
              m_after := "" |}
           "h1" "color: blue !important" (initial None));
    try reflexivity.
  discriminate.
Defined.

(** Against C2 as it is stated: in [example.com#@##h1:style(color: red)]
    the chain of tests finds the mask [##] first, and the rule becomes
    [example.com#@#$#h1 { color: red }]. *)
Lemma exception_rule_with_id_selector :
  value (convert rule_masks ["example.com#@##h1:style(color: red)"] (initial None))
  = Normal ["example.com#@#$#h1 { color: red }"] /\
  value (convert rule_masks ["example.com#@##h1:style(color: red)"] (initial None))
  <> Normal ["example.com#@$#h1 { color: red }"].
Proof. vm_compute. split; [reflexivity | discriminate]. Qed.

(** C3. The legacy tokens of the options are rewritten: [first-party] to
    [~third-party], [xhr] to [xmlhttprequest], [css] to [stylesheet],
    [frame] to [subdocument].  The rule of the specification becomes
    [||example.org^$~third-party,xmlhttprequest].  Every rule gets the
    four replacements, one after the other, whatever the CSS injection
    conversion made of it.  A token that stands after [$] or [,], in any
    case of its letters, with no occurrence of it before and none of the
    other three tokens in the rule, is replaced by its canonical token and
    the delimiter is kept.  The replacements do not depend on each other:
    any two of them give the same text in either order. *)
Theorem option_tokens_rewritten :
  (forall (masks : RuleMasks) (st : Converter.state),
     value (convert masks ["||example.org^$first-party,xhr"] st)
     = Normal ["||example.org^$~third-party,xmlhttprequest"]) /\
  (forall (masks : RuleMasks) (rule : string) (st : Converter.state),
     value (convert masks [rule] st)
     = Normal [replace
                 (replace
                    (replace
                       (replace (injected masks rule)
                          FIRST_PARTY_REGEX FIRST_PARTY_REPLACEMENT)
                       XHR_REGEX XHR_REPLACEMENT)
                    CSS_REGEX CSS_REPLACEMENT)
                 FRAME_REGEX FRAME_REPLACEMENT] /\
     (Str.includes rule ":style" = false -> injected masks rule = rule)) /\
  (forall (masks : RuleMasks) (st : Converter.state)
          (token canonical : string) (d : ascii) (pre tok post : string),
     In (token, canonical) option_tokens ->
     dollar_or_comma d = true ->
     starts_i tok token = true -> String.length tok = String.length token ->
     occurrences token pre = 0 ->
     (forall other canonical' : string,
        In (other, canonical') option_tokens -> other <> token ->
        occurrences other (pre ++ String d (tok ++ post)) = 0) ->
     Str.includes (pre ++ String d (tok ++ post)) ":style" = false ->
     value (convert masks [pre ++ String d (tok ++ post)] st)
     = Normal [pre ++ String d (canonical ++ post)]) /\
  (forall (R1 R2 : regex) (t1 t2 : list piece) (a ca b cb : string) (s : string),
     In (R1, t1, a, ca) option_rewrites ->
     In (R2, t2, b, cb) option_rewrites ->
     replace (replace s R1 t1) R2 t2 = replace (replace s R2 t2) R1 t1).
Proof.
  split; [|split; [|split]].
  - intros masks st. rewrite convert_one.
    rewrite ConverterFacts.injected_unchanged by (left; reflexivity).
    vm_compute. reflexivity.
  - intros masks rule st.
    split; [|intros Hs; apply ConverterFacts.injected_unchanged; now left].
    rewrite convert_one.
    rewrite OptionFacts.rewritten_options_chain.
    change FIRST_PARTY_REGEX with (option_regex "first-party").
    change XHR_REGEX with (option_regex "xhr").
    change CSS_REGEX with (option_regex "css").
    change FRAME_REGEX with (option_regex "frame").
    unfold FIRST_PARTY_REPLACEMENT, XHR_REPLACEMENT, CSS_REPLACEMENT,
      FRAME_REPLACEMENT.
    now rewrite !OptionFacts.replace_option.
  - intros masks st token canonical d pre tok post Hin Hd Ht Hl Hpre Hothers Hs.
    rewrite convert_one.
    rewrite ConverterFacts.injected_unchanged by now left.
    rewrite OptionFacts.rewritten_options_chain.
    assert (Hfp : "first-party" <> token ->
                  occurrences "first-party" (pre ++ String d (tok ++ post)) = 0)
      by (apply (Hothers _ "~third-party"); cbn; auto).
    assert (Hxhr : "xhr" <> token ->
                   occurrences "xhr" (pre ++ String d (tok ++ post)) = 0)
      by (apply (Hothers _ "xmlhttprequest"); cbn; auto).
    assert (Hcss : "css" <> token ->
                   occurrences "css" (pre ++ String d (tok ++ post)) = 0)
      by (apply (Hothers _ "stylesheet"); cbn; auto).
    assert (Hframe : "frame" <> token ->
                     occurrences "frame" (pre ++ String d (tok ++ post)) = 0)
      by (apply (Hothers _ "subdocument"); cbn; auto).
    clear Hothers.
    token_cases Hin;
      repeat match goal with
             | H : ?a <> ?b -> _ |- _ =>
                 first [ specialize (H ltac:(discriminate)) | clear H ]
             end;
      repeat match goal with
             | |- context [rewrite_first ?T ?c (pre ++ String d (tok ++ post))] =>
                 first
                   [ rewrite (OptionFacts.rewrite_first_none T c
                                (pre ++ String d (tok ++ post)))
                       by assumption
                   | rewrite (OptionFacts.rewrite_first_at T c d pre tok post)
                       by (reflexivity || assumption) ]
             end;
      repeat match goal with
             | Ht' : starts_i tok ?token = true
               |- context [rewrite_first ?T ?c (pre ++ String d (?k ++ post))] =>
                 rewrite (OptionFacts.rewrite_first_other_none
                            token k T c d pre tok post)
                   by (reflexivity || assumption)
             end;
      reflexivity.
  - intros R1 R2 t1 t2 a ca b cb s H1 H2.
    token_cases H1; token_cases H2; try reflexivity;
      repeat match goal with
             | |- context [replace ?x ?R ?t] =>
                 let R' := eval hnf in R in
                 let t' := eval hnf in t in
                 change (replace x R t) with (replace x R' t');
                 lazymatch R' with
                 | RSeq _ (lit_i ?T) => change R' with (option_regex T)
                 end;
                 rewrite (OptionFacts.replace_option _ _ x)
             end;
      apply OptionFacts.rewrite_first_comm; reflexivity.
Qed.

Lemma option_tokens_rewritten_witness :
  value (convert rule_masks ["||example.org^$XHR,image"] (initial None))
  = Normal ["||example.org^$xmlhttprequest,image"] /\
  injected rule_masks "||example.org^$css,frame" = "||example.org^$css,frame" /\
  replace (replace "||example.org^$css,frame" CSS_REGEX CSS_REPLACEMENT)
    FRAME_REGEX FRAME_REPLACEMENT
  = replace (replace "||example.org^$css,frame" FRAME_REGEX FRAME_REPLACEMENT)
      CSS_REGEX CSS_REPLACEMENT.
Proof.
  destruct option_tokens_rewritten as (_ & H2 & H3 & H4).
  split; [|split].
  - apply (H3 rule_masks (initial None) "xhr" "xmlhttprequest" "$"%char
             "||example.org^" "XHR" ",image"); try reflexivity.
    + cbn. auto.
    + intros other canonical' Hin Hne. token_cases Hin; try reflexivity.
      now destruct Hne.
  - apply (H2 rule_masks "||example.org^$css,frame" (initial None)). reflexivity.
  - apply (H4 CSS_REGEX FRAME_REGEX CSS_REPLACEMENT FRAME_REPLACEMENT
             "css" "stylesheet" "frame" "subdocument"); cbn; auto.
Defined.

(** C4, where the code departs from it.  For the entry [/abc/] the
    pattern that is built is [ab], not [abc]; and for every entry between
    slashes whose body is not empty, the pattern is the body without its
    last character: [substring(1, length - 2)] takes away the closing
    slash and the character before it. *)
Theorem slashed_entry_loses_last_character :
  (forall (E : Compiler.Env) (line : string),
     Compiler.isExcluded E line ["/abc/"]
     = match Compiler.RegExp E "ab" with
       | None => Throw SyntaxError
       | Some matches => Normal (matches line)
       end) /\
  (forall (E : Compiler.Env) (line body : string) (rest : list string),
     body <> "" ->
     Str.trim ("/" ++ body ++ "/") = "/" ++ body ++ "/" ->
     Compiler.isExcluded E line (("/" ++ body ++ "/") :: rest)
     = match Compiler.RegExp E (Str.take (String.length body - 1) body) with
       | None => Throw SyntaxError
       | Some matches =>
           if matches line then Normal true else Compiler.isExcluded E line rest
       end).
Proof.
  split.
  - intros E line. unfold Compiler.isExcluded. cbv zeta.
    replace (Str.trim "/abc/") with "/abc/" by (vm_compute; reflexivity).
    replace (Str.substring "/abc/" 1 (Z.of_nat (String.length "/abc/") - 2))
      with "ab" by (vm_compute; reflexivity).
    cbn.
    destruct (Compiler.RegExp E "ab") as [matches|]; [|reflexivity].
    now destruct (matches line).
  - intros E line body rest Hbody Htrim.
    now apply CompilerFacts.isExcluded_slashed.
Qed.

Lemma slashed_entry_loses_last_character_witness :
  Compiler.isExcluded example_env "||example.org/banne" ["/banner/"] = Normal true.
Proof.
  destruct slashed_entry_loses_last_character as (_ & H).
  exact (H example_env "||example.org/banne" "banner" []
            ltac:(discriminate) eq_refl).
Defined.

(** C5, as the code has it.  A directory without template, or without
    metadata, or with metadata that cannot be parsed, is not built:
    [buildFilter] throws and has written no file.  In a batch the
    exception leaves [build]: when the directories before have been built
    and the next one is such a directory, [build] throws, and the files
    are those the directories before have left: nothing is written for the
    failing directory nor for the directories after it, which are not
    built. *)
Theorem fatal_directory_stops_batch :
  (forall (E : Compiler.Env) (filterDir : string) (st : Compiler.state),
     fatal E filterDir st ->
     exists (e : exn) (st' : Compiler.state),
       Compiler.buildFilter E filterDir st = (Throw e, st') /\
       Compiler.files st' = Compiler.files st) /\
  (forall (E : Compiler.Env) (filtersDir logFile domainBlacklistFile : string)
          (done : list string) (name : string) (rest : list string)
          (st st1 : Compiler.state),
     Compiler.entries st filtersDir = Some (done ++ name :: rest)%list ->
     Compiler.build_items E filtersDir done
       (Compiler.set_domainBlacklistFile (Some domainBlacklistFile)
          (Compiler.set_logFile (Some logFile) st))
     = (Normal tt, st1) ->
     Compiler.directory st1 (Compiler.path_join E filtersDir name) = Some true ->
     fatal E (Compiler.path_join E filtersDir name) st1 ->
     exists (e : exn) (st' : Compiler.state),
       Compiler.build E filtersDir logFile domainBlacklistFile st = (Throw e, st') /\
       Compiler.files st' = Compiler.files st1).
Proof.
  split.
  - intros E filterDir st H.
    destruct (CompilerFacts.buildFilter_fatal H) as (e & st' & H').
    exists e, st'. split; [exact H'|].
    now apply CompilerFacts.quiet_buildFilter in H'.
  - intros E filtersDir logFile bl done name rest st st1 Hentries Hdone Hdir Hfatal.
    unfold Compiler.build.
    unfold Compiler.bind at 1. cbn [Compiler.modify].
    unfold Compiler.bind at 1. cbn [Compiler.modify].
    unfold Compiler.bind at 1.
    cbn [Compiler.entries Compiler.set_domainBlacklistFile Compiler.set_logFile].
    rewrite Hentries.
    rewrite CompilerFacts.build_items_app. unfold Compiler.bind at 1.
    rewrite Hdone.
    apply CompilerFacts.build_items_fatal; assumption.
Qed.

Lemma fatal_directory_stops_batch_witness :
  (exists (e : exn) (st' : Compiler.state),
     Compiler.buildFilter example_env "filters/a"
       (example_state [("filters/a/template.txt", "||example.org^")]
                      [("filters", ["a"])] None)
     = (Throw e, st') /\
     Compiler.files st' "filters/a/filter.txt" = None) /\
  (exists (e : exn) (st' : Compiler.state),
     Compiler.build example_env "filters" "log.txt" "blacklist.txt"
       (example_state [("filters/b/template.txt", "||example.org^");
                       ("filters/b/metadata.json", "{}")]
                      [("filters", ["a"; "b"])] None)
     = (Throw e, st') /\
     Compiler.files st' "filters/b/filter.txt" = None).
Proof.
  destruct fatal_directory_stops_batch as (Hdir & Hbatch).
  split.
  - destruct (Hdir example_env "filters/a"
                (example_state [("filters/a/template.txt", "||example.org^")]
                               [("filters", ["a"])] None))
      as (e & st' & H1 & H2).
    + right. left. reflexivity.
    + exists e, st'. split; [exact H1|]. now rewrite H2.
  - destruct (Hbatch example_env "filters" "log.txt" "blacklist.txt" [] "a" ["b"]
                (example_state [("filters/b/template.txt", "||example.org^");
                                ("filters/b/metadata.json", "{}")]
                               [("filters", ["a"; "b"])] None)
                _ eq_refl eq_refl eq_refl)
      as (e & st' & H1 & H2).
    + left. reflexivity.
    + exists e, st'. split; [exact H1|]. now rewrite H2.
Defined.

(** Against C5 as it is stated.  The directory [a] has no template and comes
    first; [build] throws and the directory [b], which [buildFilter]
    builds without fault, gets no [filter.txt]. *)
Lemma sibling_directory_not_built :
  let st := example_state [("filters/b/template.txt", "||example.org^");
                           ("filters/b/metadata.json", "{}")]
                          [("filters", ["a"; "b"])] None in
  let batch := Compiler.build example_env "filters" "log.txt" "blacklist.txt" st in
  let alone := Compiler.buildFilter example_env "filters/b" st in
  fst batch = Throw (Error "Invalid template") /\
  Compiler.files (snd batch) "filters/b/filter.txt" = None /\
  fst alone = Normal tt /\
  Compiler.files (snd alone) "filters/b/filter.txt" <> None.
Proof. vm_compute. repeat split; discriminate. Qed.

(** C6, as the code has it.  A rule with [:style] and a mask, in whose
    part after the mask the pattern finds nothing, comes back unchanged
    from the CSS injection conversion, and [convert] does not throw: it
    returns what the rewriting of the options makes of the rule, which is
    the rule itself when none of the four option patterns matches. *)
Theorem undecomposable_style_rule :
  forall (masks : RuleMasks) (rule mask mark rulePart : string)
         (st : Converter.state),
    Str.includes rule ":style" = true ->
    matched_mask masks rule = Some (mask, mark) ->
    nth_error (Str.split rule mask (Some 2)) 1 = Some rulePart ->
    test CSS_RULE_REPLACE_PATTERN rulePart = false ->
    (exists st' : Converter.state,
       convert_style masks rule st = (Normal rule, st')) /\
    (exists st' : Converter.state,
       convert masks [rule] st = (Normal [rewritten_options rule], st')) /\
    (test FIRST_PARTY_REGEX rule = false -> test XHR_REGEX rule = false ->
     test CSS_REGEX rule = false -> test FRAME_REGEX rule = false ->
     value (convert masks [rule] st) = Normal [rule]).
Proof.
  intros masks rule mask mark rulePart st Hs Hm Hpart Ht.
  assert (Hi : injected masks rule = rule).
  { unfold injected, value.
    rewrite ConverterFacts.convert_style_matched, Hs, Hm.
    destruct (StrFacts.split_two rule mask
                (ConverterFacts.matched_mask_includes _ _ Hm)
                (ConverterFacts.style_rule_length _ Hs))
      as (domain & rulePart' & E & _).
    rewrite E in Hpart |- *. injection Hpart as ->.
    rewrite ConverterFacts.executeConversion_run.
    apply RegexFacts.test_search in Ht. rewrite Ht.
    now destruct domain. }
  assert (Hc : exists st', convert masks [rule] st
                           = (Normal [rewritten_options rule], st')).
  { destruct (ConverterFacts.convert_loop_map masks [rule] [] st) as (st' & H).
    exists st'. unfold convert. rewrite H. cbn [map app].
    now rewrite ConverterFacts.converted_eq, Hi. }
  split; [|split].
  - destruct (ConverterFacts.convert_style_value masks rule st) as (st' & H).
    exists st'. now rewrite H, Hi.
  - exact Hc.
  - intros H1 H2 H3 H4. destruct Hc as (st' & ->). unfold value. cbn.
    now rewrite ConverterFacts.rewritten_options_unchanged.
Qed.

Lemma undecomposable_style_rule_witness :
  (exists st' : Converter.state,
     convert_style rule_masks "example.com##h1:style{color: red}" (initial None)
     = (Normal "example.com##h1:style{color: red}", st')) /\
  (exists st' : Converter.state,
     convert rule_masks ["example.com##h1:style{color: red}"] (initial None)
     = (Normal [rewritten_options "example.com##h1:style{color: red}"], st')) /\
  value (convert rule_masks ["example.com##h1:style{color: red}"] (initial None))
  = Normal ["example.com##h1:style{color: red}"].
Proof.
  destruct (undecomposable_style_rule rule_masks
              "example.com##h1:style{color: red}" "##" "#$#"
              "h1:style{color: red}" (initial None))
    as (H1 & H2 & H3); try reflexivity.
  split; [exact H1|]. split; [exact H2|]. apply H3; reflexivity.
Defined.

(** Against C6 as it is stated.  In the rule below a closing parenthesis is
    missing, so the part after the mask does not decompose; [convert]
    still rewrites the option-like token [,frame] of the selector list,
    and the log holds no warning. *)
Lemma undecomposable_rule_rewritten_without_warning :
  let rule := "example.com##iframe,frame:style(display: none !important" in
  let run := convert rule_masks [rule] (initial None) in
  Str.includes rule ":style" = true /\
  matched_mask rule_masks rule = Some ("##", "#$#") /\
  Str.split rule "##" (Some 2)
  = ["example.com"; "iframe,frame:style(display: none !important"] /\
  test CSS_RULE_REPLACE_PATTERN "iframe,frame:style(display: none !important"
  = false /\
  value run
  = Normal ["example.com##iframe,subdocument:style(display: none !important"] /\
  value run <> Normal [rule] /\
  warnings (log (snd run)) = [].
Proof. vm_compute. repeat split; discriminate. Qed.

(** C7. To exclude twice with the same exclusions file, in the same
    directory, returns what excluding once returns: the same lines, or the
    same exception when an entry is no pattern. *)
Theorem exclude_idempotent :
  forall (E : Compiler.Env) (lines : list string) (exclusionsFileName : string)
         (st : Compiler.state),
    fst (Compiler.bind (Compiler.exclude E lines exclusionsFileName)
           (fun result => Compiler.exclude E result exclusionsFileName) st)
    = fst (Compiler.exclude E lines exclusionsFileName st).
Proof.
  intros E lines name st. unfold Compiler.bind.
  rewrite (CompilerFacts.exclude_run E lines name st). cbv zeta.
  destruct (Compiler.currentDir st) as [dir|] eqn:Hd; [|reflexivity].
  destruct (Compiler.nonempty (Compiler.files st (Compiler.path_join E dir name)))
    as [text|] eqn:Hf.
  - destruct (Compiler.filter_excluded E (Compiler.splitLines text) lines)
      as [kept|e] eqn:Hk; [|reflexivity].
    rewrite CompilerFacts.exclude_run. cbn. rewrite Hd, Hf.
    now rewrite (CompilerFacts.filter_excluded_kept _ _ _ Hk).
  - rewrite CompilerFacts.exclude_run. cbn. now rewrite Hd, Hf.
Qed.

(** C8. A line of the template that starts with white space does not
    start with [@include] and a space, whatever comes after the white
    space: the loop of [compile] does not call [include] for it and
    changes nothing in the state for it; the line, trimmed, is appended
    to the result like any rule line. *)
Theorem indented_include_not_expanded :
  forall (E : Compiler.Env) (before after : list string) (line : string)
         (c : ascii) (rest : string)
         (result : list string) (st : Compiler.state),
    line = String c rest ->
    Str.is_space c = true ->
    Str.startsWith line "@include " = false /\
    Compiler.compile_lines E (before ++ line :: after) result st
    = Compiler.bind (Compiler.compile_lines E before result)
        (fun r => Compiler.compile_lines E after (r ++ [Str.trim line])) st.
Proof.
  intros E before after line c rest result st -> Hc.
  assert (Hs : Str.startsWith (String c rest) "@include " = false).
  { cbn [Str.startsWith]. destruct (Ascii.eqb "@" c) eqn:Ec; [|reflexivity].
    apply Ascii.eqb_eq in Ec. subst c. discriminate. }
  split; [exact Hs|].
  rewrite CompilerFacts.compile_lines_app. cbn [Compiler.compile_lines].
  now rewrite Hs.
Qed.

Lemma indented_include_not_expanded_witness :
  Str.startsWith " @include fragment.txt" "@include " = false /\
  Compiler.compile_lines example_env ["||example.org^"; " @include fragment.txt"]
    [] (example_state [] [] (Some "filters/a"))
  = (Normal ["||example.org^"; "@include fragment.txt"],
     example_state [] [] (Some "filters/a")).
Proof.
  apply (indented_include_not_expanded example_env ["||example.org^"] []
           " @include fragment.txt" " "%char "@include fragment.txt"
           [] (example_state [] [] (Some "filters/a")));
    reflexivity.
Defined.

(** C9. A rule with [:style] whose mask, the one the chain of tests
    settles on, stands at position 0 has an empty domain: the CSS
    injection conversion is not applied, the rule comes back unchanged
    from that step, and nothing is logged or reported for it; [convert]
    returns what the rewriting of the options makes of the rule itself. *)
Theorem empty_domain_not_converted :
  forall (masks : RuleMasks) (rule mask mark : string) (st : Converter.state),
    Str.includes rule ":style" = true ->
    matched_mask masks rule = Some (mask, mark) ->
    Str.startsWith rule mask = true ->
    (exists st' : Converter.state,
       convert_style masks rule st = (Normal rule, st') /\
       log st' = log st /\ excluded st' = excluded st) /\
    value (convert masks [rule] st) = Normal [rewritten_options rule].
Proof.
  intros masks rule mask mark st Hs Hm H0.
  assert (H : forall st0 : Converter.state,
             exists st' : Converter.state,
               convert_style masks rule st0 = (Normal rule, st') /\
               log st' = log st0 /\ excluded st' = excluded st0).
  { intros st0.
    rewrite ConverterFacts.convert_style_matched, Hs, Hm.
    destruct mask as [|x mask].
    - pose proof (ConverterFacts.style_rule_length _ Hs) as Hlen.
      destruct rule as [|c [|d rule]]; cbn in Hlen; try lia.
      change (Str.split (String c (String d rule)) "" (Some 2))
        with [String c ""; String d ""].
      rewrite ConverterFacts.executeConversion_run.
      destruct (search CSS_RULE_REPLACE_PATTERN (String d "")) as [m|] eqn:E.
      + exfalso. assert (Ht : test CSS_RULE_REPLACE_PATTERN (String d "") = true)
          by (unfold test; now rewrite E).
        apply RegexFacts.test_iff in Ht as (a & w & b & Hd & L).
        apply (f_equal String.length) in Hd.
        rewrite !StrFacts.length_app in Hd. cbn in Hd, L.
        destruct L as (w1 & w2 & -> & _ & (w3 & w4 & -> & L3 & _)).
        destruct L3
          as (v1 & v2 & -> & (c1 & -> & _) & (v3 & v4 & -> & (c2 & -> & _) & _)).
        rewrite !StrFacts.length_app in Hd. cbn in Hd. lia.
      + eexists. split; [reflexivity|]. split; reflexivity.
    - assert (Hd : nth_error (Str.split rule (String x mask) (Some 2)) 0 = Some "")
        by (apply StrFacts.split_first; [discriminate | assumption]).
      destruct (StrFacts.split_two rule (String x mask)
                  (ConverterFacts.matched_mask_includes _ _ Hm)
                  (ConverterFacts.style_rule_length _ Hs))
        as (domain & rulePart & E & _).
      rewrite E in Hd |- *. injection Hd as ->.
      rewrite ConverterFacts.executeConversion_run. now exists st0. }
  split; [apply H|].
  rewrite convert_one. unfold injected, value.
  destruct (H (initial None)) as (st' & -> & _). reflexivity.
Qed.

Lemma empty_domain_not_converted_witness :
  (exists st' : Converter.state,
     convert_style rule_masks "##h1:style(color: red)" (initial (Some []))
     = (Normal "##h1:style(color: red)", st') /\
     log st' = [] /\ excluded st' = Some []) /\
  value (convert rule_masks ["##h1:style(color: red)"] (initial (Some [])))
  = Normal ["##h1:style(color: red)"].
Proof.
  apply (empty_domain_not_converted rule_masks "##h1:style(color: red)"
           "##" "#$#" (initial (Some []))); reflexivity.
Defined.

(** C10. Each of the four rewrites of the options replaces the first
    occurrence of its token and no other.  Whatever the rule, [convert]
    returns a rule with one occurrence less of each legacy token that
    occurred in the rule as the CSS injection conversion left it (the rule
    itself, when it has no [:style]).  Each replacement on its own
    rewrites the token at its first occurrence and keeps the text after
    it, with the later occurrences it may hold.  So
    [||example.org^$xhr,xhr] becomes [||example.org^$xmlhttprequest,xhr]. *)
Theorem only_first_occurrence_rewritten :
  (forall (masks : RuleMasks) (rule : string) (st : Converter.state),
   exists out : string,
     value (convert masks [rule] st) = Normal [out] /\
     (Str.includes rule ":style" = false -> injected masks rule = rule) /\
     forall token canonical : string,
       In (token, canonical) option_tokens ->
       occurrences token out = pred (occurrences token (injected masks rule))) /\
  (forall (R : regex) (t : list piece) (token canonical : string)
          (d : ascii) (pre tok post : string),
     In (R, t, token, canonical) option_rewrites ->
     dollar_or_comma d = true ->
     starts_i tok token = true -> String.length tok = String.length token ->
     occurrences token pre = 0 ->
     replace (pre ++ String d (tok ++ post)) R t
     = pre ++ String d (canonical ++ post)) /\
  (forall (masks : RuleMasks) (st : Converter.state),
     value (convert masks ["||example.org^$xhr,xhr"] st)
     = Normal ["||example.org^$xmlhttprequest,xhr"]).
Proof.
  split; [|split].
  - intros masks rule st. exists (rewritten_options (injected masks rule)).
    split; [apply convert_one|].
    split; [intros Hs; apply ConverterFacts.injected_unchanged; now left|].
    intros token canonical Hin.
    rewrite OptionFacts.rewritten_options_chain.
    token_cases Hin;
      repeat first
        [ rewrite OptionFacts.occurrences_other by reflexivity
        | rewrite OptionFacts.occurrences_rewritten by reflexivity ];
      reflexivity.
  - intros R t token canonical d pre tok post Hin Hd Ht Hl Hpre.
    token_cases Hin.
    + change FIRST_PARTY_REGEX with (option_regex "first-party").
      unfold FIRST_PARTY_REPLACEMENT. rewrite OptionFacts.replace_option.
      now apply OptionFacts.rewrite_first_at.
    + change XHR_REGEX with (option_regex "xhr").
      unfold XHR_REPLACEMENT. rewrite OptionFacts.replace_option.
      now apply OptionFacts.rewrite_first_at.
    + change CSS_REGEX with (option_regex "css").
      unfold CSS_REPLACEMENT. rewrite OptionFacts.replace_option.
      now apply OptionFacts.rewrite_first_at.
    + change FRAME_REGEX with (option_regex "frame").
      unfold FRAME_REPLACEMENT. rewrite OptionFacts.replace_option.
      now apply OptionFacts.rewrite_first_at.
  - intros masks st. rewrite convert_one.
    rewrite ConverterFacts.injected_unchanged by (left; reflexivity).
    vm_compute. reflexivity.
Qed.

Lemma only_first_occurrence_rewritten_witness :
  (exists out : string,
     value (convert rule_masks ["||example.org^$xhr,xhr"] (initial None))
     = Normal [out] /\
     occurrences "xhr" out = 1) /\
  replace "||example.org^$image,CSS,css,css" CSS_REGEX CSS_REPLACEMENT
  = "||example.org^$image,stylesheet,css,css".
Proof.
  destruct only_first_occurrence_rewritten as (H1 & H2 & _).
  split.
  - destruct (H1 rule_masks "||example.org^$xhr,xhr" (initial None))
      as (out & Hout & Hi & Hocc).
    exists out. split; [exact Hout|].
    rewrite (Hocc "xhr" "xmlhttprequest") by (cbn; auto).
    rewrite Hi by reflexivity. reflexivity.
  - apply (H2 CSS_REGEX CSS_REPLACEMENT "css" "stylesheet" ","%char
             "||example.org^$image" "CSS" ",css,css"); try reflexivity.
    cbn. auto.
Defined.

(** * Further properties of the code *)

(** ** More about strings *)

Module StrMore.

Import Str StrFacts.

Lemma take_all (s : string) : take (String.length s) s = s.
Proof. induction s as [|c s IH]; cbn; [reflexivity | now rewrite IH]. Qed.

Lemma length_drop (n : nat) (s : string) :
  String.length (drop n s) = String.length s - n.
Proof.
  revert s; induction n as [|n IH]; intros [|c s]; cbn; try reflexivity.
  apply IH.
Qed.

Lemma take_short (n : nat) (s : string) :
  String.length s <= n -> take n s = s.
Proof.
  revert s; induction n as [|n IH]; intros [|c s] H; cbn in *;
    try reflexivity; try lia.
  f_equal. apply IH. lia.
Qed.

Lemma drop_all (n : nat) (s : string) :
  String.length s <= n -> drop n s = "".
Proof.
  revert s; induction n as [|n IH]; intros [|c s] H; cbn in *;
    try reflexivity; try lia.
  apply IH. lia.
Qed.

Lemma startsWith_char (s : string) (c : ascii) :
  String.eqb (take 1 s) (String c "") = startsWith s (String c "").
Proof.
  destruct s as [|d s]; [reflexivity|]. cbn.
  rewrite Ascii.eqb_sym. destruct (Ascii.eqb c d); [|reflexivity].
  now destruct s.
Qed.

(** [s.charAt(0)] and [s.charAt(s.length - 1)] against one character *)
Lemma charAt_first (s : string) (c : ascii) :
  String.eqb (charAt s 0) (String c "") = startsWith s (String c "").
Proof. unfold charAt. cbn. rewrite ?drop_0. apply startsWith_char. Qed.

Lemma charAt_last (s : string) (c : ascii) :
  String.eqb (charAt s (Z.of_nat (String.length s) - 1)) (String c "")
  = endsWith s (String c "").
Proof.
  unfold charAt, endsWith. cbn [String.length].
  destruct s as [|d s].
  - reflexivity.
  - replace (Z.of_nat (String.length (String d s)) - 1 <? 0)%Z with false
      by (symmetry; apply Z.ltb_ge; cbn [String.length]; lia).
    replace (Z.to_nat (Z.of_nat (String.length (String d s)) - 1))
      with (String.length (String d s) - 1) by lia.
    replace (1 <=? String.length (String d s))%nat with true
      by (symmetry; apply Nat.leb_le; cbn [String.length]; lia).
    cbn [andb]. f_equal. apply take_short.
    rewrite length_drop. cbn [String.length]. lia.
Qed.

End StrMore.

(** ** The include directive *)

Module IncludeFacts.

Import Str StrFacts StrMore.

Lemma endsWith_nonempty (s p : string) :
  p <> "" -> endsWith s p = true -> 1 <= String.length s.
Proof.
  unfold endsWith. intros Hp H. apply andb_true_iff in H as [H _].
  apply Nat.leb_le in H. destruct p; [congruence | cbn in H; lia].
Qed.

Lemma strip_last_quote (s : string) :
  (if String.eqb (charAt s (Z.of_nat (String.length s) - 1)) dquote
   then substring s 0 (Z.of_nat (String.length s) - 1) else s)
  = if endsWith s dquote then take (String.length s - 1) s else s.
Proof.
  unfold dquote. rewrite charAt_last.
  destruct (endsWith s (String "034" "")) eqn:E; [|reflexivity].
  apply endsWith_nonempty in E; [|discriminate].
  replace (Z.of_nat (String.length s) - 1)%Z
    with (Z.of_nat (String.length s - 1)) by lia.
  change 0%Z with (Z.of_nat 0).
  rewrite (@substring_range s 0 (String.length s - 1)) by lia.
  rewrite Nat.sub_0_r. cbn [drop]. now rewrite ?drop_0.
Qed.

Lemma substring_tail (s : string) :
  1 <= String.length s ->
  substring s 1 (Z.of_nat (String.length s)) = drop 1 s.
Proof.
  intros Hlen. change 1%Z with (Z.of_nat 1).
  rewrite (@substring_range s 1 (String.length s)) by lia.
  apply take_short. rewrite length_drop. lia.
Qed.

Lemma stripEndQuotes_parts (s : string) :
  Compiler.stripEndQuotes s
  = let s1 := if startsWith s dquote then drop 1 s else s in
    if endsWith s1 dquote then take (String.length s1 - 1) s1 else s1.
Proof.
  unfold Compiler.stripEndQuotes. cbv zeta.
  unfold dquote at 1. rewrite charAt_first. fold dquote.
  destruct (startsWith s dquote) eqn:E.
  - assert (Hlen : 1 <= String.length s)
      by (destruct s; [discriminate | cbn; lia]).
    rewrite (substring_tail s Hlen).
    replace (Z.of_nat (String.length s) - 1 - 1)%Z
      with (Z.of_nat (String.length (drop 1 s)) - 1)%Z
      by (rewrite length_drop; lia).
    apply strip_last_quote.
  - apply strip_last_quote.
Qed.

Lemma stripEndQuotes_wrapped (s : string) :
  Compiler.stripEndQuotes (String "034" (s ++ String "034" "")) = s.
Proof.
  rewrite stripEndQuotes_parts. unfold dquote.
  cbv zeta. cbn [startsWith]. rewrite Ascii.eqb_refl.
  rewrite startsWith_nil. cbn [andb drop].
  rewrite ?drop_0.
  rewrite (endsWith_app s (String "034" "")).
  rewrite length_app. cbn [String.length].
  replace (String.length s + 1 - 1) with (String.length s) by lia.
  apply take_app.
Qed.

End IncludeFacts.

(** X1. [stripEndQuotes] takes away a double quote at the start, when
    there is one, and then a double quote at the end, when there is one:
    one at each end and no more.  A text between two double quotes comes
    back without them, whatever it holds. *)
Theorem stripEndQuotes_strips_one_pair :
  (forall s : string,
     Compiler.stripEndQuotes s
     = let s1 := if Str.startsWith s Str.dquote then Str.drop 1 s else s in
       if Str.endsWith s1 Str.dquote
       then Str.take (String.length s1 - 1) s1 else s1) /\
  (forall s : string,
     Compiler.stripEndQuotes (Str.dquote ++ s ++ Str.dquote) = s).
Proof.
  split; [exact IncludeFacts.stripEndQuotes_parts|].
  intros s. apply IncludeFacts.stripEndQuotes_wrapped.
Qed.

(** ** Splitting on one character *)

Module SplitFacts.

Import Str StrFacts StrMore.

Lemma includes_char_nil (c : ascii) : includes "" (String c "") = false.
Proof. reflexivity. Qed.

Lemma includes_char_cons (c x : ascii) (s : string) :
  includes (String x s) (String c "") = Ascii.eqb c x || includes s (String c "").
Proof.
  cbn [includes startsWith]. now rewrite startsWith_nil, andb_true_r.
Qed.

Lemma includes_char_app (c : ascii) (a b : string) :
  includes (a ++ b) (String c "")
  = includes a (String c "") || includes b (String c "").
Proof.
  induction a as [|x a IH]; [reflexivity|].
  rewrite app_cons, !includes_char_cons, IH. apply orb_assoc.
Qed.

Lemma cut_char (c : ascii) (a b : string) :
  includes a (String c "") = false ->
  cut (a ++ String c b) (String c "") = Some (a, b).
Proof.
  induction a as [|x a IH]; intros H.
  - change ("" ++ String c b) with (String c b). cbn [cut startsWith].
    rewrite Ascii.eqb_refl, startsWith_nil. cbn. now rewrite ?drop_0.
  - rewrite includes_char_cons in H. apply orb_false_iff in H as [Hx Ha].
    rewrite app_cons. cbn [cut startsWith]. rewrite Hx. cbn [andb].
    now rewrite (IH Ha).
Qed.

Lemma cut_shorter (s sep a rest : string) :
  sep <> "" -> cut s sep = Some (a, rest) -> String.length rest < String.length s.
Proof.
  intros Hsep H. apply cut_some in H. subst s. rewrite !length_app.
  destruct sep; [congruence | cbn; lia].
Qed.

(** more fuel than the length of the text changes nothing *)
Lemma split_pieces_fuel (sep : string) :
  sep <> "" ->
  forall (fuel fuel' : nat) (s : string),
    String.length s <= fuel -> String.length s <= fuel' ->
    split_pieces fuel s sep = split_pieces fuel' s sep.
Proof.
  intros Hsep. induction fuel as [|fuel IH]; intros fuel' s H H'.
  - destruct s; [|cbn in H; lia]. destruct fuel'; cbn [split_pieces]; [reflexivity|].
    destruct sep; [congruence | reflexivity].
  - destruct fuel' as [|fuel'].
    + destruct s; [|cbn in H'; lia]. cbn [split_pieces].
      destruct sep; [congruence | reflexivity].
    + cbn [split_pieces]. destruct (cut s sep) as [[a rest]|] eqn:E; [|reflexivity].
      apply (cut_shorter _ _ _ _ Hsep) in E. f_equal. apply IH; lia.
Qed.

Lemma split_char_cons (c : ascii) (a b : string) :
  includes a (String c "") = false ->
  split (a ++ String c b) (String c "") None = a :: split b (String c "") None.
Proof.
  intros H. unfold split. rewrite length_app. cbn [String.length].
  rewrite Nat.add_succ_r. cbn [split_pieces]. rewrite (cut_char _ _ _ H). f_equal.
  apply split_pieces_fuel; [discriminate | lia | lia].
Qed.

Lemma split_char_none (c : ascii) (a : string) :
  includes a (String c "") = false -> split a (String c "") None = [a].
Proof.
  intros H. unfold split. destruct (String.length a); cbn [split_pieces];
    [reflexivity|]. now rewrite (@cut_none _ _ H).
Qed.

(** [trim] leaves alone a text that starts and ends without white space *)
Lemma trimEnd_last (s : string) (c : ascii) :
  is_space c = false -> trimEnd (s ++ String c "") = s ++ String c "".
Proof.
  intros Hc. induction s as [|x s IH].
  - cbn. now rewrite Hc.
  - rewrite app_cons. cbn [trimEnd]. rewrite IH.
    destruct (s ++ String c "") eqn:E; [|reflexivity].
    destruct s; discriminate.
Qed.

Lemma trim_between (x c : ascii) (s : string) :
  is_space x = false -> is_space c = false ->
  trim (String x (s ++ String c "")) = String x (s ++ String c "").
Proof.
  intros Hx Hc. unfold trim. cbn [trimStart]. rewrite Hx.
  apply (trimEnd_last (String x s) c Hc).
Qed.

Lemma substring_from (s : string) (a : nat) :
  a <= String.length s ->
  substring s (Z.of_nat a) (Z.of_nat (String.length s)) = drop a s.
Proof.
  intros H. rewrite (@substring_range s a (String.length s)) by lia.
  apply take_short. rewrite length_drop. lia.
Qed.

End SplitFacts.

Module ParseFacts.

Import Str StrFacts StrMore SplitFacts.

Lemma compile_lines_include_throws (E : Compiler.Env) (line : string)
      (rest result : list string) (st : Compiler.state) (e : exn) :
  startsWith line "@include " = true ->
  Compiler.parseIncludeLine (trim line) = Throw e ->
  Compiler.compile_lines E (line :: rest) result st = (Throw e, st).
Proof.
  intros Hs Hp. cbn [Compiler.compile_lines]. rewrite Hs.
  unfold Compiler.bind at 1. unfold Compiler.include.
  unfold Compiler.bind at 1. unfold Compiler.lift. now rewrite Hp.
Qed.

Lemma parse_no_space (line : string) :
  includes line " " = false -> Compiler.parseIncludeLine line = Throw TypeError.
Proof.
  intros H. unfold Compiler.parseIncludeLine.
  now rewrite (split_char_none " " line H).
Qed.

Lemma parse_plain (u : string) :
  includes u " " = false ->
  startsWith (trim u) "/stripComments" = false ->
  startsWith (trim u) "/exclude=" = false ->
  Compiler.parseIncludeLine ("@include " ++ u)
  = Normal {| Compiler.opt_url := Compiler.stripEndQuotes (trim u);
              Compiler.opt_stripComments := false;
              Compiler.opt_exclude := None |}.
Proof.
  intros Hu H1 H2. unfold Compiler.parseIncludeLine.
  change ("@include " ++ u) with ("@include" ++ String " " u).
  rewrite (split_char_cons " " "@include" u eq_refl).
  rewrite (split_char_none " " u Hu).
  cbn [nth_error skipn fold_left]. now rewrite H1, H2.
Qed.

Lemma includes_space_quoted (u : string) :
  includes u " " = false ->
  includes (String "034" (u ++ String "034" "")) " " = false.
Proof.
  intros H. rewrite includes_char_cons, includes_char_app, H. reflexivity.
Qed.

Lemma parse_quoted (u name : string) :
  includes u " " = false -> includes name " " = false ->
  Compiler.parseIncludeLine
    ("@include " ++ dquote ++ u ++ dquote ++ " /stripComments /exclude="
                 ++ dquote ++ name ++ dquote)
  = Normal {| Compiler.opt_url := u;
              Compiler.opt_stripComments := true;
              Compiler.opt_exclude := Some name |}.
Proof.
  intros Hu Hn. unfold dquote.
  set (qu := String "034" (u ++ String "034" "")).
  set (ex := String "/" (("exclude=" ++ String "034" name) ++ String "034" "")).
  replace ("@include " ++ String "034" "" ++ u ++ String "034" ""
             ++ " /stripComments /exclude=" ++ String "034" "" ++ name
             ++ String "034" "")
    with ("@include" ++ String " " (qu ++ String " "
            ("/stripComments" ++ String " " ex)))
    by (unfold qu, ex; cbn; now rewrite !app_assoc).
  assert (Hqu : includes qu " " = false) by now apply includes_space_quoted.
  assert (Hex : includes ex " " = false).
  { unfold ex. rewrite app_assoc.
    change (String "/" ("exclude=" ++ String "034" name ++ String "034" ""))
      with ("/exclude=" ++ String "034" (name ++ String "034" "")).
    rewrite includes_char_app. now rewrite (includes_space_quoted name Hn). }
  unfold Compiler.parseIncludeLine.
  rewrite (split_char_cons " " "@include" _ eq_refl).
  rewrite (split_char_cons " " qu _ Hqu).
  rewrite (split_char_cons " " "/stripComments" _ eq_refl).
  rewrite (split_char_none " " ex Hex).
  cbn [nth_error skipn fold_left].
  assert (Htq : trim qu = qu) by (apply trim_between; reflexivity).
  assert (Hte : trim ex = ex) by (apply trim_between; reflexivity).
  rewrite Htq.
  change (startsWith qu "/stripComments") with false.
  change (startsWith qu "/exclude=") with false.
  cbv iota beta.
  replace (trim "/stripComments") with "/stripComments" by reflexivity.
  change (startsWith "/stripComments" "/stripComments") with true.
  cbv iota beta. rewrite Hte.
  change (startsWith ex "/stripComments") with false.
  replace (startsWith ex "/exclude=") with true
    by (unfold ex; cbn; now rewrite ?startsWith_nil).
  cbv iota beta.
  replace (indexOf ex "=") with 8%Z
    by (unfold ex, indexOf; cbn; now rewrite ?startsWith_nil).
  change (8 + 1)%Z with (Z.of_nat 9).
  rewrite (substring_from ex 9)
    by (unfold ex; cbn [String.length]; rewrite !length_app; cbn; lia).
  replace (drop 9 ex) with (String "034" (name ++ String "034" ""))
    by (unfold ex; cbn; now rewrite ?drop_0, ?app_assoc).
  unfold qu. now rewrite !IncludeFacts.stripEndQuotes_wrapped.
Qed.

Lemma parse_two_spaces (rest : string) :
  exists (stripComments : bool) (exclude : option string),
    Compiler.parseIncludeLine ("@include  " ++ rest)
    = Normal {| Compiler.opt_url := "";
                Compiler.opt_stripComments := stripComments;
                Compiler.opt_exclude := exclude |}.
Proof.
  unfold Compiler.parseIncludeLine.
  change ("@include  " ++ rest) with ("@include" ++ String " " ("" ++ String " " rest)).
  rewrite (split_char_cons " " "@include" _ eq_refl).
  rewrite (split_char_cons " " "" _ eq_refl).
  cbn [nth_error].
  match goal with
  | |- context [fold_left ?f ?l ?a] => destruct (fold_left f l a) as [sc ex]
  end.
  now exists sc, ex.
Qed.

End ParseFacts.

(** X2. A directive without a space in it has no second part: reading
    its path throws a [TypeError].  So a template line that is
    [@include] followed by white space only makes the loop of [compile]
    throw, with nothing logged and no line produced. *)
Theorem include_without_path_throws :
  (forall line : string,
     Str.includes line " " = false ->
     Compiler.parseIncludeLine line = Throw TypeError) /\
  (forall (E : Compiler.Env) (line : string) (rest result : list string)
          (st : Compiler.state),
     Str.startsWith line "@include " = true ->
     Str.includes (Str.trim line) " " = false ->
     Compiler.compile_lines E (line :: rest) result st = (Throw TypeError, st)).
Proof.
  split; [exact ParseFacts.parse_no_space|].
  intros E line rest result st Hs Hn.
  apply ParseFacts.compile_lines_include_throws; [assumption|].
  now apply ParseFacts.parse_no_space.
Qed.

Lemma include_without_path_throws_witness :
  Compiler.parseIncludeLine "@include" = Throw TypeError /\
  Compiler.compile_lines example_env ["@include  "; "||example.org^"] []
    (example_state [] [] (Some "filters/a"))
  = (Throw TypeError, example_state [] [] (Some "filters/a")).
Proof.
  destruct include_without_path_throws as (H1 & H2). split.
  - apply H1. reflexivity.
  - apply H2; reflexivity.
Defined.

(** X3. The directive as it is documented is read as it is written.  A
    path without a space, which is no option itself, gives the path
    (trimmed, without a pair of quotes around it) and no option.  A quoted
    path followed by [/stripComments] and [/exclude=] with a quoted name
    gives the path and the name without their quotes, and the flag. *)
Theorem parseIncludeLine_reads_directive :
  (forall u : string,
     Str.includes u " " = false ->
     Str.startsWith (Str.trim u) "/stripComments" = false ->
     Str.startsWith (Str.trim u) "/exclude=" = false ->
     Compiler.parseIncludeLine ("@include " ++ u)
     = Normal {| Compiler.opt_url := Compiler.stripEndQuotes (Str.trim u);
                 Compiler.opt_stripComments := false;
                 Compiler.opt_exclude := None |}) /\
  (forall u name : string,
     Str.includes u " " = false -> Str.includes name " " = false ->
     Compiler.parseIncludeLine
       ("@include " ++ Str.dquote ++ u ++ Str.dquote
                    ++ " /stripComments /exclude="
                    ++ Str.dquote ++ name ++ Str.dquote)
     = Normal {| Compiler.opt_url := u;
                 Compiler.opt_stripComments := true;
                 Compiler.opt_exclude := Some name |}).
Proof.
  split; [exact ParseFacts.parse_plain | exact ParseFacts.parse_quoted].
Qed.

Lemma parseIncludeLine_reads_directive_witness :
  Compiler.parseIncludeLine "@include https://example.org/list.txt"
  = Normal {| Compiler.opt_url := "https://example.org/list.txt";
              Compiler.opt_stripComments := false;
              Compiler.opt_exclude := None |} /\
  Compiler.parseIncludeLine
    ("@include " ++ Str.dquote ++ "fragment.txt" ++ Str.dquote
                 ++ " /stripComments /exclude="
                 ++ Str.dquote ++ "skip.txt" ++ Str.dquote)
  = Normal {| Compiler.opt_url := "fragment.txt";
              Compiler.opt_stripComments := true;
              Compiler.opt_exclude := Some "skip.txt" |}.
Proof.
  destruct parseIncludeLine_reads_directive as (H1 & H2). split.
  - exact (H1 "https://example.org/list.txt" eq_refl eq_refl eq_refl).
  - exact (H2 "fragment.txt" "skip.txt" eq_refl eq_refl).
Defined.

(** X4. A directive with two spaces after [@include] has an empty path,
    whatever follows: [include] logs the warning [Invalid include url],
    returns no line and reads no file. *)
Theorem include_empty_path_warns :
  forall (E : Compiler.Env) (rest : string) (st : Compiler.state),
    Compiler.include E ("@include  " ++ rest) st
    = (Normal [],
       Compiler.set_log
         (Compiler.log st ++ [(Warning, "Invalid include url")])%list st).
Proof.
  intros E rest st.
  destruct (ParseFacts.parse_two_spaces rest) as (sc & ex & Hp).
  unfold Compiler.include. unfold Compiler.bind at 1. unfold Compiler.lift.
  rewrite Hp. reflexivity.
Qed.

(** ** Splitting a text into lines *)

Module LineFacts.

Import Str StrFacts StrMore RegexFacts.

Lemma all_chars_app (p : ascii -> bool) (a b : string) :
  all_chars p (a ++ b) = all_chars p a && all_chars p b.
Proof.
  induction a as [|c a IH]; [reflexivity|].
  cbn. rewrite IH. apply andb_assoc.
Qed.

Lemma leading_all (p : ascii -> bool) (s : string) :
  all_chars p s = true -> leading p s = String.length s.
Proof.
  induction s as [|c s IH]; [reflexivity|].
  cbn. destruct (p c); [|discriminate]. intros H. now rewrite IH.
Qed.

Lemma leading_app (p : ascii -> bool) (b x : string) :
  all_chars p b = true -> leading p (b ++ x) = String.length b + leading p x.
Proof.
  induction b as [|c b IH]; [reflexivity|].
  cbn. destruct (p c); [|discriminate]. intros H. now rewrite IH.
Qed.

Lemma star_greedy {A : Type} (p : ascii -> bool) (s : string) (f : string -> A) :
  star p s (fun r => Some (f r)) = Some (f (drop (leading p s) s)).
Proof.
  induction s as [|c s IH]; [reflexivity|].
  cbn [star leading]. destruct (p c); [|reflexivity].
  now rewrite IH.
Qed.

Lemma match_at_breaks (c : ascii) (s : string) :
  match_at Compiler.LINE_BREAKS (String c s)
  = if cr_or_lf c then Some ([], drop (leading cr_or_lf s) s) else None.
Proof.
  unfold match_at, Compiler.LINE_BREAKS. cbn [rmatch].
  destruct (cr_or_lf c); [|reflexivity].
  apply (star_greedy cr_or_lf s (fun r => (@nil (nat * string), r))).
Qed.

Lemma split_from_skip (s : string) :
  forall piece : string,
    split_from Compiler.LINE_BREAKS (leading cr_or_lf s) piece s
    = split_from Compiler.LINE_BREAKS 0 piece (drop (leading cr_or_lf s) s).
Proof.
  induction s as [|c s IH]; intros piece; [reflexivity|].
  cbn [leading]. destruct (cr_or_lf c); [|reflexivity].
  cbn [split_from drop]. apply IH.
Qed.

Lemma leading_le (p : ascii -> bool) (s : string) : leading p s <= String.length s.
Proof.
  induction s as [|c s IH]; cbn; [lia|]. destruct (p c); lia.
Qed.

(** a line break closes the piece, and the breaks after it are passed *)
Lemma split_from_break (c : ascii) (s piece : string) :
  cr_or_lf c = true ->
  split_from Compiler.LINE_BREAKS 0 piece (String c s)
  = (piece :: split_from Compiler.LINE_BREAKS 0 ""
               (drop (leading cr_or_lf s) s))%list.
Proof.
  intros Hc. cbn [split_from]. rewrite match_at_breaks, Hc.
  replace (String.length (String c s)
           - String.length (drop (leading cr_or_lf s) s))
    with (S (leading cr_or_lf s)).
  - now rewrite split_from_skip.
  - rewrite length_drop. cbn [String.length].
    pose proof (leading_le cr_or_lf s). lia.
Qed.

(** any other character goes to the piece *)
Lemma split_from_char (c : ascii) (s piece : string) :
  cr_or_lf c = false ->
  split_from Compiler.LINE_BREAKS 0 piece (String c s)
  = split_from Compiler.LINE_BREAKS 0 (piece ++ String c "") s.
Proof.
  intros Hc. cbn [split_from]. now rewrite match_at_breaks, Hc.
Qed.

Lemma split_from_line (w : string) :
  line_text w = true ->
  forall piece rest : string,
    split_from Compiler.LINE_BREAKS 0 piece (w ++ rest)
    = split_from Compiler.LINE_BREAKS 0 (piece ++ w) rest.
Proof.
  induction w as [|c w IH]; intros Hw piece rest.
  - now rewrite app_nil_r.
  - cbn in Hw. apply andb_prop in Hw as [Hc Hw].
    apply negb_true_iff in Hc.
    rewrite app_cons, (split_from_char _ _ _ Hc), (IH Hw).
    f_equal. now rewrite app_assoc.
Qed.

Lemma split_from_lines (n : nat) :
  forall s : string, String.length s <= n ->
  forall piece : string, line_text piece = true ->
    Forall (fun x => line_text x = true)
           (split_from Compiler.LINE_BREAKS 0 piece s).
Proof.
  induction n as [|n IH]; intros s Hn piece Hp.
  - destruct s; [|cbn in Hn; lia]. cbn. now constructor.
  - destruct s as [|c s]; [cbn; now constructor|].
    cbn [String.length] in Hn.
    destruct (cr_or_lf c) eqn:Hc.
    + rewrite (split_from_break _ _ _ Hc). constructor; [exact Hp|].
      apply IH; [rewrite length_drop; lia | reflexivity].
    + rewrite (split_from_char _ _ _ Hc). apply IH; [lia|].
      unfold line_text. rewrite all_chars_app. fold (line_text piece).
      rewrite Hp. cbn. now rewrite Hc.
Qed.

Lemma splitLines_lines (s : string) :
  Forall (fun x => line_text x = true) (Compiler.splitLines s).
Proof.
  destruct s as [|c s]; [cbn; now constructor|].
  apply (split_from_lines (String.length (String c s))); [lia | reflexivity].
Qed.

Lemma join_cons (sep l : string) (rest : list string) :
  rest <> [] -> join sep (l :: rest) = l ++ sep ++ join sep rest.
Proof. destruct rest; [congruence | reflexivity]. Qed.

Lemma split_from_join (sep : string) :
  sep <> "" -> break_text sep = true ->
  forall lines : list string,
    lines <> [] ->
    Forall (fun l => l <> "" /\ line_text l = true) lines ->
    split_from Compiler.LINE_BREAKS 0 "" (join sep lines) = lines.
Proof.
  intros Hsep Hb lines. induction lines as [|l rest IH]; [congruence|].
  intros _ Hall. inversion Hall as [|? ? [Hl1 Hl2] Hrest]; subst.
  destruct rest as [|l2 rest].
  - cbn [join String.concat].
    rewrite <- (app_nil_r l) at 1. now rewrite (split_from_line _ Hl2).
  - rewrite join_cons by discriminate.
    rewrite (split_from_line _ Hl2). cbn [append].
    destruct sep as [|c sep]; [congruence|].
    cbn in Hb. apply andb_prop in Hb as [Hc Hb'].
    rewrite app_cons, (split_from_break _ _ _ Hc).
    assert (Hlead : leading cr_or_lf (join (String c sep) (l2 :: rest)) = 0).
    { inversion Hrest as [|? ? [Hn Hline] _]; subst.
      destruct l2 as [|d l2]; [congruence|].
      cbn in Hline. apply andb_prop in Hline as [Hd _].
      apply negb_true_iff in Hd.
      destruct rest; cbn; now rewrite Hd. }
    rewrite (leading_app _ _ _ Hb'), Hlead, Nat.add_0_r, drop_app.
    f_equal. apply IH; [discriminate | exact Hrest].
Qed.

Lemma drop_leading_app (b : string) :
  break_text b = true ->
  forall s : string,
    drop (leading cr_or_lf (s ++ b)) (s ++ b) = "" \/
    exists s' : string,
      String.length s' <= String.length s /\
      drop (leading cr_or_lf (s ++ b)) (s ++ b) = s' ++ b.
Proof.
  intros Hb s. induction s as [|c s IH].
  - left. cbn [append]. rewrite (leading_all _ _ Hb). now apply drop_all.
  - rewrite app_cons. cbn [leading]. destruct (cr_or_lf c).
    + cbn [drop]. destruct IH as [IH | (s' & Hlen & IH)]; [now left|].
      right. exists s'. split; [cbn; lia | exact IH].
    + right. exists (String c s). split; [lia | reflexivity].
Qed.

Lemma split_from_trailing (b : string) :
  b <> "" -> break_text b = true ->
  forall (n : nat) (s : string), String.length s <= n ->
  forall piece : string,
  exists l : list string,
    split_from Compiler.LINE_BREAKS 0 piece (s ++ b) = (l ++ [""])%list.
Proof.
  intros Hne Hb. induction n as [|n IH]; intros s Hn piece.
  - destruct s; [|cbn in Hn; lia]. cbn [append].
    destruct b as [|c b]; [congruence|].
    cbn in Hb. apply andb_prop in Hb as [Hc Hb'].
    rewrite (split_from_break _ _ _ Hc), (leading_all _ _ Hb'),
      (drop_all _ _ (le_n _)).
    now exists [piece].
  - destruct s as [|c s].
    + apply (IH ""); cbn; lia.
    + cbn [String.length] in Hn. rewrite app_cons.
      destruct (cr_or_lf c) eqn:Hc.
      * rewrite (split_from_break _ _ _ Hc).
        destruct (drop_leading_app b Hb s) as [-> | (s' & Hlen & ->)].
        -- now exists [piece].
        -- destruct (IH s' ltac:(lia) "") as (l & ->).
           now exists (piece :: l).
      * rewrite (split_from_char _ _ _ Hc). apply IH. lia.
Qed.

(** a text that ends with a line break has an empty last line *)
Lemma splitLines_trailing (s b : string) :
  b <> "" -> break_text b = true ->
  exists l : list string, Compiler.splitLines (s ++ b) = (l ++ [""])%list.
Proof.
  intros Hne Hb.
  destruct (split_from_trailing b Hne Hb (String.length s) s (le_n _) "")
    as (l & Hl).
  exists l. rewrite <- Hl. unfold Compiler.splitLines, split.
  destruct (s ++ b) eqn:E; [|reflexivity].
  destruct s; [|discriminate]. cbn in E. congruence.
Qed.

End LineFacts.

(** X5. [splitLines] always gives at least one piece, and no piece holds a
    carriage return or a line feed. *)
Theorem splitLines_pieces_hold_no_break :
  forall s : string,
    Compiler.splitLines s <> [] /\
    Forall (fun piece => line_text piece = true) (Compiler.splitLines s).
Proof.
  intros s. split; [|apply LineFacts.splitLines_lines].
  destruct s as [|c s]; [discriminate|].
  unfold Compiler.splitLines, split.
  destruct (cr_or_lf c) eqn:Hc.
  - now rewrite (LineFacts.split_from_break _ _ _ Hc).
  - pose proof (LineFacts.split_from_lines (String.length s) s (le_n _)
                  (String c "")) as H.
    rewrite (LineFacts.split_from_char _ _ _ Hc). cbn [append].
    destruct (split_from Compiler.LINE_BREAKS 0 (String c "") s) eqn:E;
      [|discriminate].
    exfalso. clear H. revert E. generalize (String c "").
    induction s as [|d s IH]; intros piece; [discriminate|].
    destruct (cr_or_lf d) eqn:Hd.
    + now rewrite (LineFacts.split_from_break _ _ _ Hd).
    + rewrite (LineFacts.split_from_char _ _ _ Hd). apply IH.
Qed.

(** X6. Lines written with a separator of line breaks between them are
    read back as they were: for a list, not empty, of lines that are not
    empty and hold no line break, and for a separator made of carriage
    returns and line feeds (such as the one [buildFilter] joins the filter
    with), [splitLines] of the joined text is the list. *)
Theorem splitLines_reads_joined_lines :
  forall (sep : string) (lines : list string),
    sep <> "" -> break_text sep = true ->
    lines <> [] ->
    Forall (fun l => l <> "" /\ line_text l = true) lines ->
    Compiler.splitLines (Str.join sep lines) = lines.
Proof.
  intros sep lines Hsep Hb Hne Hall.
  rewrite <- (LineFacts.split_from_join sep Hsep Hb lines Hne Hall) at 2.
  unfold Compiler.splitLines, split.
  destruct (Str.join sep lines) eqn:E; [|reflexivity].
  exfalso. destruct lines as [|l rest]; [congruence|].
  inversion Hall as [|? ? [Hl _] _]; subst.
  destruct l; [congruence|]. destruct rest; discriminate.
Qed.

Lemma splitLines_reads_joined_lines_witness :
  Compiler.splitLines
    (Str.join Compiler.CRLF ["! Title: a"; "||example.org^"; "example.com##h1"])
  = ["! Title: a"; "||example.org^"; "example.com##h1"].
Proof.
  apply (splitLines_reads_joined_lines Compiler.CRLF
           ["! Title: a"; "||example.org^"; "example.com##h1"]).
  - discriminate.
  - reflexivity.
  - discriminate.
  - repeat constructor; discriminate.
Defined.

(** ** Exclusions *)

Module ExcludeFacts.

Import Str StrFacts.

Lemma includes_nil (s : string) : includes s "" = true.
Proof. apply includes_startsWith. destruct s; reflexivity. Qed.

Lemma isExcluded_step (E : Compiler.Env) (line e : string) (rest : list string) :
  dropped (Compiler.isExcluded E line (e :: rest)) \/
  Compiler.isExcluded E line (e :: rest) = Compiler.isExcluded E line rest.
Proof.
  cbn [Compiler.isExcluded].
  destruct (negb (startsWith (trim e) "!")); [|now right].
  destruct (startsWith (trim e) "/" && endsWith (trim e) "/").
  - destruct (Compiler.RegExp E _) as [matches|]; [|left; now right].
    destruct (matches line); [left; now left | now right].
  - destruct (includes line (trim e)); [left; now left | now right].
Qed.

(** an entry that is blank once trimmed excludes every line *)
Lemma isExcluded_blank (E : Compiler.Env) (line : string) :
  forall exclusions : list string,
    (exists e, In e exclusions /\ trim e = "") ->
    dropped (Compiler.isExcluded E line exclusions).
Proof.
  induction exclusions as [|h rest IH]; intros (e & Hin & He);
    [destruct Hin|].
  destruct Hin as [-> | Hin].
  - cbn [Compiler.isExcluded]. rewrite He. cbn.
    rewrite includes_nil. now left.
  - destruct (isExcluded_step E line h rest) as [H | ->]; [exact H|].
    apply IH. now exists e.
Qed.

Lemma filter_excluded_dropped (E : Compiler.Env) (exclusions : list string) :
  (forall line, dropped (Compiler.isExcluded E line exclusions)) ->
  forall lines : list string,
    Compiler.filter_excluded E exclusions lines = Normal [] \/
    Compiler.filter_excluded E exclusions lines = Throw SyntaxError.
Proof.
  intros Hd. induction lines as [|line rest IH]; [now left|].
  cbn [Compiler.filter_excluded].
  destruct (Hd line) as [-> | ->]; [|now right].
  destruct IH as [-> | ->]; [now left | now right].
Qed.

Lemma isExcluded_total (E : Compiler.Env) (line : string) :
  (forall source, Compiler.RegExp E source <> None) ->
  forall exclusions : list string,
    exists b : bool, Compiler.isExcluded E line exclusions = Normal b.
Proof.
  intros Hr. induction exclusions as [|e rest IH]; [now exists false|].
  cbn [Compiler.isExcluded].
  destruct (negb (startsWith (trim e) "!")); [|exact IH].
  destruct (startsWith (trim e) "/" && endsWith (trim e) "/").
  - destruct (Compiler.RegExp E _) as [matches|] eqn:Er;
      [|now apply Hr in Er].
    destruct (matches line); [now exists true | exact IH].
  - destruct (includes line (trim e)); [now exists true | exact IH].
Qed.

Lemma filter_excluded_total (E : Compiler.Env) (exclusions : list string) :
  (forall source, Compiler.RegExp E source <> None) ->
  forall lines : list string,
    exists kept, Compiler.filter_excluded E exclusions lines = Normal kept.
Proof.
  intros Hr. induction lines as [|line rest (kept & IH)]; [now exists []|].
  cbn [Compiler.filter_excluded].
  destruct (isExcluded_total E line Hr exclusions) as (b & ->).
  rewrite IH. now eexists.
Qed.

(** without an entry between slashes no pattern is built *)
Lemma isExcluded_plain (E : Compiler.Env) (line : string) :
  forall exclusions : list string,
    Forall (fun e => startsWith (trim e) "/" && endsWith (trim e) "/" = false)
           exclusions ->
    Compiler.isExcluded E line exclusions
    = Normal (existsb (fun e => negb (startsWith (trim e) "!")
                                && includes line (trim e)) exclusions).
Proof.
  induction exclusions as [|e rest IH]; intros Hall; [reflexivity|].
  inversion Hall as [|? ? He Hrest]; subst.
  cbn [Compiler.isExcluded existsb]. rewrite He.
  destruct (negb (startsWith (trim e) "!")); cbn [andb orb]; [|now apply IH].
  destruct (includes line (trim e)); cbn [orb]; [reflexivity | now apply IH].
Qed.

(** the lines kept are those of the input that are not excluded, in
    their order *)
Lemma filter_excluded_filter (E : Compiler.Env) (exclusions : list string) :
  forall lines kept : list string,
    Compiler.filter_excluded E exclusions lines = Normal kept ->
    kept = filter (fun line =>
                     match Compiler.isExcluded E line exclusions with
                     | Normal b => negb b
                     | Throw _ => false
                     end) lines.
Proof.
  induction lines as [|line rest IH]; intros kept H;
    cbn [Compiler.filter_excluded] in H.
  - now injection H as <-.
  - destruct (Compiler.isExcluded E line exclusions) as [b|e] eqn:Eb;
      [|discriminate].
    destruct (Compiler.filter_excluded E exclusions rest) as [kept'|e] eqn:Ek;
      [|discriminate].
    injection H as <-. cbn [filter]. rewrite Eb, <- (IH kept' eq_refl).
    now destruct b.
Qed.

End ExcludeFacts.

(** X7. An exclusions file whose text ends with a line break has an empty
    last entry, and the empty text is part of every line: [exclude] keeps
    no line at all.  It returns the empty list, unless an entry between
    slashes before the blank one is no pattern, in which case it throws
    the syntax error; it returns the empty list whenever every source is
    a pattern. *)
Theorem trailing_break_excludes_every_line :
  forall (E : Compiler.Env) (lines : list string) (name : string)
         (st : Compiler.state) (dir text b : string),
    Compiler.currentDir st = Some dir ->
    Compiler.files st (Compiler.path_join E dir name) = Some (text ++ b) ->
    b <> "" -> break_text b = true ->
    (fst (Compiler.exclude E lines name st) = Normal [] \/
     fst (Compiler.exclude E lines name st) = Throw SyntaxError) /\
    ((forall source, Compiler.RegExp E source <> None) ->
     fst (Compiler.exclude E lines name st) = Normal []).
Proof.
  intros E lines name st dir text b Hd Hf Hne Hb.
  rewrite (CompilerFacts.exclude_run E lines name st). cbv zeta.
  rewrite Hd, Hf.
  assert (Hn : Compiler.nonempty (Some (text ++ b)) = Some (text ++ b)).
  { destruct (text ++ b) eqn:Et; [|reflexivity].
    destruct text; [|discriminate]. cbn in Et. congruence. }
  rewrite Hn.
  destruct (LineFacts.splitLines_trailing text b Hne Hb) as (l & Hl).
  assert (Hdrop : forall line,
             dropped
               (Compiler.isExcluded E line (Compiler.splitLines (text ++ b)))).
  { intros line. apply ExcludeFacts.isExcluded_blank. exists "".
    split; [|reflexivity]. rewrite Hl. apply in_or_app. right. now left. }
  pose proof (ExcludeFacts.filter_excluded_dropped E _ Hdrop lines) as Hk.
  split.
  - destruct Hk as [-> | ->]; [now left | now right].
  - intros Hr.
    destruct (ExcludeFacts.filter_excluded_total E
                (Compiler.splitLines (text ++ b)) Hr lines) as (kept & Hkept).
    destruct Hk as [Hk | Hk]; rewrite Hk in Hkept |- *;
      [reflexivity | discriminate].
Qed.

Lemma trailing_break_excludes_every_line_witness :
  fst (Compiler.exclude example_env ["||example.org^"; "example.com##h1"]
         "exclude.txt"
         (example_state [("filters/a/exclude.txt", "banner" ++ Compiler.CRLF)]
            [] (Some "filters/a")))
  = Normal [].
Proof.
  apply (trailing_break_excludes_every_line example_env
           ["||example.org^"; "example.com##h1"] "exclude.txt"
           (example_state [("filters/a/exclude.txt", "banner" ++ Compiler.CRLF)]
              [] (Some "filters/a"))
           "filters/a" "banner" Compiler.CRLF);
    try reflexivity; discriminate.
Defined.

(** X8. When no entry is written between slashes, [isExcluded] builds no
    pattern and cannot throw: a line is excluded exactly when it holds the
    trimmed text of an entry that is no comment. *)
Theorem plain_entries_exclude_by_inclusion :
  forall (E : Compiler.Env) (line : string) (exclusions : list string),
    Forall (fun e => Str.startsWith (Str.trim e) "/"
                     && Str.endsWith (Str.trim e) "/" = false) exclusions ->
    Compiler.isExcluded E line exclusions
    = Normal (existsb (fun e => negb (Str.startsWith (Str.trim e) "!")
                                && Str.includes line (Str.trim e)) exclusions).
Proof.
  intros E line exclusions. apply ExcludeFacts.isExcluded_plain.
Qed.

Lemma plain_entries_exclude_by_inclusion_witness :
  Compiler.isExcluded example_env "||ads.example.org^"
    ["! a comment: example"; "  ads.example  "]
  = Normal true.
Proof.
  apply (plain_entries_exclude_by_inclusion example_env "||ads.example.org^"
           ["! a comment: example"; "  ads.example  "]).
  repeat constructor.
Defined.

(** X9. [exclude] neither adds nor reorders: when it returns, it has
    written no file, and its result is the input itself when the
    exclusions file cannot be read or is empty, and otherwise the lines of
    the input that [isExcluded] rejects for the entries of the file, in
    their order. *)
Theorem exclude_keeps_a_sublist :
  forall (E : Compiler.Env) (lines : list string) (name : string)
         (st : Compiler.state) (kept : list string) (st' : Compiler.state),
    Compiler.exclude E lines name st = (Normal kept, st') ->
    Compiler.files st' = Compiler.files st /\
    exists dir : string,
      Compiler.currentDir st = Some dir /\
      match Compiler.nonempty
              (Compiler.files st (Compiler.path_join E dir name)) with
      | None => kept = lines
      | Some text =>
          kept = filter (fun line =>
                           match Compiler.isExcluded E line
                                   (Compiler.splitLines text) with
                           | Normal b => negb b
                           | Throw _ => false
                           end) lines
      end.
Proof.
  intros E lines name st kept st' H.
  split.
  { pose proof (CompilerFacts.keeps_exclude E lines name) as Hk.
    now apply Hk in H. }
  rewrite (CompilerFacts.exclude_run E lines name st) in H. cbv zeta in H.
  destruct (Compiler.currentDir st) as [dir|]; [|discriminate].
  exists dir. split; [reflexivity|].
  destruct (Compiler.nonempty (Compiler.files st (Compiler.path_join E dir name)))
    as [text|].
  - destruct (Compiler.filter_excluded E (Compiler.splitLines text) lines)
      as [result|e] eqn:Hk; [|discriminate].
    injection H as <- _. now apply ExcludeFacts.filter_excluded_filter.
  - now injection H as <- _.
Qed.

Lemma exclude_keeps_a_sublist_witness :
  exists st' : Compiler.state,
    Compiler.exclude example_env
      ["||ads.example.org^"; "example.com##h1"; "||ads.example.net^"]
      "exclude.txt"
      (example_state [("filters/a/exclude.txt", "ads.example")]
         [] (Some "filters/a"))
    = (Normal ["example.com##h1"], st') /\
    Compiler.files st'
    = Compiler.files (example_state [("filters/a/exclude.txt", "ads.example")]
                        [] (Some "filters/a")).
Proof.
  set (st := example_state [("filters/a/exclude.txt", "ads.example")]
               [] (Some "filters/a")).
  set (lines := ["||ads.example.org^"; "example.com##h1"; "||ads.example.net^"]).
  assert (H : Compiler.exclude example_env lines "exclude.txt" st
              = (Normal ["example.com##h1"],
                 snd (Compiler.exclude example_env lines "exclude.txt" st)))
    by (vm_compute; reflexivity).
  exists (snd (Compiler.exclude example_env lines "exclude.txt" st)).
  split; [exact H|].
  exact (proj1 (exclude_keeps_a_sublist example_env lines "exclude.txt" st
                  ["example.com##h1"] _ H)).
Defined.

(** ** What the converter leaves of a rule, and what it reports *)

Module ConvertMore.

Import Str StrFacts StrMore ConverterFacts OptionFacts.

Lemma split_head (s sep domain : string) (rest : list string) :
  Str.split s sep (Some 2) = (domain :: rest)%list -> exists x, s = domain ++ x.
Proof.
  unfold Str.split. destruct sep as [|c sep].
  - destruct s as [|a s]; [discriminate|]. cbn [chars firstn].
    intros H. injection H as <- _. now exists s.
  - destruct (String.length s) eqn:Hlen; cbn [split_pieces].
    + cbn. intros H. injection H as <- _. exists "". now rewrite app_nil_r.
    + destruct (cut s (String c sep)) as [[a b]|] eqn:Hc.
      * cbn [firstn]. intros H. injection H as <- _.
        apply cut_some in Hc. exists (String c sep ++ b). exact Hc.
      * cbn. intros H. injection H as <- _. exists "". now rewrite app_nil_r.
Qed.

Lemma take_1_rewrite_first (token canonical s : string) :
  take 1 (rewrite_first token canonical s) = take 1 s.
Proof.
  destruct s as [|c s]; [reflexivity|]. cbn [rewrite_first].
  now destruct (dollar_or_comma c && starts_i s token).
Qed.

Lemma take_1_rewritten_options (rule : string) :
  take 1 (rewritten_options rule) = take 1 rule.
Proof.
  rewrite rewritten_options_chain. now rewrite !take_1_rewrite_first.
Qed.

Lemma take_1_injected (masks : RuleMasks) (rule : string) :
  take 1 (injected masks rule) = take 1 rule.
Proof.
  unfold injected, value. rewrite convert_style_matched.
  destruct (includes rule ":style") eqn:Hs; [|reflexivity].
  destruct (matched_mask masks rule) as [[mask mark]|] eqn:Hm; [|reflexivity].
  destruct (split_two rule mask (matched_mask_includes _ _ Hm)
              (style_rule_length _ Hs)) as (domain & rulePart & Hsplit & _).
  rewrite Hsplit, executeConversion_run.
  destruct domain as [|c domain]; [reflexivity|].
  destruct (search CSS_RULE_REPLACE_PATTERN rulePart) as [m|]; [|reflexivity].
  destruct (split_head _ _ _ _ Hsplit) as (x & ->). reflexivity.
Qed.

Lemma take_1_converted (masks : RuleMasks) (rule : string) :
  take 1 (converted masks rule) = take 1 rule.
Proof.
  now rewrite converted_eq, take_1_rewritten_options, take_1_injected.
Qed.

Lemma startsWith_take_1 (s : string) (c : ascii) :
  startsWith s (String c "") = startsWith (take 1 s) (String c "").
Proof.
  destruct s as [|a s]; [reflexivity|].
  cbn. now rewrite !startsWith_nil.
Qed.

Lemma comment_converted (masks : RuleMasks) (rule : string) :
  startsWith (converted masks rule) "!" = startsWith rule "!".
Proof.
  now rewrite (startsWith_take_1 (converted masks rule)), take_1_converted,
    <- startsWith_take_1.
Qed.

(** *** The state after the conversion of a rule *)

Lemma state_same (li : nat) (st : Converter.state) :
  {| lastIndex := li; log := log st; excluded := excluded st |}
  = {| lastIndex := li;
       log := (log st ++ [])%list;
       excluded := match excluded st with
                   | Some l => Some (l ++ [])%list
                   | None => None
                   end |}.
Proof.
  rewrite List.app_nil_r. destruct (excluded st); [|reflexivity].
  now rewrite List.app_nil_r.
Qed.

(** The first part of the loop body logs at most one message, as
    information; it hands the message, as a comment, and the rule to
    [excluded] when it logs, and nothing otherwise. *)
Lemma convert_style_trace (masks : RuleMasks) (rule : string) :
  exists o : option string,
    (includes rule ":style" = false -> o = None) /\
    (forall m, o = Some m ->
               m = "Rule " ++ dquote ++ rule ++ dquote ++ " converted to: "
                           ++ injected masks rule) /\
    forall st : Converter.state, exists li : nat,
      convert_style masks rule st
      = (Normal (injected masks rule),
         {| lastIndex := li;
            log := (log st ++ match o with
                              | Some m => [(Info, m)]
                              | None => []
                              end)%list;
            excluded := match excluded st with
                        | Some l =>
                            Some (l ++ match o with
                                       | Some m => [("! " ++ m)%string; rule]
                                       | None => []
                                       end)%list
                        | None => None
                        end |}).
Proof.
  unfold injected, value. rewrite convert_style_matched.
  assert (Hsame : forall (o : option string),
             o = None ->
             forall st : Converter.state, exists li : nat,
               (Normal rule, st)
               = (Normal rule,
                  {| lastIndex := li;
                     log := (log st ++ match o with
                                       | Some m => [(Info, m)]
                                       | None => []
                                       end)%list;
                     excluded := match excluded st with
                                 | Some l =>
                                     Some (l ++ match o with
                                                | Some m => [("! " ++ m)%string; rule]
                                                | None => []
                                                end)%list
                                 | None => None
                                 end |})).
  { intros o -> st. exists (lastIndex st). rewrite <- state_same.
    now destruct st. }
  destruct (includes rule ":style") eqn:Hs.
  2:{ exists None. split; [reflexivity|]. split; [discriminate|].
      intros st. exact (Hsame None eq_refl st). }
  destruct (matched_mask masks rule) as [[mask mark]|] eqn:Hm.
  2:{ exists None. split; [reflexivity|]. split; [discriminate|].
      intros st. exact (Hsame None eq_refl st). }
  destruct (split_two rule mask (matched_mask_includes _ _ Hm)
              (style_rule_length _ Hs)) as (domain & rulePart & -> & _).
  destruct domain as [|c domain].
  { exists None. split; [reflexivity|]. split; [discriminate|].
    intros st. rewrite !executeConversion_run. exact (Hsame None eq_refl st). }
  destruct (search CSS_RULE_REPLACE_PATTERN rulePart) as [m|] eqn:E.
  - eexists (Some _). split; [discriminate|]. split.
    + intros m' Hm'. injection Hm' as <-.
      rewrite executeConversion_run, E. cbn [fst]. reflexivity.
    + intros st. rewrite !executeConversion_run, E. cbn [fst].
      eexists. reflexivity.
  - exists None. split; [discriminate|]. split; [discriminate|].
    intros st. rewrite !executeConversion_run, E. cbn [fst].
    exists 0. now rewrite <- state_same.
Qed.

(** The second part logs at most one message, as information, and hands
    nothing to [excluded]. *)
Lemma convert_options_trace (result : list string) (rule : string)
      (st : Converter.state) :
  exists lg : list log_event,
    Forall (fun e => fst e = Info) lg /\
    convert_options result rule st
    = (Normal (rewritten_options rule),
       {| lastIndex := lastIndex st;
          log := (log st ++ lg)%list;
          excluded := excluded st |}).
Proof.
  unfold rewritten_options, value, convert_options.
  destruct (test FIRST_PARTY_REGEX rule || test XHR_REGEX rule
            || test CSS_REGEX rule || test FRAME_REGEX rule).
  - eexists [_]. split; [|reflexivity]. now repeat constructor.
  - exists []. split; [constructor|]. cbn. rewrite List.app_nil_r.
    now destruct st.
Qed.

Lemma reported_trace (masks : RuleMasks) (rule : string) (o : option string) :
  (forall st : Converter.state, exists li : nat,
      convert_style masks rule st
      = (Normal (injected masks rule),
         {| lastIndex := li;
            log := (log st ++ match o with
                              | Some m => [(Info, m)]
                              | None => []
                              end)%list;
            excluded := match excluded st with
                        | Some l =>
                            Some (l ++ match o with
                                       | Some m => [("! " ++ m)%string; rule]
                                       | None => []
                                       end)%list
                        | None => None
                        end |})) ->
  reported masks rule
  = match o with
    | Some m => [("! " ++ m)%string; rule]
    | None => []
    end.
Proof.
  intros H. unfold reported, convert. cbn [convert_loop]. unfold bind.
  destruct (H (initial (Some []))) as (li & ->).
  match goal with
  | |- context [convert_options ?res ?r ?s] =>
      destruct (convert_options_trace res r s) as (lg & _ & ->)
  end.
  cbn. reflexivity.
Qed.

Lemma convert_loop_trace (masks : RuleMasks) (rulesList : list string) :
  forall (result : list string) (st : Converter.state),
  exists (li : nat) (lg : list log_event),
    Forall (fun e => fst e = Info) lg /\
    convert_loop masks rulesList result st
    = (Normal (result ++ map (converted masks) rulesList)%list,
       {| lastIndex := li;
          log := (log st ++ lg)%list;
          excluded := match excluded st with
                      | Some l => Some (l ++ flat_map (reported masks) rulesList)%list
                      | None => None
                      end |}).
Proof.
  induction rulesList as [|rule rest IH]; intros result st;
    cbn [convert_loop map flat_map].
  - exists (lastIndex st), []. split; [constructor|].
    rewrite List.app_nil_r, <- state_same. now destruct st.
  - destruct (convert_style_trace masks rule) as (o & _ & Ho & Hrun).
    rewrite (reported_trace masks rule o Hrun).
    unfold bind. destruct (Hrun st) as (li1 & ->).
    match goal with
    | |- context [convert_options ?res ?r ?s] =>
        destruct (convert_options_trace res r s) as (lg2 & Hlg2 & ->)
    end.
    match goal with
    | |- context [convert_loop masks rest ?res ?s] =>
        destruct (IH res s) as (li3 & lg3 & Hlg3 & ->)
    end.
    cbn [lastIndex log excluded].
    exists li3. eexists. split.
    2:{ rewrite converted_eq, <- !List.app_assoc. f_equal. f_equal.
        destruct (excluded st); [|reflexivity].
        now rewrite <- List.app_assoc. }
    apply Forall_app. split; [destruct o; now repeat constructor|].
    apply Forall_app. now split.
Qed.

Lemma warnings_app (a b : list log_event) :
  warnings (a ++ b) = (warnings a ++ warnings b)%list.
Proof. unfold warnings. now rewrite filter_app, map_app. Qed.

Lemma warnings_info (lg : list log_event) :
  Forall (fun e => fst e = Info) lg -> warnings lg = [].
Proof.
  induction 1 as [|e lg He _ IH]; [reflexivity|].
  unfold warnings in *. cbn [filter]. now rewrite He.
Qed.

End ConvertMore.

(** X10. [convert] keeps the first character of every rule: the rule at
    each position of the result starts as the input rule at that position
    starts.  So a comment, a line that starts with an exclamation mark,
    stays a comment, and no rule becomes one. *)
Theorem convert_keeps_first_character :
  forall (masks : RuleMasks) (rulesList : list string) (st : Converter.state),
  exists (out : list string) (st' : Converter.state),
    convert masks rulesList st = (Normal out, st') /\
    map (Str.take 1) out = map (Str.take 1) rulesList /\
    map (fun rule => Str.startsWith rule "!") out
    = map (fun rule => Str.startsWith rule "!") rulesList.
Proof.
  intros masks rulesList st.
  destruct (ConverterFacts.convert_loop_map masks rulesList [] st) as (st' & H).
  exists (map (converted masks) rulesList), st'.
  split; [exact H|]. rewrite !map_map. split; apply map_ext; intros rule.
  - apply ConvertMore.take_1_converted.
  - apply ConvertMore.comment_converted.
Qed.

(** X11. What [convert] hands to the array [excluded].  A caller that
    passes no array gets none; an array comes back with the reports of the
    rules appended, rule after rule in the order of the list.  The report
    of a rule is empty, or it is the message of the CSS injection
    conversion as a comment followed by the rule as it was; it is empty
    for a rule without [:style], so the rewriting of the options is never
    reported. *)
Theorem convert_reports_css_conversions :
  forall masks : RuleMasks,
    (forall (rulesList : list string) (st : Converter.state),
       excluded (snd (convert masks rulesList st))
       = match excluded st with
         | Some l => Some (l ++ flat_map (reported masks) rulesList)%list
         | None => None
         end) /\
    (forall rule : string,
       reported masks rule = [] \/
       reported masks rule
       = ["! Rule " ++ Str.dquote ++ rule ++ Str.dquote ++ " converted to: "
                    ++ injected masks rule;
          rule]) /\
    (forall rule : string,
       Str.includes rule ":style" = false -> reported masks rule = []).
Proof.
  intros masks. split; [|split].
  - intros rulesList st. unfold convert.
    destruct (ConvertMore.convert_loop_trace masks rulesList [] st)
      as (li & lg & _ & ->).
    reflexivity.
  - intros rule.
    destruct (ConvertMore.convert_style_trace masks rule) as (o & _ & Ho & Hrun).
    rewrite (ConvertMore.reported_trace masks rule o Hrun).
    destruct o as [m|]; [right | now left].
    now rewrite (Ho m eq_refl).
  - intros rule Hs.
    destruct (ConvertMore.convert_style_trace masks rule) as (o & Hnone & _ & Hrun).
    rewrite (ConvertMore.reported_trace masks rule o Hrun).
    now rewrite (Hnone Hs).
Qed.

Lemma convert_reports_css_conversions_witness :
  reported rule_masks "||example.org^$css" = [].
Proof.
  apply (proj2 (proj2 (convert_reports_css_conversions rule_masks))).
  reflexivity.
Defined.

(** X12. [convert] only adds to the log, and what it adds is information:
    it never logs a warning, whatever the rules are. *)
Theorem convert_never_warns :
  forall (masks : RuleMasks) (rulesList : list string) (st : Converter.state),
  exists added : list log_event,
    log (snd (convert masks rulesList st)) = (log st ++ added)%list /\
    Forall (fun e => fst e = Info) added /\
    warnings (log (snd (convert masks rulesList st))) = warnings (log st).
Proof.
  intros masks rulesList st. unfold convert.
  destruct (ConvertMore.convert_loop_trace masks rulesList [] st)
    as (li & lg & Hlg & ->).
  exists lg. cbn [snd log]. split; [reflexivity|]. split; [exact Hlg|].
  rewrite ConvertMore.warnings_app, (ConvertMore.warnings_info lg Hlg).
  apply List.app_nil_r.
Qed.

(** ** Inclusions *)

Module IncludeRun.

Import Str StrFacts.

Lemma bind_normal {A B : Type} (c : Compiler.M A) (f : A -> Compiler.M B)
      (st : Compiler.state) (b : B) (st' : Compiler.state) :
  Compiler.bind c f st = (Normal b, st') ->
  exists (a : A) (st1 : Compiler.state),
    c st = (Normal a, st1) /\ f a st1 = (Normal b, st').
Proof.
  unfold Compiler.bind. destruct (c st) as [[a|e] st1]; [|discriminate].
  intros H. now exists a, st1.
Qed.

(** the converter as the compiler calls it: it never throws, it gives
    what [convert] makes of each rule, and it changes nothing but
    [lastIndex] and the log, to which it adds information only *)
Lemma converter_convert_run (E : Compiler.Env) (rules : list string)
      (st : Compiler.state) :
  exists (li : nat) (lg : list log_event),
    Forall (fun e => fst e = Info) lg /\
    Compiler.converter_convert E rules st
    = (Normal (map (converted (Compiler.RuleMasks E)) rules),
       Compiler.set_converter li (Compiler.log st ++ lg)%list st).
Proof.
  unfold Compiler.converter_convert, convert.
  match goal with
  | |- context [convert_loop ?m ?r ?res ?s] =>
      destruct (ConvertMore.convert_loop_trace m r res s) as (li & lg & Hlg & ->)
  end.
  exists li, lg. split; [exact Hlg | reflexivity].
Qed.

(** the lines [include] hands to the converter, and what comes back *)
Lemma include_result (E : Compiler.Env) (line : string)
      (options : Compiler.include_options)
      (st : Compiler.state) (out : list string) (st' : Compiler.state) :
  Compiler.parseIncludeLine line = Normal options ->
  Compiler.include E line st = (Normal out, st') ->
  exists result : list string,
    out = map (converted (Compiler.RuleMasks E)) result /\
    (Compiler.opt_stripComments options = true ->
     Forall (fun l => startsWith l "!" = false) result).
Proof.
  intros Hp H. unfold Compiler.include in H.
  apply bind_normal in H as (options' & s1 & Hp' & H).
  unfold Compiler.lift in Hp'. rewrite Hp in Hp'. injection Hp' as <- <-.
  destruct (Compiler.opt_url options) as [|c url].
  { cbn in H. injection H as <- _. exists []. split; [reflexivity|].
    constructor. }
  apply bind_normal in H as (_ & s2 & _ & H).
  apply bind_normal in H as (included & s3 & _ & H).
  apply bind_normal in H as (result & s4 & Hres & H).
  apply bind_normal in H as (result2 & s5 & Hconv & H).
  cbn in H. injection H as <- _.
  destruct (converter_convert_run E result s4) as (li & lg & _ & Hrun).
  rewrite Hrun in Hconv. injection Hconv as <- _.
  exists result. split; [reflexivity|]. intros Hstrip.
  destruct (Compiler.nonempty included) as [text|].
  2:{ cbn in Hres. injection Hres as <- _. constructor. }
  apply bind_normal in Hres as (lines & s6 & _ & Hres).
  rewrite Hstrip in Hres. cbn in Hres. injection Hres as <- _.
  apply Forall_forall. intros l Hl. apply filter_In in Hl as [_ Hl].
  now apply negb_true_iff in Hl.
Qed.

(** [include] of a file of the directory, run as far as the file *)
Lemma include_local (E : Compiler.Env) (line : string)
      (options : Compiler.include_options) (st : Compiler.state)
      (dir : string) :
  Compiler.parseIncludeLine line = Normal options ->
  Compiler.opt_url options <> "" ->
  includes (Compiler.opt_url options) ":" = false ->
  Compiler.currentDir st = Some dir ->
  Compiler.include E line st
  = Compiler.bind
      (match Compiler.nonempty
               (Compiler.files st
                  (Compiler.path_join E dir (Compiler.opt_url options))) with
       | None => Compiler.ret []
       | Some text =>
           Compiler.bind
             (match Compiler.nonempty (Compiler.opt_exclude options) with
              | Some name => Compiler.exclude E (Compiler.splitLines text) name
              | None => Compiler.ret (Compiler.splitLines text)
              end)
             (fun result =>
                if Compiler.opt_stripComments options
                then Compiler.stripComments result
                else Compiler.ret result)
       end)
      (fun result =>
         Compiler.bind (Compiler.converter_convert E result)
           (fun result =>
              Compiler.bind
                (Compiler.logger_log
                   ("Inclusion lines: " ++ Str.of_nat (List.length result)))
                (fun _ => Compiler.ret result)))
      (Compiler.set_log
         (Compiler.log st
            ++ [(Info,
                 ("Applying inclusion from: " ++ Compiler.opt_url options)%string)])%list
         st).
Proof.
  intros Hp Hu Hc Hd. unfold Compiler.include.
  unfold Compiler.bind at 1. unfold Compiler.lift. rewrite Hp.
  destruct (Compiler.opt_url options) as [|c url] eqn:Eu; [congruence|].
  unfold Compiler.bind at 1. cbn [Compiler.logger_log Compiler.modify].
  unfold Compiler.logger_log at 1, Compiler.modify at 1.
  unfold Compiler.bind at 1. rewrite Hc.
  unfold Compiler.bind at 1. unfold Compiler.in_currentDir.
  unfold Compiler.bind at 1. unfold Compiler.gets at 1.
  cbn [Compiler.currentDir Compiler.set_log Compiler.set_converter].
  rewrite Hd. unfold Compiler.ret at 1.
  unfold Compiler.readFile, Compiler.gets.
  cbn [Compiler.files Compiler.set_log Compiler.set_converter].
  reflexivity.
Qed.

End IncludeRun.

(** X13. An inclusion of a file of the directory that cannot be read, or
    that is empty, is no error: [include] returns no line, logs the two
    messages of an inclusion, the second with the count 0, and no warning,
    and changes nothing else. *)
Theorem include_of_missing_file_gives_no_line :
  forall (E : Compiler.Env) (line : string) (options : Compiler.include_options)
         (st : Compiler.state) (dir : string),
    Compiler.parseIncludeLine line = Normal options ->
    Compiler.opt_url options <> "" ->
    Str.includes (Compiler.opt_url options) ":" = false ->
    Compiler.currentDir st = Some dir ->
    Compiler.nonempty
      (Compiler.files st (Compiler.path_join E dir (Compiler.opt_url options)))
    = None ->
    Compiler.include E line st
    = (Normal [],
       Compiler.set_log
         (Compiler.log st
            ++ [(Info,
                 ("Applying inclusion from: " ++ Compiler.opt_url options)%string);
                (Info, "Inclusion lines: 0")])%list
         st).
Proof.
  intros E line options st dir Hp Hu Hc Hd Hf.
  rewrite (IncludeRun.include_local E line options st dir Hp Hu Hc Hd), Hf.
  cbn. now rewrite <- List.app_assoc.
Qed.

Lemma include_of_missing_file_gives_no_line_witness :
  Compiler.include example_env "@include fragment.txt"
    (example_state [] [] (Some "filters/a"))
  = (Normal [],
     Compiler.set_log
       [(Info, "Applying inclusion from: fragment.txt");
        (Info, "Inclusion lines: 0")]
       (example_state [] [] (Some "filters/a"))).
Proof.
  apply (include_of_missing_file_gives_no_line example_env
           "@include fragment.txt"
           {| Compiler.opt_url := "fragment.txt";
              Compiler.opt_stripComments := false;
              Compiler.opt_exclude := None |}
           (example_state [] [] (Some "filters/a")) "filters/a");
    try reflexivity; discriminate.
Defined.

(** X14. How [include] composes its steps for a file of the directory,
    when the directive names no exclusions file: the result is what
    [convert] makes of each line of the file, in the order of the file,
    without the lines that start with an exclamation mark when the
    directive says [/stripComments].  A line of the file that is itself a
    directive is a line like any other: inclusions are not followed.  No
    file is written. *)
Theorem include_converts_the_lines_of_the_file :
  forall (E : Compiler.Env) (line : string) (options : Compiler.include_options)
         (st : Compiler.state) (dir text : string),
    Compiler.parseIncludeLine line = Normal options ->
    Compiler.opt_url options <> "" ->
    Str.includes (Compiler.opt_url options) ":" = false ->
    Compiler.nonempty (Compiler.opt_exclude options) = None ->
    Compiler.currentDir st = Some dir ->
    Compiler.nonempty
      (Compiler.files st (Compiler.path_join E dir (Compiler.opt_url options)))
    = Some text ->
    exists st' : Compiler.state,
      Compiler.include E line st
      = (Normal
           (map (converted (Compiler.RuleMasks E))
              (if Compiler.opt_stripComments options
               then filter (fun l => negb (Str.startsWith l "!"))
                           (Compiler.splitLines text)
               else Compiler.splitLines text)),
         st') /\
      Compiler.files st' = Compiler.files st /\
      warnings (Compiler.log st') = warnings (Compiler.log st).
Proof.
  intros E line options st dir text Hp Hu Hc Hx Hd Hf.
  rewrite (IncludeRun.include_local E line options st dir Hp Hu Hc Hd), Hf, Hx.
  set (lines := if Compiler.opt_stripComments options
                then filter (fun l => negb (Str.startsWith l "!"))
                            (Compiler.splitLines text)
                else Compiler.splitLines text).
  set (st1 := Compiler.set_log _ st).
  assert (Hstep : exists lg1 : list log_event,
             Forall (fun e => fst e = Info) lg1 /\
             Compiler.bind (Compiler.ret (Compiler.splitLines text))
               (fun result =>
                  if Compiler.opt_stripComments options
                  then Compiler.stripComments result
                  else Compiler.ret result) st1
             = (Normal lines,
                Compiler.set_log (Compiler.log st ++ lg1)%list st)).
  { subst lines st1. destruct (Compiler.opt_stripComments options).
    - eexists [_; _]. split.
      2:{ cbn. now rewrite <- List.app_assoc. }
      now repeat constructor.
    - eexists [_]. split; [|reflexivity]. now repeat constructor. }
  destruct Hstep as (lg1 & Hlg1 & Hstep).
  unfold Compiler.bind at 1. rewrite Hstep.
  unfold Compiler.bind at 1.
  destruct (IncludeRun.converter_convert_run E lines
              (Compiler.set_log (Compiler.log st ++ lg1)%list st))
    as (li & lg2 & Hlg2 & ->).
  eexists. split; [reflexivity|]. split; [reflexivity|].
  cbn [Compiler.log Compiler.set_log Compiler.set_converter].
  rewrite !ConvertMore.warnings_app, (ConvertMore.warnings_info lg1 Hlg1),
    (ConvertMore.warnings_info lg2 Hlg2).
  cbn. now rewrite !List.app_nil_r.
Qed.

Lemma include_converts_the_lines_of_the_file_witness :
  exists st' : Compiler.state,
    Compiler.include example_env "@include fragment.txt /stripComments"
      (example_state
         [("filters/a/fragment.txt",
           "! a comment" ++ Compiler.CRLF ++ "||example.org^$css"
                         ++ Compiler.CRLF ++ "@include other.txt")]
         [] (Some "filters/a"))
    = (Normal ["||example.org^$stylesheet"; "@include other.txt"], st').
Proof.
  destruct (include_converts_the_lines_of_the_file example_env
              "@include fragment.txt /stripComments"
              {| Compiler.opt_url := "fragment.txt";
                 Compiler.opt_stripComments := true;
                 Compiler.opt_exclude := None |}
              (example_state
                 [("filters/a/fragment.txt",
                   "! a comment" ++ Compiler.CRLF ++ "||example.org^$css"
                                 ++ Compiler.CRLF ++ "@include other.txt")]
                 [] (Some "filters/a"))
              "filters/a"
              ("! a comment" ++ Compiler.CRLF ++ "||example.org^$css"
                             ++ Compiler.CRLF ++ "@include other.txt")
              eq_refl ltac:(discriminate) eq_refl eq_refl eq_refl eq_refl)
    as (st' & H & _).
  exists st'. exact H.
Defined.

(** X15. With [/stripComments] no comment comes out of an inclusion:
    whatever the source of the lines, a file or a download, and whatever
    the exclusions, no line that [include] returns starts with an
    exclamation mark. *)
Theorem include_with_stripComments_returns_no_comment :
  forall (E : Compiler.Env) (line : string) (options : Compiler.include_options)
         (st : Compiler.state) (out : list string) (st' : Compiler.state),
    Compiler.parseIncludeLine line = Normal options ->
    Compiler.opt_stripComments options = true ->
    Compiler.include E line st = (Normal out, st') ->
    Forall (fun l => Str.startsWith l "!" = false) out.
Proof.
  intros E line options st out st' Hp Hs H.
  destruct (IncludeRun.include_result E line options st out st' Hp H)
    as (result & -> & Hres).
  specialize (Hres Hs). apply Forall_forall. intros l Hl.
  apply in_map_iff in Hl as (rule & <- & Hrule).
  rewrite ConvertMore.comment_converted.
  now apply (proj1 (Forall_forall _ _) Hres).
Qed.

Lemma include_with_stripComments_returns_no_comment_witness :
  Forall (fun l => Str.startsWith l "!" = false)
         ["||example.org^$stylesheet"; "@include other.txt"].
Proof.
  set (st := example_state
               [("filters/a/fragment.txt",
                 "! a comment" ++ Compiler.CRLF ++ "||example.org^$css"
                               ++ Compiler.CRLF ++ "@include other.txt")]
               [] (Some "filters/a")).
  apply (include_with_stripComments_returns_no_comment example_env
           "@include fragment.txt /stripComments"
           {| Compiler.opt_url := "fragment.txt";
              Compiler.opt_stripComments := true;
              Compiler.opt_exclude := None |}
           st ["||example.org^$stylesheet"; "@include other.txt"]
           (snd (Compiler.include example_env
                   "@include fragment.txt /stripComments" st))).
  - reflexivity.
  - reflexivity.
  - vm_compute. reflexivity.
Defined.

(** ** The loop of the compiler *)

Module TrimFacts.

Import Str StrFacts.

Lemma trimEnd_cons (c : ascii) (s : string) :
  trimEnd (String c s)
  = match trimEnd s with
    | EmptyString => if is_space c then "" else String c ""
    | String d t => String c (String d t)
    end.
Proof. reflexivity. Qed.

Lemma trimEnd_idem (s : string) : trimEnd (trimEnd s) = trimEnd s.
Proof.
  induction s as [|c s IH]; [reflexivity|].
  rewrite trimEnd_cons. destruct (trimEnd s) as [|d t] eqn:Et.
  - destruct (is_space c) eqn:Ec; [reflexivity|].
    cbn [trimEnd]. now rewrite Ec.
  - now rewrite trimEnd_cons, IH.
Qed.

Lemma trimEnd_head (c : ascii) (s : string) :
  is_space c = false -> exists u, trimEnd (String c s) = String c u.
Proof.
  intros Hc. cbn [trimEnd]. destruct (trimEnd s) as [|d t].
  - rewrite Hc. now exists "".
  - now eexists.
Qed.

Lemma trimStart_head (s : string) :
  trimStart s = "" \/
  exists (c : ascii) (u : string), trimStart s = String c u /\ is_space c = false.
Proof.
  induction s as [|c s IH]; [now left|].
  cbn [trimStart]. destruct (is_space c) eqn:Ec; [exact IH|].
  right. now exists c, s.
Qed.

Lemma trim_idem (s : string) : trim (trim s) = trim s.
Proof.
  unfold trim. destruct (trimStart_head s) as [-> | (c & u & -> & Hc)];
    [reflexivity|].
  destruct (trimEnd_head c u Hc) as (v & Hv).
  rewrite Hv. cbn [trimStart]. rewrite Hc, <- Hv. apply trimEnd_idem.
Qed.

Lemma compile_lines_trimmed (E : Compiler.Env) (lines : list string) :
  forall (result : list string) (st : Compiler.state)
         (out : list string) (st' : Compiler.state),
    Compiler.compile_lines E lines result st = (Normal out, st') ->
    Forall trimmed result -> Forall trimmed out.
Proof.
  induction lines as [|line rest IH]; intros result st out st' H Hres;
    cbn [Compiler.compile_lines] in H.
  - injection H as <- _. exact Hres.
  - destruct (startsWith line "@include ").
    + apply IncludeRun.bind_normal in H as (inc & s1 & _ & H).
      apply (IH _ _ _ _ H). apply Forall_app. split; [exact Hres|].
      apply Forall_forall. intros l Hl.
      apply in_map_iff in Hl as (x & <- & _). apply trim_idem.
    + apply (IH _ _ _ _ H). apply Forall_app. split; [exact Hres|].
      constructor; [apply trim_idem | constructor].
Qed.

Lemma compile_lines_plain (E : Compiler.Env) (lines : list string) :
  Forall (fun l => startsWith l "@include " = false) lines ->
  forall (result : list string) (st : Compiler.state),
    Compiler.compile_lines E lines result st
    = (Normal (result ++ map trim lines)%list, st).
Proof.
  induction 1 as [|line rest Hl _ IH]; intros result st;
    cbn [Compiler.compile_lines map].
  - now rewrite List.app_nil_r.
  - rewrite Hl, IH, <- List.app_assoc. reflexivity.
Qed.

End TrimFacts.

(** X16. Every line that the loop of [compile] puts into the result is
    trimmed, the lines of the template and the lines that an inclusion
    returns alike: when the loop returns, no line of its result starts or
    ends with white space. *)
Theorem compile_loop_returns_trimmed_lines :
  forall (E : Compiler.Env) (lines : list string) (st : Compiler.state)
         (out : list string) (st' : Compiler.state),
    Compiler.compile_lines E lines [] st = (Normal out, st') ->
    Forall (fun l => Str.trim l = l) out.
Proof.
  intros E lines st out st' H.
  apply (TrimFacts.compile_lines_trimmed E lines [] st out st' H).
  constructor.
Qed.

Lemma compile_loop_returns_trimmed_lines_witness :
  Forall (fun l => Str.trim l = l) ["||example.org^"; "example.com##h1"].
Proof.
  set (st := example_state [("filters/a/fragment.txt", " example.com##h1 ")]
               [] (Some "filters/a")).
  apply (compile_loop_returns_trimmed_lines example_env
           ["  ||example.org^ "; "@include fragment.txt"] st
           ["||example.org^"; "example.com##h1"]
           (snd (Compiler.compile_lines example_env
                   ["  ||example.org^ "; "@include fragment.txt"] [] st))).
  vm_compute. reflexivity.
Defined.

(** X17. A template without a line that starts with [@include] and a
    space is compiled by the loop into its own lines, trimmed, in their
    order: no file is read, nothing is logged, the state is as it was. *)
Theorem template_without_directives_is_only_trimmed :
  forall (E : Compiler.Env) (lines result : list string) (st : Compiler.state),
    Forall (fun l => Str.startsWith l "@include " = false) lines ->
    Compiler.compile_lines E lines result st
    = (Normal (result ++ map Str.trim lines)%list, st).
Proof.
  intros E lines result st H. now apply TrimFacts.compile_lines_plain.
Qed.

Lemma template_without_directives_is_only_trimmed_witness :
  Compiler.compile_lines example_env
    ["! Title"; " ||example.org^ "; "@include"] []
    (example_state [] [] None)
  = (Normal ["! Title"; "||example.org^"; "@include"],
     example_state [] [] None).
Proof.
  apply (template_without_directives_is_only_trimmed example_env
           ["! Title"; " ||example.org^ "; "@include"] []
           (example_state [] [] None)).
  repeat constructor.
Defined.

(** ** The build of a filter *)

Module BuildFacts.

Import Str StrFacts IncludeRun.

Lemma in_currentDir_run (E : Compiler.Env) (name : string) (st : Compiler.state)
      (path : string) (st' : Compiler.state) :
  Compiler.in_currentDir E name st = (Normal path, st') ->
  st' = st /\
  exists dir, Compiler.currentDir st = Some dir /\
              path = Compiler.path_join E dir name.
Proof.
  unfold Compiler.in_currentDir, Compiler.bind, Compiler.gets.
  destruct (Compiler.currentDir st) as [dir|]; [|discriminate].
  intros H. injection H as <- <-. split; [reflexivity|]. now exists dir.
Qed.

(** the revision carries the time of the clock, and making it changes
    nothing *)
Lemma makeRevision_run (E : Compiler.Env) (path : string) (st : Compiler.state)
      (r : Compiler.revision) (st' : Compiler.state) :
  Compiler.makeRevision E path st = (Normal r, st') ->
  st' = st /\ Compiler.timeUpdated r = Compiler.clock st.
Proof.
  unfold Compiler.makeRevision, Compiler.bind, Compiler.gets,
    Compiler.readFile, Compiler.gets, Compiler.ret, Compiler.throw,
    Compiler.lift.
  destruct (Compiler.nonempty (Compiler.files st path)) as [text|].
  2:{ intros H. now injection H as <- <-. }
  destruct (Compiler.JSON_parse E text) as [p|]; [|discriminate].
  destruct (Json.truthy p).
  2:{ intros H. now injection H as <- <-. }
  destruct (Json.property p "version") as [[v|]|e]; [| |discriminate].
  2:{ intros H. now injection H as <- <-. }
  destruct (Json.truthy v).
  2:{ intros H. now injection H as <- <-. }
  destruct (Compiler.version_increment E v) as [next|e]; [|discriminate].
  intros H. now injection H as <- <-.
Qed.

(** a revision file that is no JSON text *)
Lemma makeRevision_malformed (E : Compiler.Env) (path text : string)
      (st : Compiler.state) :
  Compiler.nonempty (Compiler.files st path) = Some text ->
  Compiler.JSON_parse E text = None ->
  Compiler.makeRevision E path st = (Throw SyntaxError, st).
Proof.
  intros Hf Hj.
  unfold Compiler.makeRevision, Compiler.bind, Compiler.gets,
    Compiler.readFile, Compiler.gets.
  now rewrite Hf, Hj.
Qed.


Lemma makeHeader_lines (E : Compiler.Env) (path : string)
      (r : Compiler.revision) (st : Compiler.state)
      (header : list string) (st' : Compiler.state) :
  Compiler.makeHeader E path r st = (Normal header, st') ->
  List.length header = 5 /\
  Forall (fun l => startsWith l "! " = true) header /\
  nth_error header 2 = Some ("! Version: " ++ Compiler.version r).
Proof.
  unfold Compiler.makeHeader, Compiler.bind, Compiler.logger_log,
    Compiler.modify, Compiler.readFile, Compiler.gets, Compiler.lift,
    Compiler.ret, Compiler.throw.
  cbn [Compiler.files Compiler.set_log Compiler.set_converter].
  destruct (Compiler.nonempty (Compiler.files st path)) as [text|];
    [|discriminate].
  destruct (Compiler.JSON_parse E text) as [v|]; [|discriminate].
  destruct (Json.property v "name") as [name|]; [|discriminate].
  destruct (Json.property v "description") as [description|]; [|discriminate].
  destruct (Json.property v "expires") as [expires|]; [|discriminate].
  intros H. injection H as <- _.
  split; [reflexivity|]. split; [|reflexivity].
  repeat constructor.
Qed.

Lemma logger_log_run (message : string) (st : Compiler.state)
      (u : unit) (st' : Compiler.state) :
  Compiler.logger_log message st = (Normal u, st') ->
  Compiler.files st' = Compiler.files st /\
  Compiler.currentDir st' = Compiler.currentDir st.
Proof. intros H. injection H as _ <-. now split. Qed.

(** what a build that returns has done *)
Lemma buildFilter_run (E : Compiler.Env) (filterDir : string)
      (st st' : Compiler.state) (u : unit) :
  Compiler.buildFilter E filterDir st = (Normal u, st') ->
  exists (template : string) (r : Compiler.revision)
         (compiled header : list string) (s s' : Compiler.state),
    Compiler.nonempty
      (Compiler.files st (Compiler.path_join E filterDir Compiler.TEMPLATE_FILE))
    = Some template /\
    Compiler.makeRevision E
      (Compiler.path_join E filterDir Compiler.REVISION_FILE)
      (Compiler.set_currentDir (Some filterDir) st)
    = (Normal r, Compiler.set_currentDir (Some filterDir) st) /\
    Compiler.files s = Compiler.files st /\
    Compiler.currentDir s = Some filterDir /\
    Compiler.compile E template s = (Normal compiled, s') /\
    List.length header = 5 /\
    Forall (fun l => startsWith l "! " = true) header /\
    nth_error header 2 = Some ("! Version: " ++ Compiler.version r) /\
    Compiler.currentDir st' = Some filterDir /\
    Compiler.files st'
    = Compiler.update
        (Compiler.update (Compiler.files st)
           (Compiler.path_join E filterDir Compiler.FILTER_FILE)
           (join Compiler.CRLF (header ++ compiled)%list))
        (Compiler.path_join E filterDir Compiler.REVISION_FILE)
        (Compiler.JSON_stringify E (Compiler.version r) (Compiler.timeUpdated r)).
Proof.
  intros H. unfold Compiler.buildFilter in H.
  apply bind_normal in H as (u1 & s1 & H1 & H).
  injection H1 as _ <-.
  apply bind_normal in H as (templatePath & s2 & H2 & H).
  apply in_currentDir_run in H2 as (-> & dir & Hd & ->).
  injection Hd as <-.
  apply bind_normal in H as (template & s3 & H3 & H).
  injection H3 as <- <-.
  cbn [Compiler.files Compiler.set_currentDir] in H.
  destruct (Compiler.nonempty
              (Compiler.files st
                 (Compiler.path_join E filterDir Compiler.TEMPLATE_FILE)))
    as [template|] eqn:Ht; [|discriminate].
  apply bind_normal in H as (revisionFile & s4 & H4 & H).
  apply in_currentDir_run in H4 as (-> & dir & Hd & ->).
  injection Hd as <-.
  apply bind_normal in H as (r & s5 & H5 & H).
  pose proof (makeRevision_run _ _ _ _ _ H5) as (-> & Htime).
  apply bind_normal in H as (u6 & s6 & H6 & H).
  apply logger_log_run in H6 as (Hf6 & Hd6).
  apply bind_normal in H as (compiled & s7 & H7 & H).
  pose proof (CompilerFacts.keeps_compile E template) as Hk7.
  pose proof H7 as H7'. apply Hk7 in H7' as (Hf7 & Hd7).
  apply bind_normal in H as (u8 & s8 & H8 & H).
  apply logger_log_run in H8 as (Hf8 & Hd8).
  apply bind_normal in H as (metadataFile & s9 & H9 & H).
  apply in_currentDir_run in H9 as (-> & dir9 & Hd9 & ->).
  apply bind_normal in H as (header & s10 & H10 & H).
  pose proof (CompilerFacts.keeps_makeHeader E
                (Compiler.path_join E dir9 Compiler.METADATA_FILE) r) as Hk10.
  pose proof H10 as H10'. apply Hk10 in H10' as (Hf10 & Hd10).
  apply makeHeader_lines in H10 as (Hlen & Hall & Hver).
  apply bind_normal in H as (u11 & s11 & H11 & H).
  apply logger_log_run in H11 as (Hf11 & Hd11).
  apply bind_normal in H as (filterPath & s12 & H12 & H).
  apply in_currentDir_run in H12 as (-> & dir12 & Hd12 & ->).
  assert (Hdir : Compiler.currentDir s11 = Some filterDir).
  { rewrite Hd11, Hd10, Hd8, Hd7, Hd6. reflexivity. }
  rewrite Hdir in Hd12. injection Hd12 as <-.
  assert (Hfiles : Compiler.files s11 = Compiler.files st).
  { rewrite Hf11, Hf10, Hf8, Hf7, Hf6. reflexivity. }
  cbn in H. injection H as _ <-.
  exists template, r, compiled, header, s6, s7.
  cbn [Compiler.files Compiler.currentDir Compiler.set_files].
  rewrite Hfiles.
  repeat (split; [first [ exact Ht | exact H5 | exact Hf6 | exact Hd6
                        | exact H7 | exact Hlen | exact Hall | exact Hver
                        | exact Hdir | reflexivity ]|]).
  reflexivity.
Qed.

Lemma build_items_files (E : Compiler.Env) (filtersDir : string)
      (items : list string) (st : Compiler.state) :
  Forall (fun name =>
            Compiler.directory st (Compiler.path_join E filtersDir name)
            = Some false) items ->
  Compiler.build_items E filtersDir items st = (Normal tt, st).
Proof.
  induction 1 as [|name rest Hn _ IH]; [reflexivity|].
  cbn [Compiler.build_items]. unfold Compiler.bind at 1.
  unfold Compiler.bind at 1. rewrite Hn. exact IH.
Qed.

End BuildFacts.

(** X18. A revision file that is there and is no JSON text stops the
    build of the directory, although its template is fine: [buildFilter]
    throws the syntax error of [JSON.parse] before it compiles anything.
    Nothing is written and nothing is logged; only [currentDir] has
    moved. *)
Theorem malformed_revision_stops_the_build :
  forall (E : Compiler.Env) (filterDir : string) (st : Compiler.state)
         (template text : string),
    Compiler.nonempty
      (Compiler.files st (Compiler.path_join E filterDir Compiler.TEMPLATE_FILE))
    = Some template ->
    Compiler.nonempty
      (Compiler.files st (Compiler.path_join E filterDir Compiler.REVISION_FILE))
    = Some text ->
    Compiler.JSON_parse E text = None ->
    Compiler.buildFilter E filterDir st
    = (Throw SyntaxError, Compiler.set_currentDir (Some filterDir) st).
Proof.
  intros E filterDir st template text Ht Hr Hj.
  unfold Compiler.buildFilter.
  unfold Compiler.bind at 1. unfold Compiler.modify at 1.
  unfold Compiler.bind at 1. unfold Compiler.in_currentDir at 1.
  unfold Compiler.bind at 1. unfold Compiler.gets at 1.
  cbn [Compiler.currentDir Compiler.set_currentDir]. unfold Compiler.ret at 1.
  unfold Compiler.bind at 1. unfold Compiler.readFile at 1, Compiler.gets at 1.
  cbn [Compiler.files Compiler.set_currentDir]. rewrite Ht.
  unfold Compiler.bind at 1. unfold Compiler.in_currentDir at 1.
  unfold Compiler.bind at 1. unfold Compiler.gets at 1.
  cbn [Compiler.currentDir Compiler.set_currentDir]. unfold Compiler.ret at 1.
  unfold Compiler.bind at 1.
  rewrite (BuildFacts.makeRevision_malformed E _ text); [reflexivity| |exact Hj].
  exact Hr.
Qed.

Lemma malformed_revision_stops_the_build_witness :
  Compiler.buildFilter example_env "filters/a"
    (example_state [("filters/a/template.txt", "||example.org^");
                    ("filters/a/metadata.json", "{}");
                    ("filters/a/revision.json", "{version:")]
       [] None)
  = (Throw SyntaxError,
     Compiler.set_currentDir (Some "filters/a")
       (example_state [("filters/a/template.txt", "||example.org^");
                       ("filters/a/metadata.json", "{}");
                       ("filters/a/revision.json", "{version:")]
          [] None)).
Proof.
  apply (malformed_revision_stops_the_build example_env "filters/a"
           (example_state [("filters/a/template.txt", "||example.org^");
                           ("filters/a/metadata.json", "{}");
                           ("filters/a/revision.json", "{version:")]
              [] None)
           "||example.org^" "{version:");
    reflexivity.
Defined.

(** X19. What a build that returns has done.  The template was there and
    not empty; the revision was made before anything else and carries the
    time of the clock at the start; the lines were compiled without a file
    being written; the header has five lines, each a comment, the third
    with the version of the revision.  Two files are written and no
    other: the filter, which is the header and the compiled lines joined
    with a carriage return and a line feed, and then the revision file.
    The file at any other path is as it was. *)
Theorem buildFilter_writes_filter_and_revision :
  forall (E : Compiler.Env) (filterDir : string) (st st' : Compiler.state),
    Compiler.buildFilter E filterDir st = (Normal tt, st') ->
    exists (template : string) (r : Compiler.revision)
           (compiled header : list string) (s s' : Compiler.state),
      Compiler.nonempty
        (Compiler.files st
           (Compiler.path_join E filterDir Compiler.TEMPLATE_FILE))
      = Some template /\
      Compiler.timeUpdated r = Compiler.clock st /\
      (Compiler.files s = Compiler.files st /\
       Compiler.compile E template s = (Normal compiled, s')) /\
      (List.length header = 5 /\
       Forall (fun l => Str.startsWith l "! " = true) header /\
       nth_error header 2 = Some ("! Version: " ++ Compiler.version r)) /\
      Compiler.files st'
      = Compiler.update
          (Compiler.update (Compiler.files st)
             (Compiler.path_join E filterDir Compiler.FILTER_FILE)
             (Str.join Compiler.CRLF (header ++ compiled)%list))
          (Compiler.path_join E filterDir Compiler.REVISION_FILE)
          (Compiler.JSON_stringify E (Compiler.version r)
             (Compiler.timeUpdated r)) /\
      forall path : string,
        path <> Compiler.path_join E filterDir Compiler.FILTER_FILE ->
        path <> Compiler.path_join E filterDir Compiler.REVISION_FILE ->
        Compiler.files st' path = Compiler.files st path.
Proof.
  intros E filterDir st st' H.
  destruct (BuildFacts.buildFilter_run E filterDir st st' tt H)
    as (template & r & compiled & header & s & s'
        & Ht & Hr & Hfs & _ & Hc & Hlen & Hall & Hver & _ & Hfiles).
  exists template, r, compiled, header, s, s'.
  split; [exact Ht|]. split.
  { now destruct (BuildFacts.makeRevision_run _ _ _ _ _ Hr) as (_ & ->). }
  split; [now split|]. split; [now repeat split|].
  split; [exact Hfiles|].
  intros path Hp1 Hp2. rewrite Hfiles. unfold Compiler.update.
  apply String.eqb_neq in Hp1, Hp2. now rewrite Hp1, Hp2.
Qed.

Lemma buildFilter_writes_filter_and_revision_witness :
  exists header compiled : list string,
    List.length header = 5 /\
    Compiler.files
      (snd (Compiler.buildFilter example_env "filters/a"
              (example_state [("filters/a/template.txt", "||example.org^");
                              ("filters/a/metadata.json", "{}")]
                 [] None)))
      "filters/a/filter.txt"
    = Some (Str.join Compiler.CRLF (header ++ compiled)%list).
Proof.
  set (st := example_state [("filters/a/template.txt", "||example.org^");
                            ("filters/a/metadata.json", "{}")]
               [] None).
  assert (H : Compiler.buildFilter example_env "filters/a" st
              = (Normal tt,
                 snd (Compiler.buildFilter example_env "filters/a" st)))
    by (vm_compute; reflexivity).
  destruct (buildFilter_writes_filter_and_revision example_env "filters/a" st
              _ H)
    as (template & r & compiled & header & s & s'
        & _ & _ & _ & (Hlen & _) & Hfiles & _).
  exists header, compiled. split; [exact Hlen|].
  rewrite Hfiles. reflexivity.
Defined.



(** X21. [build] builds directories only.  When no entry of the root
    directory is a directory, it returns after it has set the log file and
    the file of the domain blacklist: no filter is built, no file is
    written and nothing is logged. *)
Theorem build_skips_entries_that_are_no_directory :
  forall (E : Compiler.Env) (filtersDir logFile domainBlacklistFile : string)
         (st : Compiler.state) (items : list string),
    Compiler.entries st filtersDir = Some items ->
    Forall (fun name =>
              Compiler.directory st (Compiler.path_join E filtersDir name)
              = Some false) items ->
    Compiler.build E filtersDir logFile domainBlacklistFile st
    = (Normal tt,
       Compiler.set_domainBlacklistFile (Some domainBlacklistFile)
         (Compiler.set_logFile (Some logFile) st)).
Proof.
  intros E filtersDir logFile bl st items He Hall.
  unfold Compiler.build.
  unfold Compiler.bind at 1. unfold Compiler.modify at 1.
  unfold Compiler.bind at 1. unfold Compiler.modify at 1.
  unfold Compiler.bind at 1.
  cbn [Compiler.entries Compiler.set_logFile Compiler.set_domainBlacklistFile].
  rewrite He.
  now apply BuildFacts.build_items_files.
Qed.

Lemma build_skips_entries_that_are_no_directory_witness :
  Compiler.build example_env "filters" "log.txt" "blacklist.txt"
    (example_state [("filters/readme.md", "text")]
       [("filters", ["readme.md"])] None)
  = (Normal tt,
     Compiler.set_domainBlacklistFile (Some "blacklist.txt")
       (Compiler.set_logFile (Some "log.txt")
          (example_state [("filters/readme.md", "text")]
             [("filters", ["readme.md"])] None))).
Proof.
  apply (build_skips_entries_that_are_no_directory example_env
           "filters" "log.txt" "blacklist.txt"
           (example_state [("filters/readme.md", "text")]
              [("filters", ["readme.md"])] None)
           ["readme.md"]).
  - reflexivity.
  - repeat constructor.
Defined.
